(** * Linkerd trust rotator: rollout plan, cursor, status recorder and
      orchestrator, embedded from the Go sources.

    Go strings are byte strings: they are modelled as [string] (one [ascii]
    per byte).  Go [int] is a 64-bit two's complement integer: it is modelled
    as [Z] with the wrap-around written out ([wrap64]).  Pointers that may be
    nil are [option]s.  Calls to the cluster API are calls to an oracle
    ([Cluster]) and leave an entry in a trace. *)

From Stdlib Require Import ZArith List String Ascii Bool Lia DecimalString.
From Stdlib Require Import Sorting.Sorted Sorting.Permutation.
From Stdlib Require OrderedTypeEx.
From Stdlib Require DecimalPos.
Import ListNotations.

Set Warnings "-register-all".

#[local] Open Scope string_scope.
#[local] Open Scope list_scope.
#[local] Open Scope Z_scope.

Notation "a +++ b" := (String.append a b) (at level 60, right associativity).

(* ================================================================== *)
(** ** Bytes, hexadecimal, SHA-1 and SHA-256 (encoding/hex, crypto)    *)
(* ================================================================== *)

Definition bytes_of_string (s : string) : list Z :=
  map (fun c => Z.of_N (N_of_ascii c)) (list_ascii_of_string s).

Definition hexDigit (n : Z) : ascii :=
  if n <? 10 then ascii_of_N (Z.to_N (48 + n)) else ascii_of_N (Z.to_N (87 + n)).

(** hex.EncodeToString: two lowercase digits per byte. *)
Fixpoint hexEncode (bs : list Z) : string :=
  match bs with
  | [] => EmptyString
  | b :: r => String (hexDigit (b / 16)) (String (hexDigit (b mod 16)) (hexEncode r))
  end.

Module SHA1.

Definition wrap32 (x : Z) : Z := x mod 2 ^ 32.

Definition rotl (n x : Z) : Z :=
  wrap32 (Z.lor (Z.shiftl x n) (Z.shiftr x (32 - n))).

Definition add32 (x y : Z) : Z := wrap32 (x + y).

Definition not32 (x : Z) : Z := 2 ^ 32 - 1 - x.

(** Big-endian encoding of [x] on [n] bytes. *)
Fixpoint be_bytes (n : nat) (x : Z) : list Z :=
  match n with
  | O => []
  | S k => (x / 2 ^ (8 * Z.of_nat k)) mod 256 :: be_bytes k x
  end.

(** Message padding: 0x80, zeros up to 56 mod 64, bit length on 64 bits. *)
Definition pad (m : list Z) : list Z :=
  let len := Z.of_nat (List.length m) in
  let zeros := Z.to_nat ((55 - len) mod 64) in
  m ++ 128 :: repeat 0 zeros ++ be_bytes 8 (8 * len).

Fixpoint words (fuel : nat) (bs : list Z) : list Z :=
  match fuel, bs with
  | S k, a :: b :: c :: d :: r =>
      (((a * 256 + b) * 256 + c) * 256 + d) :: words k r
  | _, _ => []
  end.

Fixpoint extend (n : nat) (w : list Z) : list Z :=
  match n with
  | O => w
  | S k =>
      let i := List.length w in
      let g j := nth (i - j) w 0 in
      extend k (w ++ [rotl 1 (Z.lxor (Z.lxor (g 3%nat) (g 8%nat))
                                     (Z.lxor (g 14%nat) (g 16%nat)))])
  end.

Definition State : Type := Z * Z * Z * Z * Z.

Definition init : State :=
  (0x67452301, 0xEFCDAB89, 0x98BADCFE, 0x10325476, 0xC3D2E1F0).

Definition round (i : nat) (wi : Z) (s : State) : State :=
  let '(a, b, c, d, e) := s in
  let '(f, k) :=
    if (i <? 20)%nat then
      (Z.lor (Z.land b c) (Z.land (not32 b) d), 0x5A827999)
    else if (i <? 40)%nat then
      (Z.lxor (Z.lxor b c) d, 0x6ED9EBA1)
    else if (i <? 60)%nat then
      (Z.lor (Z.lor (Z.land b c) (Z.land b d)) (Z.land c d), 0x8F1BBCDC)
    else
      (Z.lxor (Z.lxor b c) d, 0xCA62C1D6) in
  let t := add32 (add32 (add32 (add32 (rotl 5 a) f) e) k) wi in
  (t, a, rotl 30 b, c, d).

Fixpoint rounds (i : nat) (w : list Z) (s : State) : State :=
  match w with
  | [] => s
  | wi :: r => rounds (S i) r (round i wi s)
  end.

Definition block (s : State) (blk : list Z) : State :=
  let w := extend 64 (words 16 blk) in
  let '(a, b, c, d, e) := rounds 0 w s in
  let '(h0, h1, h2, h3, h4) := s in
  (add32 h0 a, add32 h1 b, add32 h2 c, add32 h3 d, add32 h4 e).

Fixpoint blocks (fuel : nat) (s : State) (bs : list Z) : State :=
  match fuel, bs with
  | S k, _ :: _ => blocks k (block s (firstn 64 bs)) (skipn 64 bs)
  | _, _ => s
  end.

(** sha1.Sum: the 20-byte digest of a byte sequence. *)
Definition digest (m : list Z) : list Z :=
  let p := pad m in
  let '(h0, h1, h2, h3, h4) := blocks (List.length p) init p in
  be_bytes 4 h0 ++ be_bytes 4 h1 ++ be_bytes 4 h2 ++ be_bytes 4 h3 ++ be_bytes 4 h4.

End SHA1.


Module SHA256.

Import SHA1.

Definition rotr (n x : Z) : Z :=
  wrap32 (Z.lor (Z.shiftr x n) (Z.shiftl x (32 - n))).

Definition isPrime (n : nat) : bool :=
  forallb (fun d => negb (Nat.eqb (n mod d) 0)) (seq 2 (n - 2)).

(** The first 64 primes. *)
Definition primes : list Z :=
  map Z.of_nat (filter isPrime (seq 2 310)).

(** Integer cube root, by bits from 2^k down. *)
Fixpoint icbrt (k : nat) (x n : Z) : Z :=
  let y := x + 2 ^ Z.of_nat k in
  let x := if y * y * y <=? n then y else x in
  match k with
  | O => x
  | S k' => icbrt k' x n
  end.

(** The round constants: the first 32 bits of the fractional parts of the
    cube roots of the first 64 primes. *)
Definition K : list Z :=
  Eval vm_compute in map (fun p => wrap32 (icbrt 40 0 (p * 2 ^ 96))) primes.

(** The initial state: the first 32 bits of the fractional parts of the
    square roots of the first 8 primes. *)
Definition init : list Z :=
  Eval vm_compute in map (fun p => wrap32 (Z.sqrt (p * 2 ^ 64))) (firstn 8 primes).

Fixpoint extend (n : nat) (w : list Z) : list Z :=
  match n with
  | O => w
  | S k =>
      let i := List.length w in
      let g j := nth (i - j) w 0 in
      let s0 := Z.lxor (Z.lxor (rotr 7 (g 15%nat)) (rotr 18 (g 15%nat)))
                       (Z.shiftr (g 15%nat) 3) in
      let s1 := Z.lxor (Z.lxor (rotr 17 (g 2%nat)) (rotr 19 (g 2%nat)))
                       (Z.shiftr (g 2%nat) 10) in
      extend k (w ++ [add32 (add32 (add32 (g 16%nat) s0) (g 7%nat)) s1])
  end.

Definition round (s : list Z) (kw : Z * Z) : list Z :=
  match s with
  | [a; b; c; d; e; f; g; h] =>
      let S1 := Z.lxor (Z.lxor (rotr 6 e) (rotr 11 e)) (rotr 25 e) in
      let ch := Z.lxor (Z.land e f) (Z.land (not32 e) g) in
      let t1 := add32 (add32 (add32 (add32 h S1) ch) (fst kw)) (snd kw) in
      let S0 := Z.lxor (Z.lxor (rotr 2 a) (rotr 13 a)) (rotr 22 a) in
      let maj := Z.lxor (Z.lxor (Z.land a b) (Z.land a c)) (Z.land b c) in
      let t2 := add32 S0 maj in
      [add32 t1 t2; a; b; c; add32 d t1; e; f; g]
  | _ => s
  end.

Definition block (s : list Z) (blk : list Z) : list Z :=
  let w := extend 48 (words 16 blk) in
  map (fun p => add32 (fst p) (snd p))
      (combine s (fold_left round (combine K w) s)).

Fixpoint blocks (fuel : nat) (s : list Z) (bs : list Z) : list Z :=
  match fuel, bs with
  | S k, _ :: _ => blocks k (block s (firstn 64 bs)) (skipn 64 bs)
  | _, _ => s
  end.

(** sha256.Sum256: the 32-byte digest of a byte sequence. *)
Definition digest (m : list Z) : list Z :=
  let p := pad m in
  flat_map (be_bytes 4) (blocks (List.length p) init p).

End SHA256.

(* ================================================================== *)
(** ** Go values: int, time, errors, maps                             *)
(* ================================================================== *)

(** Go [int] on a 64-bit platform. *)
Definition wrap64 (x : Z) : Z := (x + 2 ^ 63) mod 2 ^ 64 - 2 ^ 63.
Definition add64 (x y : Z) : Z := wrap64 (x + y).
Definition MaxInt64 : Z := 2 ^ 63 - 1.

(** time.Duration and time.Time, in nanoseconds. *)
Definition Duration : Type := Z.
Definition Time : Type := Z.
Definition Second : Duration := 1000000000.
Definition Minute : Duration := 60 * Second.
(** The zero [metav1.Time] (January 1, year 1). *)
Definition zeroTime : Time := -62135596800 * Second.

(** A Go [error]: its text, and whether [apierrors.IsNotFound] holds of it.
    Wrapping with [%w] keeps the latter. *)
Record error : Type := mkError { errText : string; errNotFound : bool }.

Definition Errorf (text : string) : error := mkError text false.
Definition Wrapf (prefix : string) (e : error) : error :=
  mkError (prefix +++ errText e) (errNotFound e).

(** The error of a cancelled context. *)
Definition ctxCanceled : error := Errorf "context canceled".

Definition dquote : string := String (ascii_of_nat 34) EmptyString.
(** The [%q] verb, on strings that need no escaping. *)
Definition quoted (s : string) : string := dquote +++ s +++ dquote.

(** map[string]string; a nil map and an empty map read the same way. *)
Definition StrMap : Type := list (string * string).

Fixpoint mapGet {V : Type} (k : string) (m : list (string * V)) : option V :=
  match m with
  | [] => None
  | (k', v) :: r => if String.eqb k k' then Some v else mapGet k r
  end.

Definition strEmpty (s : string) : bool :=
  match s with EmptyString => true | _ => false end.

Inductive Res (A : Type) : Type :=
| Ok (a : A)
| Err (e : error).
Arguments Ok {A} a.
Arguments Err {A} e.

(** Result of a [Get]: the object, a not-found error, or another error. *)
Definition isNotFound (e : error) : bool := errNotFound e.

(* ================================================================== *)
(** ** Kubernetes objects (the fields the program reads)              *)
(* ================================================================== *)

Record ObjectMeta : Type := mkMeta {
  Namespace : string;
  Name : string;
  ResourceVersion : string;
  Generation : Z;
  Labels : StrMap;
  Annotations : StrMap;
  DeletionTimestamp : option Time
}.

Record Deployment : Type := mkDeployment {
  depMeta : ObjectMeta;
  depTemplateAnnotations : StrMap;
  depReplicas : option Z;
  depUpdatedReplicas : Z;
  depReadyReplicas : Z;
  depUnavailableReplicas : Z;
  depObservedGeneration : Z
}.

Record StatefulSet : Type := mkStatefulSet {
  stsMeta : ObjectMeta;
  stsTemplateAnnotations : StrMap;
  stsSelector : StrMap;
  stsReplicas : option Z;
  stsReadyReplicas : Z;
  stsCurrentRevision : string;
  stsUpdateRevision : string;
  stsObservedGeneration : Z
}.

Record DaemonSet : Type := mkDaemonSet {
  dsMeta : ObjectMeta;
  dsTemplateAnnotations : StrMap;
  dsUpdateStrategy : string;
  dsDesiredNumberScheduled : Z;
  dsUpdatedNumberScheduled : Z;
  dsNumberAvailable : Z;
  dsNumberMisscheduled : Z;
  dsObservedGeneration : Z
}.

(** The content of an [unstructured.Unstructured]: a JSON tree. *)
Inductive JSON : Type :=
| JNull
| JBool (b : bool)
| JInt (n : Z)
| JString (s : string)
| JArray (l : list JSON)
| JObject (m : list (string * JSON)).

Record Unstructured : Type := mkUnstructured { Object : list (string * JSON) }.

(** unstructured.NestedString and the accessors built on it. *)
Fixpoint nestedField (m : list (string * JSON)) (path : list string) : option JSON :=
  match path with
  | [] => Some (JObject m)
  | [p] => mapGet p m
  | p :: rest =>
      match mapGet p m with
      | Some (JObject next) => nestedField next rest
      | _ => None
      end
  end.

Definition nestedString (m : list (string * JSON)) (path : list string) : string :=
  match nestedField m path with
  | Some (JString s) => s
  | _ => EmptyString
  end.

Definition crGetNamespace (u : Unstructured) : string :=
  nestedString (Object u) ["metadata"; "namespace"].
Definition crGetName (u : Unstructured) : string :=
  nestedString (Object u) ["metadata"; "name"].
Definition crGetKind (u : Unstructured) : string :=
  nestedString (Object u) ["kind"].

Record PodCondition : Type := mkPodCondition { condType : string; condStatus : string }.

Record Pod : Type := mkPod {
  podMeta : ObjectMeta;
  podPhase : string;
  podConditions : list PodCondition
}.

Definition PodRunning : string := "Running".
Definition PodReady : string := "Ready".
Definition ConditionTrue : string := "True".

Record ConfigMap : Type := mkConfigMap { cmData : StrMap }.

(* ================================================================== *)
(** ** The rotation resource (api/v1alpha1)                           *)
(* ================================================================== *)

Definition BundleState : Type := string.
Definition BundleStateSingle : BundleState := "single".
Definition BundleStateOverlap : BundleState := "overlap".

Definition Phase : Type := string.
Definition PhaseIdle : Phase := "Idle".
Definition PhaseDetecting : Phase := "Detecting".
Definition PhaseDryRun : Phase := "DryRun".
Definition PhaseRollingCP : Phase := "RollingCP".
Definition PhaseRollingDP : Phase := "RollingDP".
Definition PhaseSucceeded : Phase := "Succeeded".
Definition PhaseFailed : Phase := "Failed".

Definition Reason : Type := string.
Definition ReasonSecretsDiverged : Reason := "SecretsDiverged".
Definition ReasonMaxRetriesExceeded : Reason := "ReasonMaxRetriesExceeded".
Definition ReasonCPRestarting : Reason := "ControlPlaneRestarting".
Definition ReasonCPReady : Reason := "ControlPlaneReady".
Definition ReasonDPBatchRestarting : Reason := "DataPlaneBatchRestarting".
Definition ReasonDPThresholdReached : Reason := "DataPlaneThresholdReached".
Definition ReasonRotationFailed : Reason := "RotationFailed".
Definition ReasonDryRun : Reason := "DryRunCompleted".

Record RotationTrigger : Type := mkTrigger {
  OnTrustRootsConfigMapChange : bool;
  OnTrustAnchorSecretsDiff : bool
}.

Record AnnotationBumpOptions : Type := mkBump {
  bumpKey : string;
  bumpValue : string
}.

Record TargetScope : Type := mkScope {
  KindType : string;
  AllowedNamespaces : list string;
  RolloutStrategy : string;
  APIGroup : string;
  ScopeKind : string;
  Version : string;
  AnnotationBump : option AnnotationBumpOptions
}.

Record TargetAnnotationSelector : Type := mkSelector {
  selKey : string;
  selValue : string;
  Targets : list TargetScope
}.

Record ProtectionSpec : Type := mkProtection {
  RunLinkerdCheckProxy : bool;
  LinkerdCheckProxyImage : string;
  BeforeRolloutDelay : option Duration;
  RetriggerRolloutAfterCleanup : bool;
  HoldAfterCleanup : option Duration;
  MaxRolloutFailures : Z
}.

Record LinkerdSpec : Type := mkLinkerd {
  linkerdNamespace : string;
  TrustRootsConfigMap : string;
  TrustAnchorSecret : string;
  PreviousTrustAnchorSecret : string;
  BootstrapPreviousSecret : bool
}.

Record LinkerdTrustRotationSpec : Type := mkSpec {
  Linkerd : LinkerdSpec;
  Trigger : RotationTrigger;
  Rollout : TargetAnnotationSelector;
  Protection : ProtectionSpec;
  DryRun : bool
}.

Record ProgressStatus : Type := mkProgress {
  ControlPlaneReady : bool;
  DataPlanePercent : Z
}.

Record TrustStatus : Type := mkTrust {
  trustBundleState : option BundleState;
  CurrentFP : string;
  PreviousFP : string
}.

Record WorkRef : Type := mkWorkRef {
  refKind : string;
  refNamespace : string;
  refName : string
}.

Record RolloutCursor : Type := mkCursor {
  PlanHash : string;
  Next : Z;
  Total : Z;
  LastDone : option WorkRef
}.

Record RetryStatus : Type := mkRetry {
  Count : Z;
  LastError : string;
  LastFailed : option WorkRef;
  LastErrorTime : option Time
}.

Record Status : Type := mkStatus {
  stPhase : option Phase;
  stReason : option Reason;
  stMessage : option string;
  StartedAt : option Time;
  LastUpdated : option Time;
  CompletionTime : option Time;
  Progress : option ProgressStatus;
  Trust : option TrustStatus;
  Retries : option RetryStatus;
  Cursor : option RolloutCursor;
  DryRunOutput : string
}.

Definition emptyStatus : Status :=
  mkStatus None None None None None None None None None None EmptyString.

Record LinkerdTrustRotation : Type := mkRotation {
  Spec : LinkerdTrustRotationSpec;
  ObjStatus : Status
}.

(* ================================================================== *)
(** ** Work items and the plan hash (rollout/helpers.go)              *)
(* ================================================================== *)

Definition Restart : string := "rolloutRestart".
Definition Delete : string := "rolloutDelete".

Inductive Kind : Type := KindDeployment | KindStatefulSet | KindDaemonSet | KindCR.

Definition kindString (k : Kind) : string :=
  match k with
  | KindDeployment => "Deployment"
  | KindStatefulSet => "StatefulSet"
  | KindDaemonSet => "DaemonSet"
  | KindCR => "CustomResource"
  end.

(** The snapshot a work item carries.  The Go struct has a [Kind] and four
    pointers [Dep], [Sts], [Ds], [CR]; SelectLinkerdDataPlane, the only
    producer, sets exactly the pointer of the kind, so the kind is the tag. *)
Inductive Workload : Type :=
| WDep (d : Deployment)
| WSts (s : StatefulSet)
| WDs (d : DaemonSet)
| WCR (u : Unstructured).

Record WorkItemDryRun : Type := mkDryRun {
  dryKind : Kind;
  dryNamespace : string;
  dryName : string;
  Strategy : string
}.

Record WorkItem : Type := mkWorkItem {
  wDryRun : WorkItemDryRun;
  wObj : Workload;
  BumpAnnotationKey : string;
  BumpAnnotationValue : string
}.

Definition wKind (w : WorkItem) : Kind :=
  match wObj w with
  | WDep _ => KindDeployment
  | WSts _ => KindStatefulSet
  | WDs _ => KindDaemonSet
  | WCR _ => KindCR
  end.

Definition wStrategy (w : WorkItem) : string := Strategy (wDryRun w).

Definition getNamespace (w : WorkItem) : string :=
  match wObj w with
  | WDep d => Namespace (depMeta d)
  | WSts s => Namespace (stsMeta s)
  | WDs d => Namespace (dsMeta d)
  | WCR u => crGetNamespace u
  end.

Definition getName (w : WorkItem) : string :=
  match wObj w with
  | WDep d => Name (depMeta d)
  | WSts s => Name (stsMeta s)
  | WDs d => Name (dsMeta d)
  | WCR u => crGetName u
  end.

Definition workRefOf (w : WorkItem) : WorkRef :=
  mkWorkRef (kindString (wKind w)) (getNamespace w) (getName w).

(** A running hash ([hash.Hash]): the bytes written so far.  [Fprintf]
    appends the formatted text, [hashSum] is [h.Sum(nil)]. *)
Definition Hasher : Type := string.
Definition sha1New : Hasher := EmptyString.
Definition Fprintf (h : Hasher) (text : string) : Hasher := h +++ text.
Definition hashSum (h : Hasher) : list Z := SHA1.digest (bytes_of_string h).

(** s[:n] on a string of at least n bytes. *)
Definition strPrefix (n : nat) (s : string) : string := substring 0 n s.

(** One iteration of the loop of planHash. *)
Definition planHashItem (h : Hasher) (w : WorkItem) : Hasher :=
  let h := Fprintf h (kindString (wKind w) +++ "|") in
  let h :=
    match wObj w with
    | WDep d => Fprintf h (Namespace (depMeta d) +++ "/" +++ Name (depMeta d))
    | WSts s =>
        Fprintf h (Namespace (stsMeta s) +++ "/" +++ Name (stsMeta s)
                   +++ "|" +++ wStrategy w)
    | WDs d => Fprintf h (Namespace (dsMeta d) +++ "/" +++ Name (dsMeta d))
    | WCR u =>
        let h := Fprintf h (crGetNamespace u +++ "/" +++ crGetName u
                            +++ "|" +++ wStrategy w) in
        if negb (strEmpty (BumpAnnotationKey w)) then
          Fprintf h ("|" +++ BumpAnnotationKey w +++ "=" +++ BumpAnnotationValue w)
        else h
    end in
  Fprintf h (String (ascii_of_nat 10) EmptyString).

(** The bytes planHash feeds to SHA-1. *)
Definition planText (queue : list WorkItem) : string :=
  fold_left planHashItem queue sha1New.

(** planHash returns a stable hash of the rollout queue. *)
Definition planHash (queue : list WorkItem) : string :=
  strPrefix 12 (hexEncode (hashSum (planText queue))).

(* ================================================================== *)
(** ** The world: clock, trace of API mutations, API oracle           *)
(* ================================================================== *)

Inductive Event : Type :=
| EvStatusPatch (processName : string) (base patched : Status)
| EvRecorder (eventType reason message : string)
| EvDeleteSecret (ns name : string) (grace : option Z) (propagation : string)
| EvDeletePod (ns name : string) (grace : option Z) (propagation : string)
| EvPatchAnnotation (kind ns name key value : string)
| EvOther (what : string).

Record World : Type := mkWorld {
  now : Time;
  trace : list Event
}.

Definition emit (ev : Event) (w : World) : World :=
  mkWorld (now w) (trace w ++ [ev]).

Definition elapse (d : Duration) (w : World) : World :=
  mkWorld (now w + d) (trace w).

(** What the cluster answers.  Every answer may depend on the clock and on
    what was done before (the trace). *)
Record Cluster : Type := mkCluster {
  apiStatusPatch : World -> Status -> option error;
  apiListDeployments : World -> string -> Res (list Deployment);
  apiListStatefulSets : World -> string -> Res (list StatefulSet);
  apiListDaemonSets : World -> string -> Res (list DaemonSet);
  apiListCustom : World -> string -> string -> string -> string -> Res (list Unstructured);
  apiListControlPlane : World -> string -> Res (list Deployment);
  apiGetConfigMap : World -> string -> string -> Res ConfigMap;
  apiListPods : World -> string -> StrMap -> Res (list Pod);
  apiDeletePod : World -> string -> string -> option error;
  apiGetPod : World -> string -> string -> Res Pod;
  apiDeleteSecret : World -> string -> string -> option error;
  apiPatchAnnotation : World -> string -> string -> string -> option error;
  (** whether the context is found cancelled at this point *)
  ctxDone : World -> bool
}.

(** State and error monad of the managers. *)
Definition M (S A : Type) : Type := S -> Res A * S.

Definition ret {S A : Type} (a : A) : M S A := fun s => (Ok a, s).

Definition fail {S A : Type} (e : error) : M S A := fun s => (Err e, s).

Definition bind {S A B : Type} (c : M S A) (k : A -> M S B) : M S B :=
  fun s =>
    match c s with
    | (Ok a, s') => k a s'
    | (Err e, s') => (Err e, s')
    end.

(** [if err := c; err != nil { return h(err) }] *)
Definition onErr {S A : Type} (c : M S A) (h : error -> M S A) : M S A :=
  fun s =>
    match c s with
    | (Ok a, s') => (Ok a, s')
    | (Err e, s') => h e s'
    end.

Definition liftRes {S A : Type} (r : Res A) : M S A := fun s => (r, s).

Definition liftErr {S : Type} (r : option error) : M S unit :=
  fun s => match r with None => (Ok tt, s) | Some e => (Err e, s) end.

Declare Scope go_scope.
Delimit Scope go_scope with go.
Notation "x <- c ;; k" := (bind c (fun x => k))
  (at level 61, c at next level, right associativity) : go_scope.
Notation "c ;;; k" := (bind c (fun _ => k))
  (at level 61, right associativity) : go_scope.
#[local] Open Scope go_scope.

(** The state of a reconcile: the status of the in-memory object and the
    world. *)
Record RState : Type := mkRState {
  status : Status;
  world : World
}.

Definition inWorld {A : Type} (c : M World A) : M RState A :=
  fun s =>
    let '(r, w') := c (world s) in
    (r, mkRState (status s) w').

(* ================================================================== *)
(** ** Status recorder (internal/status)                              *)
(* ================================================================== *)

Definition optEqb {A : Type} (eqb : A -> A -> bool) (x y : option A) : bool :=
  match x, y with
  | None, None => true
  | Some a, Some b => eqb a b
  | _, _ => false
  end.

Definition progressEqb (x y : ProgressStatus) : bool :=
  Bool.eqb (ControlPlaneReady x) (ControlPlaneReady y)
  && (DataPlanePercent x =? DataPlanePercent y).

Definition trustEqb (x y : TrustStatus) : bool :=
  optEqb String.eqb (trustBundleState x) (trustBundleState y)
  && String.eqb (CurrentFP x) (CurrentFP y)
  && String.eqb (PreviousFP x) (PreviousFP y).

Definition workRefEqb (x y : WorkRef) : bool :=
  String.eqb (refKind x) (refKind y)
  && String.eqb (refNamespace x) (refNamespace y)
  && String.eqb (refName x) (refName y).

Definition cursorEqb (x y : RolloutCursor) : bool :=
  String.eqb (PlanHash x) (PlanHash y)
  && (Next x =? Next y)
  && (Total x =? Total y)
  && optEqb workRefEqb (LastDone x) (LastDone y).

Definition retryEqb (x y : RetryStatus) : bool :=
  (Count x =? Count y)
  && String.eqb (LastError x) (LastError y)
  && optEqb workRefEqb (LastFailed x) (LastFailed y)
  && optEqb Z.eqb (LastErrorTime x) (LastErrorTime y).

(** cmp.Equal(before, after, statusCmpOptions()...): structural equality,
    pointers compared through their targets, the field LastUpdated ignored.
    (EquateEmpty concerns slices and maps, of which the status has none.) *)
Definition statusEqual (x y : Status) : bool :=
  optEqb String.eqb (stPhase x) (stPhase y)
  && optEqb String.eqb (stReason x) (stReason y)
  && optEqb String.eqb (stMessage x) (stMessage y)
  && optEqb Z.eqb (StartedAt x) (StartedAt y)
  && optEqb Z.eqb (CompletionTime x) (CompletionTime y)
  && optEqb progressEqb (Progress x) (Progress y)
  && optEqb trustEqb (Trust x) (Trust y)
  && optEqb retryEqb (Retries x) (Retries y)
  && optEqb cursorEqb (Cursor x) (Cursor y)
  && String.eqb (DryRunOutput x) (DryRunOutput y).

Definition setLastUpdated (t : option Time) (st : Status) : Status :=
  mkStatus (stPhase st) (stReason st) (stMessage st) (StartedAt st) t
           (CompletionTime st) (Progress st) (Trust st) (Retries st)
           (Cursor st) (DryRunOutput st).

(** Patch mutates the status with the provided function and patches it
    using MergeFrom. *)
Definition Patch (cl : Cluster) (processName : string)
    (mutate : Status -> Status) : M RState unit :=
  fun s =>
    let before := status s in
    let after := mutate before in
    if statusEqual before after then (Ok tt, s)
    else
      let after := setLastUpdated (Some (now (world s))) after in
      let w := emit (EvStatusPatch processName before after) (world s) in
      match apiStatusPatch cl (world s) after with
      | None => (Ok tt, mkRState after w)
      | Some e => (Err e, mkRState after w)
      end.

Definition mutPhase (phase : option Phase) (reason : option Reason)
    (message : option string) (st : Status) : Status :=
  mkStatus phase reason message (StartedAt st) (LastUpdated st)
           (CompletionTime st) (Progress st) (Trust st) (Retries st)
           (Cursor st) (DryRunOutput st).

Definition SetPhase (cl : Cluster) (phase : Phase) (reason : Reason)
    (message : string) : M RState unit :=
  Patch cl "SetPhase" (mutPhase (Some phase) (Some reason) (Some message)).

(** calcPercent.  The Go code rounds float64(current)*100/float64(total) to
    the nearest integer, halves away from zero; on the integers this is
    (200*current + total) / (2*total). *)
Definition calcPercent (current total : Z) : Z :=
  if total <=? 0 then 0
  else
    let current := if current <? 0 then 0 else current in
    let current := if current >? total then total else current in
    let p := (200 * current + total) / (2 * total) in
    if p <? 0 then 0 else if p >? 100 then 100 else p.

Definition mutProgress (p : option ProgressStatus) (st : Status) : Status :=
  mkStatus (stPhase st) (stReason st) (stMessage st) (StartedAt st)
           (LastUpdated st) (CompletionTime st) p (Trust st) (Retries st)
           (Cursor st) (DryRunOutput st).

Definition SetProgress (cl : Cluster) (cpReady : bool)
    (current total : option Z) : M RState unit :=
  let percent :=
    match current, total with
    | Some c, Some t => calcPercent c t
    | _, _ => 0
    end in
  Patch cl "SetProgress" (mutProgress (Some (mkProgress cpReady percent))).

Definition mutTrust (t : option TrustStatus) (st : Status) : Status :=
  mkStatus (stPhase st) (stReason st) (stMessage st) (StartedAt st)
           (LastUpdated st) (CompletionTime st) (Progress st) t (Retries st)
           (Cursor st) (DryRunOutput st).

Definition SetTrustInfo (cl : Cluster) (bundleState : BundleState)
    (currentFP previousFP : string) : M RState unit :=
  Patch cl "SetTrustInfo"
        (mutTrust (Some (mkTrust (Some bundleState) currentFP previousFP))).

Definition mutCursor (c : option RolloutCursor) (st : Status) : Status :=
  mkStatus (stPhase st) (stReason st) (stMessage st) (StartedAt st)
           (LastUpdated st) (CompletionTime st) (Progress st) (Trust st)
           (Retries st) c (DryRunOutput st).

Definition SetPlanHash (cl : Cluster) (workRef : option WorkRef)
    (next total : Z) (hash : string) : M RState unit :=
  Patch cl "SetPlanHash" (mutCursor (Some (mkCursor hash next total workRef))).

Definition mutRetries (r : option RetryStatus) (st : Status) : Status :=
  mkStatus (stPhase st) (stReason st) (stMessage st) (StartedAt st)
           (LastUpdated st) (CompletionTime st) (Progress st) (Trust st)
           r (Cursor st) (DryRunOutput st).

Definition SetRetry (cl : Cluster) (workRef : option WorkRef) (count : Z)
    (lastErr : string) : M RState unit :=
  fun s =>
    let t :=
      if (count >? 0) && negb (strEmpty lastErr) then now (world s)
      else zeroTime in
    Patch cl "SetRetry"
          (mutRetries (Some (mkRetry count lastErr workRef (Some t)))) s.

Definition mutDryRun (out : string) (st : Status) : Status :=
  mkStatus (Some PhaseDryRun) (Some ReasonDryRun)
           (Some "The data-plane dry run has completed successfully")
           (StartedAt st) (LastUpdated st) (CompletionTime st) None
           (Trust st) (Retries st) (Cursor st) out.

Definition SetDryRunOutput (cl : Cluster) (out : string) : M RState unit :=
  Patch cl "SetDryRunOutput" (mutDryRun out).

Definition mutTerminal (phase : Phase) (reason : Reason) (message : string)
    (t : Time) (st : Status) : Status :=
  mkStatus (Some phase) (Some reason) (Some message) (StartedAt st)
           (LastUpdated st) (Some t) (Progress st) (Trust st) (Retries st)
           (Cursor st) (DryRunOutput st).

Definition MarkSucceeded (cl : Cluster) (message : string) : M RState unit :=
  fun s =>
    Patch cl "MarkSucceeded"
          (mutTerminal "Succeeded" "Completed" message (now (world s))) s.

Definition MarkFailed (cl : Cluster) (reason : Reason) (message : string)
    : M RState unit :=
  fun s =>
    Patch cl "MarkFailed"
          (mutTerminal "Failed" reason message (now (world s))) s.

(* ================================================================== *)
(** ** Plan builder (rollout: SelectLinkerdDataPlane)                 *)
(* ================================================================== *)

(** sort.SliceStable: the stable sort; insertion keeps equal elements in
    their order of arrival. *)
Fixpoint insertStable {A : Type} (less : A -> A -> bool) (x : A) (l : list A)
    : list A :=
  match l with
  | [] => [x]
  | y :: r => if less y x then y :: insertStable less x r else x :: y :: r
  end.

Definition sortSliceStable {A : Type} (less : A -> A -> bool) (l : list A)
    : list A :=
  fold_right (insertStable less) [] l.

Definition hasAnnotationOnTemplate (annotations : StrMap) (key val : string)
    : bool :=
  match mapGet key annotations with
  | Some v => String.eqb v val
  | None => false
  end.

Fixpoint stringValues (raw : list (string * JSON)) : StrMap :=
  match raw with
  | [] => []
  | (k, JString s) :: r => (k, s) :: stringValues r
  | _ :: r => stringValues r
  end.

(** getAnnoFromMap: the annotations found at a path of a generic map. *)
Fixpoint getAnnoFromMap (m : list (string * JSON)) (path : list string)
    : option StrMap :=
  match path with
  | [] => None
  | [last] =>
      match mapGet last m with
      | Some (JObject raw) => Some (stringValues raw)
      | _ => None
      end
  | p :: rest =>
      match mapGet p m with
      | Some (JObject next) => getAnnoFromMap next rest
      | _ => None
      end
  end.

Definition getAnno (u : Unstructured) (path : list string) : option StrMap :=
  getAnnoFromMap (Object u) path.

Definition annoHas (ann : option StrMap) (key val : string) : bool :=
  match ann with
  | Some a =>
      match mapGet key a with
      | Some v => strEmpty val || String.eqb v val
      | None => false
      end
  | None => false
  end.

Definition podEntryHas (key val : string) (it : JSON) : bool :=
  let pm := match it with JObject m => m | _ => [] end in
  annoHas (getAnnoFromMap pm ["metadata"; "annotations"]) key val.

(** crHasTemplateAnnotation checks common pod-template locations in CRDs
    for key=value. *)
Definition crHasTemplateAnnotation (u : Unstructured) (key val : string) : bool :=
  if annoHas (getAnno u ["spec"; "template"; "metadata"; "annotations"]) key val
  then true
  else if annoHas (getAnno u ["spec"; "jobTemplate"; "spec"; "template";
                              "metadata"; "annotations"]) key val
  then true
  else if annoHas (getAnno u ["spec"; "podTemplate"; "metadata"; "annotations"])
                  key val
  then true
  else
    match nestedField (Object u) ["spec"; "pods"] with
    | Some (JArray arr) => existsb (podEntryHas key val) arr
    | _ => false
    end.

Record SelectResult : Type := mkSelectResult {
  Queue : list WorkItem;
  statDeployments : Z;
  statStatefulSets : Z;
  statDaemonSets : Z;
  statCustomResources : Z
}.

Definition emptyResult : SelectResult := mkSelectResult [] 0 0 0 0.

Definition addDaemonSet (key val strategy : string) (res : SelectResult)
    (ds : DaemonSet) : SelectResult :=
  if hasAnnotationOnTemplate (dsTemplateAnnotations ds) key val then
    mkSelectResult
      (Queue res ++
       [mkWorkItem (mkDryRun KindDaemonSet (Namespace (dsMeta ds))
                             (Name (dsMeta ds)) strategy)
                   (WDs ds) EmptyString EmptyString])
      (statDeployments res) (statStatefulSets res)
      (add64 (statDaemonSets res) 1) (statCustomResources res)
  else res.

Definition addDeployment (key val strategy : string) (res : SelectResult)
    (dep : Deployment) : SelectResult :=
  if hasAnnotationOnTemplate (depTemplateAnnotations dep) key val then
    mkSelectResult
      (Queue res ++
       [mkWorkItem (mkDryRun KindDeployment (Namespace (depMeta dep))
                             (Name (depMeta dep)) strategy)
                   (WDep dep) EmptyString EmptyString])
      (add64 (statDeployments res) 1) (statStatefulSets res)
      (statDaemonSets res) (statCustomResources res)
  else res.

Definition addStatefulSet (key val strategy : string) (res : SelectResult)
    (sts : StatefulSet) : SelectResult :=
  if hasAnnotationOnTemplate (stsTemplateAnnotations sts) key val then
    mkSelectResult
      (Queue res ++
       [mkWorkItem (mkDryRun KindStatefulSet (Namespace (stsMeta sts))
                             (Name (stsMeta sts)) strategy)
                   (WSts sts) EmptyString EmptyString])
      (statDeployments res) (add64 (statStatefulSets res) 1)
      (statDaemonSets res) (statCustomResources res)
  else res.

Definition addCustom (key val strategy : string)
    (bump : option AnnotationBumpOptions) (res : SelectResult)
    (cr : Unstructured) : SelectResult :=
  if crHasTemplateAnnotation cr key val then
    let '(bk, bv) :=
      match bump with
      | Some b => (bumpKey b, bumpValue b)
      | None => (EmptyString, EmptyString)
      end in
    mkSelectResult
      (Queue res ++
       [mkWorkItem (mkDryRun KindCR (crGetNamespace cr) (crGetName cr) strategy)
                   (WCR cr) bk bv])
      (statDeployments res) (statStatefulSets res)
      (statDaemonSets res) (add64 (statCustomResources res) 1)
  else res.

(** The loop over the allowed namespaces of one scope: list, then add the
    matching items in the order [prepare] leaves them in. *)
Fixpoint selectIn {A : Type} (listNs : string -> Res (list A))
    (what : string -> string) (prepare : list A -> list A)
    (add : SelectResult -> A -> SelectResult)
    (namespaces : list string) (res : SelectResult) : Res SelectResult :=
  match namespaces with
  | [] => Ok res
  | ns :: rest =>
      match listNs ns with
      | Err e => Err (Wrapf (what ns) e)
      | Ok items =>
          selectIn listNs what prepare add rest (fold_left add (prepare items) res)
      end
  end.

Definition gvkString (group version kind : string) : string :=
  group +++ "/" +++ version +++ ", Kind=" +++ kind.

Definition selectScope (cl : Cluster) (w : World) (key val : string)
    (scope : TargetScope) (res : SelectResult) : Res SelectResult :=
  let namespaces := AllowedNamespaces scope in
  match namespaces with
  | [] =>
      Err (Errorf ("targets[" +++ KindType scope
                   +++ "]: allowedNamespaces is required"))
  | _ :: _ =>
      let rolloutStrategy :=
        if strEmpty (RolloutStrategy scope) then Restart
        else RolloutStrategy scope in
      if String.eqb (KindType scope) (kindString KindDaemonSet) then
        selectIn (apiListDaemonSets cl w)
                 (fun ns => "list daemonsets in " +++ quoted ns +++ ": ")
                 (fun l => l) (addDaemonSet key val rolloutStrategy)
                 namespaces res
      else if String.eqb (KindType scope) (kindString KindDeployment) then
        selectIn (apiListDeployments cl w)
                 (fun ns => "list deployments in " +++ quoted ns +++ ": ")
                 (fun l => l) (addDeployment key val rolloutStrategy)
                 namespaces res
      else if String.eqb (KindType scope) (kindString KindCR) then
        if strEmpty (APIGroup scope) || strEmpty (ScopeKind scope)
           || strEmpty (Version scope)
        then
          Err (Errorf ("targets[" +++ KindType scope
                       +++ "]: apiGroup, kind and version are required"))
        else
          selectIn (apiListCustom cl w (APIGroup scope) (Version scope)
                                  (ScopeKind scope))
                   (fun ns => "list "
                      +++ gvkString (APIGroup scope) (Version scope) (ScopeKind scope)
                      +++ " in " +++ quoted ns +++ ": ")
                   (fun l => l)
                   (addCustom key val rolloutStrategy (AnnotationBump scope))
                   namespaces res
      else if String.eqb (KindType scope) (kindString KindStatefulSet) then
        selectIn (apiListStatefulSets cl w)
                 (fun ns => "list statefulsets in " +++ quoted ns +++ ": ")
                 (sortSliceStable
                    (fun a b => String.ltb (Name (stsMeta a)) (Name (stsMeta b))))
                 (addStatefulSet key val rolloutStrategy)
                 namespaces res
      else
        Err (Errorf ("unsupported kind in targets: " +++ KindType scope))
  end.

Fixpoint selectScopes (cl : Cluster) (w : World) (key val : string)
    (targets : list TargetScope) (res : SelectResult) : Res SelectResult :=
  match targets with
  | [] => Ok res
  | scope :: rest =>
      match selectScope cl w key val scope res with
      | Err e => Err e
      | Ok res' => selectScopes cl w key val rest res'
      end
  end.

Definition SelectLinkerdDataPlane (cl : Cluster) (obj : LinkerdTrustRotationSpec)
    (w : World) : Res SelectResult :=
  selectScopes cl w (selKey (Rollout obj)) (selValue (Rollout obj))
               (Targets (Rollout obj)) emptyResult.

(* ================================================================== *)
(** ** Library functions the program calls                            *)
(* ================================================================== *)

Record PemBlock : Type := mkPemBlock { blkType : string; blkBytes : string }.

Record Certificate : Type := mkCertificate { Raw : string }.

(** The functions of the Go libraries that are used as black boxes. *)
Record GoLib : Type := mkGoLib {
  (** sort.Slice: some sorted permutation, not necessarily the stable one *)
  sortSlice : forall A : Type, (A -> A -> bool) -> list A -> list A;
  (** pem.Decode: the next block and the rest, or nothing *)
  pemDecode : string -> option (PemBlock * string);
  (** x509.ParseCertificate: the error, if the DER bytes are no certificate *)
  x509ParseCertificate : string -> option error;
  (** yaml.Marshal of the dry-run plan *)
  yamlMarshal : list WorkItemDryRun -> Res string;
  (** time.Time.Format(time.RFC3339) *)
  formatRFC3339 : Time -> string;
  (** metav1.LabelSelectorAsSelector *)
  labelSelectorAsSelector : StrMap -> Res StrMap;
  (** labels.NewRequirement(key, selection.In, [value]) *)
  labelsNewRequirement : string -> string -> option error
}.

(** What the program relies on: sort.Slice returns a permutation in which
    no later element is less than an earlier one, and pem.Decode consumes
    input when it finds a block. *)
Record GoLibOk (lib : GoLib) : Prop := mkGoLibOk {
  sortSlice_perm :
    forall (A : Type) (less : A -> A -> bool) (l : list A),
      Permutation l (sortSlice lib A less l);
  sortSlice_sorted :
    forall (A : Type) (less : A -> A -> bool) (l : list A),
      (forall a b, less a b = true -> less b a = false) ->
      (forall a b c, less a b = false -> less b c = false -> less a c = false) ->
      StronglySorted (fun a b => less b a = false) (sortSlice lib A less l);
  pemDecode_shrinks :
    forall (s rest : string) (blk : PemBlock),
      pemDecode lib s = Some (blk, rest) ->
      (String.length rest < String.length s)%nat
}.

Definition showZ (n : Z) : string :=
  DecimalString.NilZero.string_of_int (Z.to_int n).

(* ================================================================== *)
(** ** Bundle inspector (internal/config_map)                         *)
(* ================================================================== *)

Definition configMapDataKey : string := "ca-bundle.crt".

Record BundleResult : Type := mkBundleResult {
  Certs : list Certificate;
  Fps : list string;
  State : BundleState
}.

(** The loop of parsePEMCerts; [fuel] bounds the number of pem.Decode
    calls, the length of the input is always enough. *)
Fixpoint parsePEMCertsLoop (lib : GoLib) (fuel : nat) (out : list Certificate)
    (rest : string) : Res (list Certificate) :=
  match fuel with
  | O => Ok out
  | S fuel' =>
      match pemDecode lib rest with
      | None => Ok out
      | Some (blk, rest') =>
          if negb (String.eqb (blkType blk) "CERTIFICATE") then
            parsePEMCertsLoop lib fuel' out rest'
          else
            match x509ParseCertificate lib (blkBytes blk) with
            | Some e => Err (Wrapf "parse x509 cert: " e)
            | None =>
                parsePEMCertsLoop lib fuel'
                                  (out ++ [mkCertificate (blkBytes blk)]) rest'
            end
      end
  end.

(** parsePEMCerts extracts all x509 CERTIFICATE blocks from a PEM bundle. *)
Definition parsePEMCerts (lib : GoLib) (pemBytes : string)
    : Res (list Certificate) :=
  parsePEMCertsLoop lib (S (String.length pemBytes)) [] pemBytes.

Definition isSpaceByte (c : ascii) : bool :=
  let n := nat_of_ascii c in
  ((9 <=? n) && (n <=? 13))%nat || (n =? 32)%nat.

(** strings.TrimSpace(raw) == "" on ASCII text. *)
Fixpoint allSpace (s : string) : bool :=
  match s with
  | EmptyString => true
  | String c r => isSpaceByte c && allSpace r
  end.

Definition lowerByte (c : ascii) : ascii :=
  let n := nat_of_ascii c in
  if ((65 <=? n) && (n <=? 90))%nat then ascii_of_nat (n + 32) else c.

(** strings.ToLower on ASCII text. *)
Fixpoint toLower (s : string) : string :=
  match s with
  | EmptyString => EmptyString
  | String c r => String (lowerByte c) (toLower r)
  end.

(** sort.Strings: on a total order the sorted permutation is unique. *)
Definition sortStrings (l : list string) : list string :=
  sortSliceStable String.ltb l.

Definition fingerprint (c : Certificate) : string :=
  toLower (hexEncode (SHA256.digest (bytes_of_string (Raw c)))).

(** LoadAndInspectCMBundle fetches the ConfigMap and inspects the
    ca-bundle.crt. *)
Definition LoadAndInspectCMBundle (lib : GoLib) (cl : Cluster)
    (spec : LinkerdTrustRotationSpec) (w : World) : Res BundleResult :=
  let ns := linkerdNamespace (Linkerd spec) in
  let name := TrustRootsConfigMap (Linkerd spec) in
  let cmName := ns +++ "/" +++ name in
  match apiGetConfigMap cl w ns name with
  | Err e =>
      if isNotFound e then Err (Errorf ("configmap " +++ cmName +++ " not found"))
      else Err (Wrapf ("get configmap " +++ cmName +++ ": ") e)
  | Ok cm =>
      match mapGet configMapDataKey (cmData cm) with
      | None =>
          Err (Errorf ("configmap " +++ cmName +++ " has no key "
                       +++ quoted configMapDataKey))
      | Some raw =>
          if allSpace raw then
            Err (Errorf ("configmap " +++ cmName +++ " key "
                         +++ quoted configMapDataKey +++ " is empty"))
          else
            match parsePEMCerts lib raw with
            | Err e => Err (Wrapf "parse bundle: " e)
            | Ok certs =>
                let fps := sortStrings (map fingerprint certs) in
                match certs with
                | [] =>
                    Err (Errorf ("no CERTIFICATE blocks found in "
                                 +++ ns +++ "/" +++ name))
                | [_] => Ok (mkBundleResult certs fps BundleStateSingle)
                | _ => Ok (mkBundleResult certs fps BundleStateOverlap)
                end
            end
      end
  end.

(* ================================================================== *)
(** ** Rollout engine (internal/rollout)                              *)
(* ================================================================== *)

Definition restartedAtKey : string := "kubectl.kubernetes.io/restartedAt".
Definition rolloutPollInterval : Duration := 2 * Second.
Definition rolloutPerLimit : Duration := 5 * Minute.

Record SecretResult : Type := mkSecretResult {
  CreatedPrevious : bool;
  secCurrentFP : string;
  secPreviousFP : string;
  Diverged : bool
}.

(** The operations of the managers whose inner working no property below
    depends on: the waiters, the proxy-check job and the secret
    synchronizer.  Each acts on the world and returns its error. *)
Record Handlers : Type := mkHandlers {
  waitDeploymentRolledOut : string -> string -> Duration -> M World unit;
  waitStatefulSetRolledOut : string -> string -> Duration -> M World unit;
  waitDaemonSetRolledOut : string -> string -> Duration -> M World unit;
  waitCRByAnnotationAndStatus :
    string -> string -> Unstructured -> string -> bool -> Duration -> M World unit;
  runLinkerdCheckJob :
    string -> string -> string -> string -> Duration -> M World unit;
  EnsureTrustSecrets : LinkerdTrustRotationSpec -> M World SecretResult
}.

Definition workloadMeta (obj : Workload) : string * string * string :=
  match obj with
  | WDep d => ("Deployment", Namespace (depMeta d), Name (depMeta d))
  | WSts s => ("StatefulSet", Namespace (stsMeta s), Name (stsMeta s))
  | WDs d => ("DaemonSet", Namespace (dsMeta d), Name (dsMeta d))
  | WCR u => (crGetKind u, crGetNamespace u, crGetName u)
  end.

(** bumpAnnotationGeneric: a merge patch that sets one annotation, on the
    pod template of a typed workload, on the metadata of a custom resource. *)
Definition bumpAnnotationGeneric (cl : Cluster) (obj : Workload)
    (key value : string) : M World unit :=
  fun w =>
    let '(kind, ns, name) := workloadMeta obj in
    let w' := emit (EvPatchAnnotation kind ns name key value) w in
    match apiPatchAnnotation cl w kind ns name with
    | None => (Ok tt, w')
    | Some e => (Err e, w')
    end.

Definition bumpRestartAnnotation (lib : GoLib) (cl : Cluster) (obj : Workload)
    : M World unit :=
  fun w => bumpAnnotationGeneric cl obj restartedAtKey (formatRFC3339 lib (now w)) w.

(** The text after the last '-' of a name, if there is a '-'. *)
Fixpoint afterLastDash (name : string) : option string :=
  match name with
  | EmptyString => None
  | String c r =>
      match afterLastDash r with
      | Some t => Some t
      | None => if Ascii.eqb c "-"%char then Some r else None
      end
  end.

Definition isDigit (c : ascii) : bool :=
  let n := nat_of_ascii c in ((48 <=? n) && (n <=? 57))%nat.

Fixpoint scanDigits (acc : Z) (s : string) : Z :=
  match s with
  | String c r =>
      if isDigit c then scanDigits (10 * acc + (Z.of_nat (nat_of_ascii c) - 48)) r
      else acc
  | EmptyString => acc
  end.

Fixpoint skipBlanks (s : string) : string :=
  match s with
  | String c r =>
      if isSpaceByte c && negb (Ascii.eqb c (ascii_of_nat 10)) then skipBlanks r
      else s
  | EmptyString => s
  end.

(** fmt.Sscanf(s, "%d", &n): blanks, an optional sign, decimal digits; no
    value is stored when there is no digit or the number does not fit. *)
Definition sscanfInt (s : string) : option Z :=
  let s := skipBlanks s in
  let '(sign, s) :=
    match s with
    | String c r =>
        if Ascii.eqb c "+"%char then (1, r)
        else if Ascii.eqb c "-"%char then (-1, r)
        else (1, s)
    | EmptyString => (1, s)
    end in
  match s with
  | String c _ =>
      if isDigit c then
        let v := sign * scanDigits 0 s in
        if (- 2 ^ 63 <=? v) && (v <=? MaxInt64) then Some v else None
      else None
  | EmptyString => None
  end.

(** podOrdinal expects NAME-<ordinal>. *)
Definition podOrdinal (name : string) : Z :=
  match afterLastDash name with
  | Some suffix =>
      match sscanfInt suffix with
      | Some n => n
      | None => -1
      end
  | None => -1
  end.

Definition podReady (p : Pod) : bool :=
  existsb (fun c => String.eqb (condType c) PodReady
                    && String.eqb (condStatus c) ConditionTrue)
          (podConditions p).

(** Ready when Running + PodReady=True and not terminating. *)
Definition podBack (cur : Pod) : bool :=
  match DeletionTimestamp (podMeta cur) with
  | None => String.eqb (podPhase cur) PodRunning && podReady cur
  | Some _ => false
  end.

(** The polling loop of deletePodAndWaitSameNameReady: while the deadline
    is ahead, wait for the tick (or the cancellation), fetch the pod. *)
Fixpoint pollPodReady (cl : Cluster) (ns name : string) (deadline : Time)
    (fuel : nat) : M World unit :=
  fun w =>
    match fuel with
    | O =>
        (Err (Errorf ("timeout waiting pod " +++ ns +++ "/" +++ name
                      +++ " to be Ready after delete")), w)
    | S fuel' =>
        if now w <? deadline then
          if ctxDone cl w then (Err ctxCanceled, w)
          else
            let w := elapse (2 * Second) w in
            match apiGetPod cl w ns name with
            | Err e =>
                if isNotFound e then pollPodReady cl ns name deadline fuel' w
                else (Err e, w)
            | Ok cur =>
                if podBack cur then (Ok tt, w)
                else pollPodReady cl ns name deadline fuel' w
            end
        else
          (Err (Errorf ("timeout waiting pod " +++ ns +++ "/" +++ name
                        +++ " to be Ready after delete")), w)
    end.

(** Number of ticks that fit before the deadline, plus one. *)
Definition pollFuel (timeout : Duration) : nat :=
  S (Z.to_nat (timeout / (2 * Second) + 1)).

(** deletePodAndWaitSameNameReady deletes the given Pod and waits until a
    Pod with the same name appears Running and Ready again. *)
Definition deletePodAndWaitSameNameReady (cl : Cluster) (p : Pod)
    (timeout : Duration) : M World unit :=
  fun w =>
    let ns := Namespace (podMeta p) in
    let name := Name (podMeta p) in
    let w' := emit (EvDeletePod ns name None "Background") w in
    let failed :=
      match apiDeletePod cl w ns name with
      | Some e => if isNotFound e then None else Some e
      | None => None
      end in
    match failed with
    | Some e => (Err (Wrapf ("delete pod " +++ ns +++ "/" +++ name +++ ": ") e), w')
    | None => pollPodReady cl ns name (now w' + timeout) (pollFuel timeout) w'
    end.

Fixpoint deletePodsInOrder (cl : Cluster) (stsName : string) (pods : list Pod)
    (perPodTimeout : Duration) : M World unit :=
  match pods with
  | [] => ret tt
  | p :: rest =>
      onErr (deletePodAndWaitSameNameReady cl p perPodTimeout)
            (fun e => fail (Wrapf ("rolloutDelete " +++ Namespace (podMeta p) +++ "/"
                                   +++ stsName +++ " pod " +++ Name (podMeta p)
                                   +++ ": ") e)) ;;;
      deletePodsInOrder cl stsName rest perPodTimeout
  end.

Definition ordinalGreater (a b : Pod) : bool :=
  podOrdinal (Name (podMeta a)) >? podOrdinal (Name (podMeta b)).

(** restartStatefulSetByDelete performs a manual rolling restart by
    deleting pods one-by-one.  Order: highest ordinal -> lowest. *)
Definition restartStatefulSetByDelete (lib : GoLib) (cl : Cluster)
    (sts : StatefulSet) (perPodTimeout : Duration) : M World unit :=
  fun w =>
    let ns := Namespace (stsMeta sts) in
    let name := Name (stsMeta sts) in
    match labelSelectorAsSelector lib (stsSelector sts) with
    | Err e =>
        (Err (Wrapf ("build selector for StatefulSet " +++ ns +++ "/" +++ name
                     +++ ": ") e), w)
    | Ok selector =>
        match apiListPods cl w ns selector with
        | Err e =>
            (Err (Wrapf ("list pods for StatefulSet " +++ ns +++ "/" +++ name
                         +++ ": ") e), w)
        | Ok [] => (Ok tt, w)
        | Ok pods =>
            deletePodsInOrder cl name (sortSlice lib Pod ordinalGreater pods)
                              perPodTimeout w
        end
    end.

(** runProxyCheckIfEnabled runs `linkerd check --proxy` for the given
    workload only if the check is enabled. *)
Definition runProxyCheckIfEnabled (h : Handlers) (spec : LinkerdTrustRotationSpec)
    (targetNS targetName : string) (timeout : Duration) : M World unit :=
  if negb (RunLinkerdCheckProxy (Protection spec)) then ret tt
  else
    runLinkerdCheckJob h (LinkerdCheckProxyImage (Protection spec)) targetNS
                       (linkerdNamespace (Linkerd spec)) targetName timeout.

(** The closure recordFailure of RestartLinkerdDataPlane. *)
Definition recordFailure {A : Type} (cl : Cluster) (item : WorkItem)
    (cause : error) : M RState A :=
  fun s =>
    let retries :=
      match Retries (status s) with
      | Some r => Count r
      | None => 0
      end in
    let last := workRefOf item in
    match SetRetry cl (Some last) (add64 retries 1) (errText cause) s with
    | (Err e, s') => (Err e, s')
    | (Ok _, s') => (Err cause, s')   (* do NOT advance cursor *)
    end.

(** The closure bumpProgress: one more finished object; returns the new
    value of [processed]. *)
Definition bumpProgress (cl : Cluster) (hash : string) (total processed : Z)
    (done : WorkItem) : M RState Z :=
  let processed := add64 processed 1 in
  SetPlanHash cl (Some (workRefOf done)) processed total hash ;;;
  SetProgress cl true (Some processed) (Some total) ;;;
  ret processed.

(** [if err := c; err != nil { return recordFailure(w, err) }] *)
Definition orRecord {A : Type} (cl : Cluster) (item : WorkItem) (c : M RState A)
    : M RState A :=
  onErr c (recordFailure cl item).

(** One iteration of the loop of RestartLinkerdDataPlane. *)
Definition rolloutItem (lib : GoLib) (cl : Cluster) (h : Handlers)
    (spec : LinkerdTrustRotationSpec) (hash : string) (total processed : Z)
    (w : WorkItem) : M RState Z :=
  let ns := getNamespace w in
  let name := getName w in
  let check :=
    orRecord cl w (inWorld (runProxyCheckIfEnabled h spec ns name rolloutPerLimit)) in
  let advance := orRecord cl w (bumpProgress cl hash total processed w) in
  match wObj w with
  | WDs _ =>
      orRecord cl w (inWorld (bumpRestartAnnotation lib cl (wObj w))) ;;;
      orRecord cl w (inWorld (waitDaemonSetRolledOut h ns name rolloutPerLimit)) ;;;
      check ;;; advance
  | WDep _ =>
      orRecord cl w (inWorld (bumpRestartAnnotation lib cl (wObj w))) ;;;
      orRecord cl w (inWorld (waitDeploymentRolledOut h ns name rolloutPerLimit)) ;;;
      check ;;; advance
  | WCR u =>
      (if strEmpty (BumpAnnotationKey w) || strEmpty (BumpAnnotationValue w) then
         recordFailure cl w
           (Errorf ("BumpAnnotationKey, BumpAnnotationValue is required for custom resources "
                    +++ crGetKind u))
       else ret tt) ;;;
      orRecord cl w (inWorld (bumpAnnotationGeneric cl (wObj w) (BumpAnnotationKey w)
                                                    (BumpAnnotationValue w))) ;;;
      orRecord cl w (inWorld (waitCRByAnnotationAndStatus h ns name u
                                (BumpAnnotationKey w) true rolloutPerLimit)) ;;;
      check ;;; advance
  | WSts sts =>
      (if String.eqb (wStrategy w) Restart then
         orRecord cl w (inWorld (bumpRestartAnnotation lib cl (wObj w))) ;;;
         orRecord cl w (inWorld (waitStatefulSetRolledOut h ns name rolloutPerLimit))
       else ret tt) ;;;
      (if String.eqb (wStrategy w) Delete then
         orRecord cl w (inWorld (restartStatefulSetByDelete lib cl sts rolloutPerLimit))
       else ret tt) ;;;
      check ;;; advance
  end.

(** [for i := start; i < len(q); i++], on the items from [start] on. *)
Fixpoint rolloutLoop (lib : GoLib) (cl : Cluster) (h : Handlers)
    (spec : LinkerdTrustRotationSpec) (hash : string) (total : Z)
    (q : list WorkItem) (processed : Z) : M RState unit :=
  match q with
  | [] => ret tt
  | w :: rest =>
      processed' <- rolloutItem lib cl h spec hash total processed w ;;
      rolloutLoop lib cl h spec hash total rest processed'
  end.

(** Where the rollout starts: resume at the cursor or initialise it. *)
Definition cursorStart (cl : Cluster) (hash : string) (total : Z) : M RState Z :=
  fun s =>
    let resume :=
      match Cursor (status s) with
      | Some cur =>
          if String.eqb (PlanHash cur) hash && (Next cur >? 0) && (Next cur <=? total)
          then Some (Next cur) else None
      | None => None
      end in
    match resume with
    | Some start => (Ok start, s)
    | None => (SetPlanHash cl None 0 total hash ;;; ret 0) s
    end.

(** RestartLinkerdDataPlane, from the point where [start] is known. *)
Definition rolloutFrom (lib : GoLib) (cl : Cluster) (h : Handlers)
    (spec : LinkerdTrustRotationSpec) (queue : list WorkItem) (hash : string)
    (total start : Z) : M RState unit :=
  SetProgress cl true (Some start) (Some total) ;;;
  rolloutLoop lib cl h spec hash total (skipn (Z.to_nat start) queue) start ;;;
  SetPhase cl PhaseRollingDP ReasonDPThresholdReached
           "Finished restarted Linkerd data plane" ;;;
  SetRetry cl None 0 EmptyString ;;;
  SetPlanHash cl None 0 total hash.

(** RestartLinkerdDataPlane restarts every workload of the plan and waits
    until each rollout is completed. *)
Definition RestartLinkerdDataPlane (lib : GoLib) (cl : Cluster) (h : Handlers)
    (spec : LinkerdTrustRotationSpec) : M RState unit :=
  result <- (fun s => (SelectLinkerdDataPlane cl spec (world s), s)) ;;
  SetPhase cl PhaseRollingDP ReasonDPBatchRestarting
           "Starting rollout restart Linkerd data plane" ;;;
  let hash := planHash (Queue result) in
  let total := Z.of_nat (List.length (Queue result)) in
  start <- cursorStart cl hash total ;;
  rolloutFrom lib cl h spec (Queue result) hash total start.

Definition LabelCPNamespace : string := "linkerd.io/control-plane-ns".

Fixpoint restartControlPlaneLoop (lib : GoLib) (cl : Cluster) (h : Handlers)
    (deployments : list Deployment) : M World unit :=
  match deployments with
  | [] => ret tt
  | dp :: rest =>
      bumpRestartAnnotation lib cl (WDep dp) ;;;
      waitDeploymentRolledOut h (Namespace (depMeta dp)) (Name (depMeta dp))
                              rolloutPerLimit ;;;
      restartControlPlaneLoop lib cl h rest
  end.

(** RestartLinkerdControlPlane bumps pod-template annotation for each CP
    deployment and waits until rollout is completed. *)
Definition RestartLinkerdControlPlane (lib : GoLib) (cl : Cluster) (h : Handlers)
    (spec : LinkerdTrustRotationSpec) : M RState unit :=
  let namespace := linkerdNamespace (Linkerd spec) in
  deployments <-
    (fun s =>
       match labelsNewRequirement lib LabelCPNamespace namespace with
       | Some e => (Err (Wrapf "build selector: " e), s)
       | None => (apiListControlPlane cl (world s) namespace, s)
       end) ;;
  SetPhase cl PhaseRollingCP ReasonCPRestarting
           "Starting rollout restart Linkerd control plane" ;;;
  SetProgress cl false None None ;;;
  inWorld (restartControlPlaneLoop lib cl h
             (sortSlice lib Deployment
                (fun a b => String.ltb (Name (depMeta b)) (Name (depMeta a)))
                deployments)) ;;;
  SetProgress cl true None None ;;;
  SetPhase cl PhaseRollingCP ReasonCPReady
           "Finished restarted Linkerd control plane".

(* ================================================================== *)
(** ** Orchestrator (internal/controller: Reconcile)                  *)
(* ================================================================== *)

Definition frequency : Duration := 10 * Second.
Definition linkerdIdentityIssuerSecret : string := "linkerd-identity-issuer".

Record ReconcileResult : Type := mkReconcileResult { RequeueAfter : Duration }.

(** DeleteSecrets: immediate delete, background propagation; an absent
    secret is a success. *)
Definition DeleteSecrets (cl : Cluster) (spec : LinkerdTrustRotationSpec)
    (name : string) : M World unit :=
  fun w =>
    let namespace := linkerdNamespace (Linkerd spec) in
    let w' := emit (EvDeleteSecret namespace name (Some 0) "Background") w in
    match apiDeleteSecret cl w namespace name with
    | Some e =>
        if isNotFound e then (Ok tt, w')
        else (Err (Wrapf ("delete secret " +++ namespace +++ "/" +++ name +++ ": ") e),
              w')
    | None => (Ok tt, w')
    end.

(** waitWithPurpose waits for the given duration (if > 0) while respecting
    context cancellation. *)
Definition waitWithPurpose (cl : Cluster) (d : option Duration) : M World unit :=
  fun w =>
    match d with
    | None => (Ok tt, w)
    | Some d =>
        if d <=? 0 then (Ok tt, w)
        else if ctxDone cl w then (Err ctxCanceled, w)
        else (Ok tt, elapse d w)
    end.

(** [if err := c; err != nil { if err := MarkFailed(...); err != nil
    { return err }; return err }] *)
Definition orMarkFailed {A : Type} (cl : Cluster) (c : M RState A) : M RState A :=
  onErr c (fun err =>
    MarkFailed cl ReasonRotationFailed (errText err) ;;; fail err).

Definition sha256Prefix (fp : string) : string := "sha256:" +++ fp.

(** The part of Reconcile that finds out the state of the bundle and
    records the trust information. *)
Definition detectBundleState (lib : GoLib) (cl : Cluster) (h : Handlers)
    (spec : LinkerdTrustRotationSpec) : M RState BundleState :=
  let onSecrets := OnTrustAnchorSecretsDiff (Trigger spec) in
  let onConfigMap := OnTrustRootsConfigMapChange (Trigger spec) in
  if onSecrets && negb onConfigMap then
    secretResult <- inWorld (EnsureTrustSecrets h spec) ;;
    let bundleStatus :=
      if Diverged secretResult then BundleStateOverlap else BundleStateSingle in
    SetTrustInfo cl bundleStatus (secCurrentFP secretResult)
                 (secPreviousFP secretResult) ;;;
    ret bundleStatus
  else if onConfigMap && negb onSecrets then
    configMapResult <- (fun s => (LoadAndInspectCMBundle lib cl spec (world s), s)) ;;
    let bundleStatus :=
      if String.eqb (State configMapResult) BundleStateOverlap
      then BundleStateOverlap else BundleStateSingle in
    match Fps configMapResult with
    | [fp0] =>
        SetTrustInfo cl bundleStatus (sha256Prefix fp0) (sha256Prefix fp0) ;;;
        ret bundleStatus
    | [fp0; fp1] =>
        SetTrustInfo cl bundleStatus (sha256Prefix fp1) (sha256Prefix fp0) ;;;
        ret bundleStatus
    | _ => fail (Errorf "more than 2 or 0 fingerprints found in config map")
    end
  else if onSecrets && onConfigMap then
    secretResult <- inWorld (EnsureTrustSecrets h spec) ;;
    configMapResult <- (fun s => (LoadAndInspectCMBundle lib cl spec (world s), s)) ;;
    let bundleStatus :=
      if Diverged secretResult
         && String.eqb (State configMapResult) BundleStateOverlap
      then BundleStateOverlap else BundleStateSingle in
    SetTrustInfo cl bundleStatus (secCurrentFP secretResult)
                 (secPreviousFP secretResult) ;;;
    ret bundleStatus
  else
    fail (Errorf "no rotation trigger enabled: at least one of trigger.onConfigMapChange or trigger.requireSecretsDivergence must be true").

Definition maxRetriesMessage (count limit : Z) : string :=
  "max retry limit reached (" +++ showZ count +++ " > " +++ showZ limit
  +++ "); stopping rollout".

(** The dry-run branch of Reconcile. *)
Definition rotateDryRun (lib : GoLib) (cl : Cluster)
    (spec : LinkerdTrustRotationSpec) : M RState ReconcileResult :=
  plane <- (fun s => (SelectLinkerdDataPlane cl spec (world s), s)) ;;
  dryRun <- liftRes (yamlMarshal lib (map wDryRun (Queue plane))) ;;
  SetDryRunOutput cl dryRun ;;;
  ret (mkReconcileResult 0).

(** The guard on the number of retries: the count, when it exceeds the
    limit. *)
Definition retriesExceeded (spec : LinkerdTrustRotationSpec) (st : Status)
    : option Z :=
  match Retries st with
  | Some r =>
      if Count r >? MaxRolloutFailures (Protection spec) then Some (Count r)
      else None
  | None => None
  end.

(** The branch of Reconcile taken when the retries are exceeded. *)
Definition rotateAbort (cl : Cluster) (spec : LinkerdTrustRotationSpec)
    (count : Z) : M RState ReconcileResult :=
  let msg := maxRetriesMessage count (MaxRolloutFailures (Protection spec)) in
  inWorld (fun w => (Ok tt, emit (EvRecorder "Warning" "MaxRetriesExceeded" msg) w)) ;;;
  SetPhase cl PhaseFailed ReasonMaxRetriesExceeded msg ;;;
  ret (mkReconcileResult (1 * Minute)).

(** The steps of a rotation up to the restart of the control plane. *)
Definition rotatePrelude (lib : GoLib) (cl : Cluster) (h : Handlers)
    (spec : LinkerdTrustRotationSpec) : M RState unit :=
  SetPhase cl PhaseDetecting ReasonSecretsDiverged
    ("Certificate mismatch detected for Linkerd trust anchor: "
     +++ TrustAnchorSecret (Linkerd spec) +++ " vs "
     +++ PreviousTrustAnchorSecret (Linkerd spec)) ;;;
  inWorld (waitWithPurpose cl (BeforeRolloutDelay (Protection spec))) ;;;
  inWorld (DeleteSecrets cl spec linkerdIdentityIssuerSecret) ;;;
  orMarkFailed cl (RestartLinkerdControlPlane lib cl h spec).

(** The steps of a rotation after the restart of the data plane. *)
Definition rotateCleanup (lib : GoLib) (cl : Cluster) (h : Handlers)
    (spec : LinkerdTrustRotationSpec) : M RState ReconcileResult :=
  inWorld (DeleteSecrets cl spec (PreviousTrustAnchorSecret (Linkerd spec))) ;;;
  (if RetriggerRolloutAfterCleanup (Protection spec) then
     inWorld (waitWithPurpose cl (HoldAfterCleanup (Protection spec))) ;;;
     inWorld (EnsureTrustSecrets h spec) ;;;
     orMarkFailed cl (RestartLinkerdDataPlane lib cl h spec)
   else ret tt) ;;;
  MarkSucceeded cl "Linkerd trust anchor certificate rotation completed successfully" ;;;
  ret (mkReconcileResult frequency).

(** The rotation proper: what Reconcile does once the bundle is found in
    the overlap state. *)
Definition rotate (lib : GoLib) (cl : Cluster) (h : Handlers)
    (spec : LinkerdTrustRotationSpec) : M RState ReconcileResult :=
  fun s =>
    if DryRun spec then rotateDryRun lib cl spec s
    else
      match retriesExceeded spec (status s) with
      | Some count => rotateAbort cl spec count s
      | None =>
          (rotatePrelude lib cl h spec ;;;
           orMarkFailed cl (RestartLinkerdDataPlane lib cl h spec) ;;;
           rotateCleanup lib cl h spec) s
      end.

(** Reconcile, from the moment the rotation resource has been fetched. *)
Definition reconcileRotation (lib : GoLib) (cl : Cluster) (h : Handlers)
    (spec : LinkerdTrustRotationSpec) : M RState ReconcileResult :=
  SetPhase cl PhaseIdle EmptyString
           "Starting to watch for changes to the Linkerd trust anchor certificate" ;;;
  SetProgress cl true None None ;;;
  bundleStatus <- detectBundleState lib cl h spec ;;
  if String.eqb bundleStatus BundleStateOverlap then rotate lib cl h spec
  else ret (mkReconcileResult frequency).

(** Reconcile: fetch the resource (its absence ends the reconcile without
    error), then reconcile it. *)
Definition Reconcile (lib : GoLib) (cl : Cluster) (h : Handlers)
    (fetched : Res LinkerdTrustRotation) (w : World)
    : Res ReconcileResult * RState :=
  match fetched with
  | Err e =>
      if isNotFound e then (Ok (mkReconcileResult 0), mkRState emptyStatus w)
      else (Err e, mkRState emptyStatus w)
  | Ok lTR => reconcileRotation lib cl h (Spec lTR) (mkRState (ObjStatus lTR) w)
  end.

(* ================================================================== *)
(** ** Reference definitions used to state the properties             *)
(* ================================================================== *)

(** What of a work item reaches the plan hash: kind, namespace and name;
    the strategy of a StatefulSet or a custom resource; the bump pair of a
    custom resource whose bump key is not empty. *)
Record StableId : Type := mkStableId {
  idKind : Kind;
  idNamespace : string;
  idName : string;
  idStrategy : option string;
  idBump : option (string * string)
}.

Definition stableId (w : WorkItem) : StableId :=
  mkStableId (wKind w) (getNamespace w) (getName w)
    (match wKind w with
     | KindStatefulSet | KindCR => Some (wStrategy w)
     | _ => None
     end)
    (match wKind w with
     | KindCR =>
         if strEmpty (BumpAnnotationKey w) then None
         else Some (BumpAnnotationKey w, BumpAnnotationValue w)
     | _ => None
     end).

Definition newline : ascii := ascii_of_nat 10.

(** The line of one item: kind|namespace/name, then |strategy and
    |bumpKey=bumpValue where they apply, then a newline. *)
Definition idLine (id : StableId) : string :=
  kindString (idKind id) +++
  String "|" (idNamespace id +++
  String "/" (idName id +++
    (match idStrategy id with
     | Some st => String "|" st
     | None => EmptyString
     end) +++
    (match idBump id with
     | Some (k, v) => String "|" (k +++ String "=" v)
     | None => EmptyString
     end) +++
    String newline EmptyString)).

Fixpoint concatLines (lines : list string) : string :=
  match lines with
  | [] => EmptyString
  | l :: r => l +++ concatLines r
  end.

Fixpoint hasByte (c : ascii) (s : string) : bool :=
  match s with
  | EmptyString => false
  | String x r => Ascii.eqb x c || hasByte c r
  end.

(** Identifiers free of the bytes that can end them in the line: the
    namespace ends at "/", the name and the strategy at "|" or at the
    newline, the bump key at "=", the bump value at the newline. *)
Definition idClean (id : StableId) : Prop :=
  hasByte "/" (idNamespace id) = false /\
  hasByte newline (idName id) = false /\
  hasByte "|" (idName id) = false /\
  (forall st, idStrategy id = Some st ->
     hasByte newline st = false /\ hasByte "|" st = false) /\
  (forall k v, idBump id = Some (k, v) ->
     hasByte "=" k = false /\ hasByte newline v = false).

(** The status patches of a trace. *)
Definition isStatusPatch (ev : Event) : bool :=
  match ev with EvStatusPatch _ _ _ => true | _ => false end.

Definition patchCount (w : World) : nat :=
  List.length (filter isStatusPatch (trace w)).

(** The restart, wait and verification steps of one item, without the
    bookkeeping of failures and progress. *)
Definition itemSteps (lib : GoLib) (cl : Cluster) (h : Handlers)
    (spec : LinkerdTrustRotationSpec) (w : WorkItem) : M World unit :=
  let ns := getNamespace w in
  let name := getName w in
  let check := runProxyCheckIfEnabled h spec ns name rolloutPerLimit in
  match wObj w with
  | WDs _ =>
      bumpRestartAnnotation lib cl (wObj w) ;;;
      waitDaemonSetRolledOut h ns name rolloutPerLimit ;;; check
  | WDep _ =>
      bumpRestartAnnotation lib cl (wObj w) ;;;
      waitDeploymentRolledOut h ns name rolloutPerLimit ;;; check
  | WCR u =>
      (if strEmpty (BumpAnnotationKey w) || strEmpty (BumpAnnotationValue w) then
         fail (Errorf ("BumpAnnotationKey, BumpAnnotationValue is required for custom resources "
                       +++ crGetKind u))
       else ret tt) ;;;
      bumpAnnotationGeneric cl (wObj w) (BumpAnnotationKey w) (BumpAnnotationValue w) ;;;
      waitCRByAnnotationAndStatus h ns name u (BumpAnnotationKey w) true
                                  rolloutPerLimit ;;;
      check
  | WSts sts =>
      (if String.eqb (wStrategy w) Restart then
         bumpRestartAnnotation lib cl (wObj w) ;;;
         waitStatefulSetRolledOut h ns name rolloutPerLimit
       else ret tt) ;;;
      (if String.eqb (wStrategy w) Delete then
         restartStatefulSetByDelete lib cl sts rolloutPerLimit
       else ret tt) ;;;
      check
  end.

(** What recordFailure leaves behind. *)
Definition failureCount (st : Status) : Z :=
  add64 match Retries st with Some r => Count r | None => 0 end 1.

Definition failureRetry (item : WorkItem) (cause : error) (s : RState)
    : RetryStatus :=
  mkRetry (failureCount (status s)) (errText cause) (Some (workRefOf item))
          (Some (if (failureCount (status s) >? 0) && negb (strEmpty (errText cause))
                 then now (world s) else zeroTime)).

Definition failureStatus (item : WorkItem) (cause : error) (s : RState)
    : Status :=
  setLastUpdated (Some (now (world s)))
                 (mutRetries (Some (failureRetry item cause s)) (status s)).

Fixpoint anyByte (p : ascii -> bool) (s : string) : bool :=
  match s with
  | EmptyString => false
  | String x r => p x || anyByte p r
  end.

(** The optional parts of a line follow the kind. *)
Definition idShaped (id : StableId) : Prop :=
  match idKind id with
  | KindDeployment | KindDaemonSet => idStrategy id = None /\ idBump id = None
  | KindStatefulSet => idStrategy id <> None /\ idBump id = None
  | KindCR => idStrategy id <> None
  end.

(* ================================================================== *)
(** ** Sample objects                                                 *)
(* ================================================================== *)

Definition sampleMeta (ns name : string) : ObjectMeta :=
  mkMeta ns name "1" 1 [] [] None.

Definition injected : StrMap := [("linkerd.io/inject", "enabled")].

Definition sampleDeployment (name : string) : Deployment :=
  mkDeployment (sampleMeta "ns1" name) injected (Some 1) 1 1 0 1.

Definition sampleStatefulSet (name : string) : StatefulSet :=
  mkStatefulSet (sampleMeta "ns1" name) injected [("app", name)] (Some 3) 3
                "rev1" "rev1" 1.

Definition sampleDepItem (name strategy : string) : WorkItem :=
  mkWorkItem (mkDryRun KindDeployment "ns1" name strategy)
             (WDep (sampleDeployment name)) EmptyString EmptyString.

Definition sampleStsItem (strategy : string) : WorkItem :=
  mkWorkItem (mkDryRun KindStatefulSet "ns1" "s1" strategy)
             (WSts (sampleStatefulSet "s1")) EmptyString EmptyString.

Definition samplePod (name : string) : Pod :=
  mkPod (sampleMeta "ns1" name) PodRunning [mkPodCondition PodReady ConditionTrue].

Definition notFound (what : string) : error := mkError (what +++ " not found") true.

Definition noConfigMap : Res ConfigMap := Err (notFound "configmap").

(** A cluster that answers every list with the given objects, finds the
    given pods running and ready, and accepts every write. *)
Definition sampleCluster (deps : list Deployment) (stss : list StatefulSet)
    (pods : list Pod) (cm : Res ConfigMap) : Cluster :=
  mkCluster
    (fun _ _ => None)
    (fun _ _ => Ok deps)
    (fun _ _ => Ok stss)
    (fun _ _ => Ok [])
    (fun _ _ _ _ _ => Ok [])
    (fun _ _ => Ok [])
    (fun _ _ _ => cm)
    (fun _ _ _ => Ok pods)
    (fun _ _ _ => None)
    (fun _ _ name =>
       match find (fun p => String.eqb (Name (podMeta p)) name) pods with
       | Some p => Ok p
       | None => Err (notFound "pod")
       end)
    (fun _ _ _ => None)
    (fun _ _ _ _ => None)
    (fun _ => false).

Definition idleStatus : Status :=
  mutPhase (Some PhaseIdle) (Some EmptyString) (Some "watching") emptyStatus.

(** A stand-in for the Go libraries in the examples.  A bundle is a
    sequence of blocks closed by ';': a block that starts with 'C' is a
    CERTIFICATE block and the rest of it its DER bytes, any other block has
    another type; DER bytes are a certificate when they start with the
    SEQUENCE tag 0x30 (the character '0').  sort.Slice is the insertion
    sort Go uses on short slices. *)
Fixpoint cutAt (c : ascii) (s : string) : option (string * string) :=
  match s with
  | EmptyString => None
  | String x r =>
      if Ascii.eqb x c then Some (EmptyString, r)
      else
        match cutAt c r with
        | Some (a, b) => Some (String x a, b)
        | None => None
        end
  end.

Definition testPemDecode (s : string) : option (PemBlock * string) :=
  match cutAt ";" s with
  | Some (String "C" der, rest) => Some (mkPemBlock "CERTIFICATE" der, rest)
  | Some (other, rest) => Some (mkPemBlock "PRIVATE KEY" other, rest)
  | None => None
  end.

Definition testParseCertificate (der : string) : option error :=
  match der with
  | String "0" _ => None
  | _ => Some (Errorf "x509: malformed certificate")
  end.

Definition testYaml (plan : list WorkItemDryRun) : Res string :=
  Ok (concatLines
        (map (fun d => "- " +++ kindString (dryKind d) +++ " " +++ dryNamespace d
                       +++ "/" +++ dryName d +++ String newline EmptyString)
             plan)).

Definition testLib : GoLib :=
  mkGoLib (fun A less l => sortSliceStable less l)
          testPemDecode
          testParseCertificate
          testYaml
          (fun t => "t" +++ showZ t)
          (fun m => Ok m)
          (fun _ _ => None).

(** Handlers that succeed at once, but for the waiters, which return
    [waitErr]. *)
Definition testHandlers (waitErr : option error) : Handlers :=
  mkHandlers (fun _ _ _ => liftErr waitErr)
             (fun _ _ _ => liftErr waitErr)
             (fun _ _ _ => liftErr waitErr)
             (fun _ _ _ _ _ _ => liftErr waitErr)
             (fun _ _ _ _ _ => ret tt)
             (fun _ => ret (mkSecretResult false "sha256:aa" "sha256:bb" true)).

Definition timeoutError : error := Errorf "timeout waiting for Deployment rollout".

Definition sampleSpec (targets : list TargetScope) : LinkerdTrustRotationSpec :=
  mkSpec (mkLinkerd "linkerd" "linkerd-identity-trust-roots"
                    "linkerd-trust-anchor" "linkerd-previous-anchor" true)
         (mkTrigger true false)
         (mkSelector "linkerd.io/inject" "enabled" targets)
         (mkProtection false EmptyString None false None 2)
         false.

Definition deploymentScope : TargetScope :=
  mkScope "Deployment" ["ns1"] EmptyString EmptyString EmptyString EmptyString None.

Definition statefulSetScope (strategy : string) : TargetScope :=
  mkScope "StatefulSet" ["ns1"] strategy EmptyString EmptyString EmptyString None.

(** The names of the items of a plan, in order. *)
Definition queueNames (r : Res SelectResult) : option (list string) :=
  match r with
  | Ok res => Some (map getName (Queue res))
  | Err _ => None
  end.


(** The blocks pem.Decode finds one after the other in a text. *)
Fixpoint pemBlocks (lib : GoLib) (fuel : nat) (s : string) : list PemBlock :=
  match fuel with
  | O => []
  | S fuel' =>
      match pemDecode lib s with
      | None => []
      | Some (blk, rest) => blk :: pemBlocks lib fuel' rest
      end
  end.

Definition isCertBlock (blk : PemBlock) : bool :=
  String.eqb (blkType blk) "CERTIFICATE".

(** The DER bytes of the CERTIFICATE blocks of a bundle, in order. *)
Definition certificateDERs (lib : GoLib) (raw : string) : list string :=
  map blkBytes (filter isCertBlock (pemBlocks lib (S (String.length raw)) raw)).

Definition parses (lib : GoLib) (der : string) : Prop :=
  x509ParseCertificate lib der = None.

Definition isLowerHex (c : ascii) : bool :=
  let n := nat_of_ascii c in
  ((48 <=? n) && (n <=? 57) || (97 <=? n) && (n <=? 102))%nat.

Fixpoint allBytes (p : ascii -> bool) (s : string) : bool :=
  match s with
  | EmptyString => true
  | String c r => p c && allBytes p r
  end.

Definition strLe (a b : string) : Prop := String.leb a b = true.

(* ================================================================== *)
(** ** Reference definitions for the plan builder                     *)
(* ================================================================== *)

(** The strategy the items of a scope carry. *)
Definition scopeStrategy (scope : TargetScope) : string :=
  if strEmpty (RolloutStrategy scope) then Restart else RolloutStrategy scope.

Definition itemOfDeployment (strategy : string) (dep : Deployment) : WorkItem :=
  mkWorkItem (mkDryRun KindDeployment (Namespace (depMeta dep)) (Name (depMeta dep))
                       strategy)
             (WDep dep) EmptyString EmptyString.

Definition itemOfDaemonSet (strategy : string) (ds : DaemonSet) : WorkItem :=
  mkWorkItem (mkDryRun KindDaemonSet (Namespace (dsMeta ds)) (Name (dsMeta ds))
                       strategy)
             (WDs ds) EmptyString EmptyString.

Definition itemOfStatefulSet (strategy : string) (sts : StatefulSet) : WorkItem :=
  mkWorkItem (mkDryRun KindStatefulSet (Namespace (stsMeta sts)) (Name (stsMeta sts))
                       strategy)
             (WSts sts) EmptyString EmptyString.

Definition itemOfCustom (strategy : string) (bump : option AnnotationBumpOptions)
    (cr : Unstructured) : WorkItem :=
  mkWorkItem (mkDryRun KindCR (crGetNamespace cr) (crGetName cr) strategy)
             (WCR cr)
             (match bump with Some b => bumpKey b | None => EmptyString end)
             (match bump with Some b => bumpValue b | None => EmptyString end).

Definition listed {A : Type} (r : Res (list A)) : list A :=
  match r with
  | Ok l => l
  | Err _ => []
  end.

Definition stsNameLess (a b : StatefulSet) : bool :=
  String.ltb (Name (stsMeta a)) (Name (stsMeta b)).

(** The items one namespace contributes to the plan of a scope. *)
Definition namespaceItems (cl : Cluster) (w : World) (key val : string)
    (scope : TargetScope) (ns : string) : list WorkItem :=
  let st := scopeStrategy scope in
  if String.eqb (KindType scope) "DaemonSet" then
    map (itemOfDaemonSet st)
        (filter (fun ds => hasAnnotationOnTemplate (dsTemplateAnnotations ds) key val)
                (listed (apiListDaemonSets cl w ns)))
  else if String.eqb (KindType scope) "Deployment" then
    map (itemOfDeployment st)
        (filter (fun d => hasAnnotationOnTemplate (depTemplateAnnotations d) key val)
                (listed (apiListDeployments cl w ns)))
  else if String.eqb (KindType scope) "CustomResource" then
    map (itemOfCustom st (AnnotationBump scope))
        (filter (fun cr => crHasTemplateAnnotation cr key val)
                (listed (apiListCustom cl w (APIGroup scope) (Version scope)
                                       (ScopeKind scope) ns)))
  else if String.eqb (KindType scope) "StatefulSet" then
    map (itemOfStatefulSet st)
        (filter (fun s => hasAnnotationOnTemplate (stsTemplateAnnotations s) key val)
                (sortSliceStable stsNameLess (listed (apiListStatefulSets cl w ns))))
  else [].

(** The items of a scope: namespace after namespace, as declared. *)
Definition scopeItems (cl : Cluster) (w : World) (key val : string)
    (scope : TargetScope) : list WorkItem :=
  flat_map (namespaceItems cl w key val scope) (AllowedNamespaces scope).

Definition kindEqb (a b : Kind) : bool :=
  match a, b with
  | KindDeployment, KindDeployment
  | KindStatefulSet, KindStatefulSet
  | KindDaemonSet, KindDaemonSet
  | KindCR, KindCR => true
  | _, _ => false
  end.

(** How many items of a kind a queue holds. *)
Definition countKind (k : Kind) (q : list WorkItem) : Z :=
  Z.of_nat (List.length (filter (fun w => kindEqb (wKind w) k) q)).

(** A scope the plan builder refuses whatever the cluster holds. *)
Definition scopeInvalid (scope : TargetScope) : Prop :=
  AllowedNamespaces scope = []
  \/ (KindType scope <> "DaemonSet" /\ KindType scope <> "Deployment"
      /\ KindType scope <> "CustomResource" /\ KindType scope <> "StatefulSet")
  \/ (KindType scope = "CustomResource"
      /\ (APIGroup scope = EmptyString \/ ScopeKind scope = EmptyString
          \/ Version scope = EmptyString)).

Definition sampleStsItem' (name strategy : string) : WorkItem :=
  mkWorkItem (mkDryRun KindStatefulSet "ns1" name strategy)
             (WSts (sampleStatefulSet name)) EmptyString EmptyString.

(** The counters of a result agree with its queue. *)
Definition statsOk (res : SelectResult) : Prop :=
  statDeployments res = wrap64 (countKind KindDeployment (Queue res))
  /\ statStatefulSets res = wrap64 (countKind KindStatefulSet (Queue res))
  /\ statDaemonSets res = wrap64 (countKind KindDaemonSet (Queue res))
  /\ statCustomResources res = wrap64 (countKind KindCR (Queue res)).


(** What holds of every item the plan builder makes: the dry-run fields
    repeat the snapshot, the strategy is not empty, and only a custom
    resource carries a bump annotation. *)
Definition itemCoherent (w : WorkItem) : Prop :=
  dryKind (wDryRun w) = wKind w
  /\ dryNamespace (wDryRun w) = getNamespace w
  /\ dryName (wDryRun w) = getName w
  /\ wStrategy w <> EmptyString
  /\ (wKind w <> KindCR ->
      BumpAnnotationKey w = EmptyString /\ BumpAnnotationValue w = EmptyString).

(** Whether the workload of an item carries the selector annotation. *)
Definition itemSelected (key val : string) (w : WorkItem) : bool :=
  match wObj w with
  | WDep d => hasAnnotationOnTemplate (depTemplateAnnotations d) key val
  | WSts s => hasAnnotationOnTemplate (stsTemplateAnnotations s) key val
  | WDs d => hasAnnotationOnTemplate (dsTemplateAnnotations d) key val
  | WCR u => crHasTemplateAnnotation u key val
  end.

(** ** Restart of a StatefulSet by deleting its pods: what is proved of it *)

(** The error of deletePodAndWaitSameNameReady when the deadline passes. *)
Definition podTimeout (ns name : string) : error :=
  Errorf ("timeout waiting pod " +++ ns +++ "/" +++ name
          +++ " to be Ready after delete").

(** How a wait for a pod can end, in the world [w'] it ends in: the pod
    was fetched ready, the context was cancelled, a fetch failed, or the
    deadline was reached. *)
Definition WaitOutcome (cl : Cluster) (ns name : string) (deadline : Time)
    (r : Res unit) (w' : World) : Prop :=
  (r = Ok tt /\ exists cur, apiGetPod cl w' ns name = Ok cur /\ podBack cur = true)
  \/ (r = Err ctxCanceled /\ ctxDone cl w' = true /\ now w' < deadline)
  \/ (exists e, r = Err e /\ apiGetPod cl w' ns name = Err e /\ isNotFound e = false)
  \/ (r = Err (podTimeout ns name) /\ deadline <= now w').

Definition deleteEvent (p : Pod) : Event :=
  EvDeletePod (Namespace (podMeta p)) (Name (podMeta p)) None "Background".

(** The pods of a list are deleted one after the other from [w] to [w']:
    each deletion is followed by a wait that ends, within the time limit,
    in a world where the pod of that name is back and ready; only then is
    the next pod deleted. *)
Inductive DeletedInTurn (cl : Cluster) (t : Duration) :
    World -> list Pod -> World -> Prop :=
| DeletedNone (w : World) : DeletedInTurn cl t w [] w
| DeletedNext (w w1 w2 : World) (p cur : Pod) (rest : list Pod) :
    trace w1 = trace w ++ [deleteEvent p] ->
    now w < now w1 < now w + t + 2 * Second ->
    apiGetPod cl w1 (Namespace (podMeta p)) (Name (podMeta p)) = Ok cur ->
    podBack cur = true ->
    DeletedInTurn cl t w1 rest w2 ->
    DeletedInTurn cl t w (p :: rest) w2.

Definition rolloutDeletePrefix (stsName : string) (p : Pod) : string :=
  "rolloutDelete " +++ Namespace (podMeta p) +++ "/" +++ stsName +++ " pod "
  +++ Name (podMeta p) +++ ": ".

Definition ordinalOf (p : Pod) : Z := podOrdinal (Name (podMeta p)).

(** ** The orchestrator: what is proved of it *)

(** From [s] to [s'] nothing was written but the status, and no time
    passed. *)
Definition StatusOnly (s s' : RState) : Prop :=
  now (world s') = now (world s)
  /\ exists evs, trace (world s') = trace (world s) ++ evs
                 /\ forallb isStatusPatch evs = true.

(** The API accepts every patch of the status. *)
Definition statusPatchOk (cl : Cluster) : Prop :=
  forall w st, apiStatusPatch cl w st = None.

Definition noTriggerError : error :=
  Errorf "no rotation trigger enabled: at least one of trigger.onConfigMapChange or trigger.requireSecretsDivergence must be true".

Definition fingerprintCountError : error :=
  Errorf "more than 2 or 0 fingerprints found in config map".

(** Reconcile up to the point where the state of the bundle is known. *)
Definition detectPhase (lib : GoLib) (cl : Cluster) (h : Handlers)
    (spec : LinkerdTrustRotationSpec) : M RState BundleState :=
  SetPhase cl PhaseIdle EmptyString
           "Starting to watch for changes to the Linkerd trust anchor certificate" ;;;
  SetProgress cl true None None ;;;
  detectBundleState lib cl h spec.

(** The events of a list are patches of the status, one at most. *)
Definition atMostOnePatch (evs : list Event) : Prop :=
  forallb isStatusPatch evs = true /\ (List.length evs <= 1)%nat.

(** A computation keeps a part [f] of the status as it found it. *)
Definition Keeps {A B : Type} (f : Status -> B) (c : M RState A) : Prop :=
  forall s, f (status (snd (c s))) = f (status s).

(** A part of the status other than lastUpdated. *)
Definition Durable {B : Type} (f : Status -> B) : Prop :=
  forall st t, f (setLastUpdated t st) = f st.

(** The steps of a rotation before the restart of the control plane. *)
Definition rotateOpening (cl : Cluster) (spec : LinkerdTrustRotationSpec)
    : M RState unit :=
  SetPhase cl PhaseDetecting ReasonSecretsDiverged
    ("Certificate mismatch detected for Linkerd trust anchor: "
     +++ TrustAnchorSecret (Linkerd spec) +++ " vs "
     +++ PreviousTrustAnchorSecret (Linkerd spec)) ;;;
  inWorld (waitWithPurpose cl (BeforeRolloutDelay (Protection spec))) ;;;
  inWorld (DeleteSecrets cl spec linkerdIdentityIssuerSecret).

(** What MarkFailed leaves behind after a failed step. *)
Definition MarkedFailed (cause : error) (s5 s' : RState) : Prop :=
  stPhase (status s') = Some PhaseFailed
  /\ stReason (status s') = Some ReasonRotationFailed
  /\ stMessage (status s') = Some (errText cause)
  /\ CompletionTime (status s') = Some (now (world s5))
  /\ Retries (status s') = Retries (status s5)
  /\ Cursor (status s') = Cursor (status s5)
  /\ now (world s') = now (world s5)
  /\ exists patches,
       trace (world s') = trace (world s5) ++ patches /\ atMostOnePatch patches.

(** What MarkSucceeded leaves behind. *)
Definition MarkedSucceeded (s' : RState) : Prop :=
  stPhase (status s') = Some PhaseSucceeded
  /\ stReason (status s') = Some "Completed"
  /\ stMessage (status s')
     = Some "Linkerd trust anchor certificate rotation completed successfully"
  /\ CompletionTime (status s') = Some (now (world s')).

(** ** Sample inputs of a reconcile *)

(** A trust-roots ConfigMap whose bundle is [text]. *)
Definition bundleOf (text : string) : Res ConfigMap :=
  Ok (mkConfigMap [(configMapDataKey, text)]).

(** The sample spec with the given triggers and dry-run flag. *)
Definition specWith (onConfigMap onSecrets dryRun : bool)
    (targets : list TargetScope) : LinkerdTrustRotationSpec :=
  mkSpec (Linkerd (sampleSpec targets)) (mkTrigger onConfigMap onSecrets)
         (Rollout (sampleSpec targets)) (Protection (sampleSpec targets)) dryRun.

(** What the bundle inspector returns for certificates with these DER
    bytes. *)
Definition bundleResultOf (ders : list string) : BundleResult :=
  mkBundleResult (map mkCertificate ders)
                 (sortStrings (map fingerprint (map mkCertificate ders)))
                 (match ders with [_] => BundleStateSingle | _ => BundleStateOverlap end).

(** A resource without status, at time 0, nothing done yet. *)
Definition freshState : RState := mkRState emptyStatus (mkWorld 0 []).




(** The workloads whose restart annotation is patched by the events of a
    list, in order. *)
Definition restartedBy (evs : list Event) : list (string * string * string) :=
  flat_map (fun ev =>
              match ev with
              | EvPatchAnnotation kind ns name key _ =>
                  if String.eqb key restartedAtKey then [(kind, ns, name)] else []
              | _ => []
              end) evs.

Definition deploymentKey (d : Deployment) : string * string * string :=
  ("Deployment", Namespace (depMeta d), Name (depMeta d)).

(** The waiter of Deployments writes nothing: it only reads and sleeps. *)
Definition waiterOnlyReads (h : Handlers) : Prop :=
  forall ns name t w, trace (snd (waitDeploymentRolledOut h ns name t w)) = trace w.

Definition nameDescending (a b : Deployment) : bool :=
  String.ltb (Name (depMeta b)) (Name (depMeta a)).

(** A custom resource whose spec.template.metadata.annotations are [ann]. *)
Definition crWithTemplate (ann : StrMap) : Unstructured :=
  mkUnstructured
    [("spec", JObject
       [("template", JObject
          [("metadata", JObject
             [("annotations",
               JObject (map (fun kv => (fst kv, JString (snd kv))) ann))])])])].

(** The part of crHasTemplateAnnotation that looks at spec.pods[]. *)
Definition podsHave (u : Unstructured) (key val : string) : bool :=
  match nestedField (Object u) ["spec"; "pods"] with
  | Some (JArray arr) => existsb (podEntryHas key val) arr
  | _ => false
  end.

(* ================================================================== *)
(** ** Trust secrets (internal/secret)                                *)
(* ================================================================== *)

(** The manager of secrets as the code has it.  The orchestrator above
    takes EnsureTrustSecrets as a handler; the function itself is
    [SecretManager.EnsureTrustSecrets]. *)

Definition secretAnnotation : string := "trust-anchor.linkerd.edenlab.io/created".
Definition secretDataKey : string := "tls.crt".
Definition SecretTypeTLS : string := "kubernetes.io/tls".

(** A Secret: its metadata, its type and its data (map[string][]byte). *)
Record Secret : Type := mkSecret {
  secMeta : ObjectMeta;
  secType : string;
  secData : StrMap
}.

(** What the cluster answers about secrets. *)
Record SecretApi : Type := mkSecretApi {
  apiGetSecret : World -> string -> string -> Res Secret;
  apiCreateSecret : World -> Secret -> option error
}.

(** The loop of concatDER; [fuel] bounds the number of pem.Decode calls. *)
Fixpoint concatDERLoop (lib : GoLib) (fuel : nat) (out : string) (input : string)
    : Res string :=
  match fuel with
  | O => Ok out
  | S fuel' =>
      match pemDecode lib input with
      | None => Ok out
      | Some (block, rest) =>
          if negb (String.eqb (blkType block) "CERTIFICATE") then
            concatDERLoop lib fuel' out rest
          else
            match x509ParseCertificate lib (blkBytes block) with
            | Some e => Err (Wrapf "invalid certificate in PEM: " e)
            | None => concatDERLoop lib fuel' (out +++ blkBytes block) rest
            end
      end
  end.

Definition concatDER (lib : GoLib) (pemBytes : string) : Res string :=
  match concatDERLoop lib (S (String.length pemBytes)) EmptyString pemBytes with
  | Err e => Err e
  | Ok out =>
      if strEmpty out then Err (Errorf "no CERTIFICATE blocks found") else Ok out
  end.

Definition fingerprintPEMCerts (lib : GoLib) (pemBytes : string) : Res string :=
  match concatDER lib pemBytes with
  | Err e => Err e
  | Ok der => Ok ("sha256:" +++ hexEncode (SHA256.digest (bytes_of_string der)))
  end.

(** The object bootstrapPreviousSecrets creates. *)
Definition previousSecretFrom (spec : LinkerdTrustRotationSpec) (cSecret : Secret)
    : Secret :=
  mkSecret (mkMeta (linkerdNamespace (Linkerd spec))
                   (PreviousTrustAnchorSecret (Linkerd spec))
                   EmptyString 0 [] [(secretAnnotation, "true")] None)
           SecretTypeTLS (secData cSecret).

Definition createEvent (s : Secret) : Event :=
  EvOther ("create secret " +++ Namespace (secMeta s) +++ "/" +++ Name (secMeta s)).

Definition bootstrapPreviousSecrets (api : SecretApi)
    (spec : LinkerdTrustRotationSpec) (cSecret : Secret) : M World unit :=
  fun w =>
    let previousSecret := previousSecretFrom spec cSecret in
    let w' := emit (createEvent previousSecret) w in
    match apiCreateSecret api w previousSecret with
    | None => (Ok tt, w')
    | Some e => (Err e, w')
    end.

(** The loop that waits for the bootstrapped secret: duration 3 s,
    interval 1 s. *)
Fixpoint waitPrevious (cl : Cluster) (api : SecretApi) (ns name : string)
    (start : Time) (fuel : nat) : M World Secret :=
  fun w =>
    match fuel with
    | O => (Err (Errorf ("timeout waiting for " +++ ns +++ "/" +++ name)), w)
    | S fuel' =>
        if ctxDone cl w then (Err ctxCanceled, w)
        else
          match apiGetSecret api w ns name with
          | Ok p => (Ok p, w)
          | Err e =>
              if negb (isNotFound e) then (Err e, w)
              else if now w - start >=? 3 * Second then
                (Err (Errorf ("timeout waiting for " +++ ns +++ "/" +++ name)), w)
              else waitPrevious cl api ns name start fuel' (elapse (1 * Second) w)
          end
    end.

(** The bytes under tls.crt; a missing key reads as no bytes. *)
Definition certData (s : Secret) : string :=
  match mapGet secretDataKey (secData s) with
  | Some b => b
  | None => EmptyString
  end.

(** cmp.Equal on two maps, nil and empty alike: the same keys with the
    same values. *)
Definition dataEqual (a b : StrMap) : bool :=
  let same kv :=
    optEqb String.eqb (mapGet (fst kv) a) (mapGet (fst kv) b) in
  forallb same a && forallb same b.

Module SecretManager.

(** EnsureTrustSecrets validates the current secret, optionally bootstraps
    the previous secret, and returns fingerprints to drive rotation logic. *)
Definition EnsureTrustSecrets (lib : GoLib) (cl : Cluster) (api : SecretApi)
    (spec : LinkerdTrustRotationSpec) : M World SecretResult :=
  fun w =>
    let ns := linkerdNamespace (Linkerd spec) in
    let previous := PreviousTrustAnchorSecret (Linkerd spec) in
    match apiGetSecret api w ns (TrustAnchorSecret (Linkerd spec)) with
    | Err e => (Err e, w)
    | Ok cSecret =>
        let found : M World Secret :=
          match apiGetSecret api w ns previous with
          | Ok p => ret p
          | Err e =>
              if isNotFound e && BootstrapPreviousSecret (Linkerd spec) then
                bootstrapPreviousSecrets api spec cSecret ;;;
                (fun w1 => waitPrevious cl api ns previous (now w1) 5 w1)
              else fail e
          end in
        (pSecret <- found ;;
         currentFP <- liftRes (fingerprintPEMCerts lib (certData cSecret)) ;;
         previousFP <- liftRes (fingerprintPEMCerts lib (certData pSecret)) ;;
         ret (mkSecretResult
                (match mapGet secretAnnotation (Annotations (secMeta pSecret)) with
                 | Some v => String.eqb v "true"
                 | None => false
                 end)
                currentFP previousFP
                (negb (dataEqual (secData cSecret) (secData pSecret))))) w
    end.

End SecretManager.

(** A store without previous secret that accepts its creation and returns
    it from then on. *)
Definition sampleSecretApi (current : Secret) (spec : LinkerdTrustRotationSpec)
    : SecretApi :=
  mkSecretApi
    (fun w ns name =>
       if String.eqb name (TrustAnchorSecret (Linkerd spec)) then Ok current
       else if existsb (fun ev => match ev with EvOther _ => true | _ => false end)
                       (trace w)
       then Ok (previousSecretFrom spec current)
       else Err (notFound "secret"))
    (fun _ _ => None).

(** A current trust anchor secret with one certificate. *)
Definition sampleSecret : Secret :=
  mkSecret (sampleMeta "linkerd" "linkerd-trust-anchor") SecretTypeTLS
           [(secretDataKey, "C0a;")].

(* ================================================================== *)
(** ** Waiters and the proxy check (internal/rollout)                 *)
(* ================================================================== *)

Record JobCondition : Type := mkJobCondition {
  jcType : string;
  jcStatus : string;
  jcMessage : string
}.

(** A batch/v1 Job, with the fields runLinkerdCheckJob sets or reads. *)
Record Job : Type := mkJob {
  jobMeta : ObjectMeta;
  jobBackoffLimit : Z;
  jobTTLSecondsAfterFinished : Z;
  jobPodName : string;
  jobServiceAccount : string;
  jobRestartPolicy : string;
  jobContainerName : string;
  jobImage : string;
  jobArgs : list string;
  jobConditions : list JobCondition
}.

(** What the cluster answers to the waiters and to the proxy check. *)
Record ReadApi : Type := mkReadApi {
  apiGetDeployment : World -> string -> string -> Res Deployment;
  apiGetStatefulSet : World -> string -> string -> Res StatefulSet;
  apiGetDaemonSet : World -> string -> string -> Res DaemonSet;
  apiGetJob : World -> string -> string -> Res Job;
  apiCreateJob : World -> Job -> option error
}.

Definition defaultLinkerdCLIImage : string := "ghcr.io/linkerd/cli-bin:stable-2.14.10".
Definition jobNamePrefix : string := "linkerd-proxy-check".
Definition jobSA : string := "l5d-check".
Definition OnDeleteDaemonSetStrategyType : string := "OnDelete".
Definition JobFailed : string := "Failed".
Definition JobComplete : string := "Complete".

(** The loop the waiters share: leave when the deadline is over, wait for
    the tick or for the cancellation, fetch the object (an absent object is
    fetched again at the next tick), decide.  [expired] is the test of the
    deadline, [decide] what the fetched object means: a result, or nothing
    yet. *)
Fixpoint pollLoop {A : Type} (cl : Cluster) (expired : World -> bool)
    (get : World -> Res A) (decide : A -> option (Res unit)) (timedOut : error)
    (fuel : nat) : M World unit :=
  fun w =>
    match fuel with
    | O => (Err timedOut, w)
    | S fuel' =>
        if expired w then (Err timedOut, w)
        else if ctxDone cl w then (Err ctxCanceled, w)
        else
          let w := elapse rolloutPollInterval w in
          match get w with
          | Err e =>
              if isNotFound e then pollLoop cl expired get decide timedOut fuel' w
              else (Err e, w)
          | Ok cur =>
              match decide cur with
              | Some r => (r, w)
              | None => pollLoop cl expired get decide timedOut fuel' w
              end
          end
    end.

(** if time.Now().After(deadline) *)
Definition afterDeadline (deadline : Time) (w : World) : bool := now w >? deadline.

(** for time.Now().Before(deadline) *)
Definition notBefore (deadline : Time) (w : World) : bool := negb (now w <? deadline).

Definition orOne (replicas : option Z) : Z :=
  match replicas with Some r => r | None => 1 end.

Definition deploymentReady (cur : Deployment) : bool :=
  (depUpdatedReplicas cur =? orOne (depReplicas cur))
  && (depReadyReplicas cur =? orOne (depReplicas cur))
  && (depUnavailableReplicas cur =? 0)
  && (depObservedGeneration cur >=? Generation (depMeta cur)).

Definition statefulSetReady (cur : StatefulSet) : bool :=
  (stsReadyReplicas cur =? orOne (stsReplicas cur))
  && String.eqb (stsCurrentRevision cur) (stsUpdateRevision cur)
  && (stsObservedGeneration cur >=? Generation (stsMeta cur)).

Definition daemonSetReady (cur : DaemonSet) : bool :=
  (dsUpdatedNumberScheduled cur =? dsDesiredNumberScheduled cur)
  && (dsNumberAvailable cur =? dsDesiredNumberScheduled cur)
  && (dsNumberMisscheduled cur =? 0)
  && (dsObservedGeneration cur >=? Generation (dsMeta cur)).

Definition whenReady (ready : bool) : option (Res unit) :=
  if ready then Some (Ok tt) else None.

(** The scan of the conditions of the check job: the first condition that
    is Failed=True or Complete=True decides. *)
Fixpoint jobVerdict (conds : list JobCondition) : option (Res unit) :=
  match conds with
  | [] => None
  | c :: rest =>
      if String.eqb (jcType c) JobFailed && String.eqb (jcStatus c) ConditionTrue
      then Some (Err (Errorf ("linkerd check job failed: " +++ jcMessage c)))
      else if String.eqb (jcType c) JobComplete
              && String.eqb (jcStatus c) ConditionTrue
      then Some (Ok tt)
      else jobVerdict rest
  end.

Definition checkJobName (targetNs jobNameSuffix : string) : string :=
  jobNamePrefix +++ "-" +++ targetNs +++ "-"
  +++ strPrefix 7 (hexEncode (SHA1.digest (bytes_of_string jobNameSuffix))).

Definition checkJob (cliImage targetNs jobNs jobNameSuffix : string) : Job :=
  mkJob (mkMeta jobNs (checkJobName targetNs jobNameSuffix) EmptyString 0
                [("app", jobNamePrefix)] [] None)
        0 60 (jobNamePrefix +++ "-" +++ targetNs) jobSA "Never" jobNamePrefix
        (if strEmpty cliImage then defaultLinkerdCLIImage else cliImage)
        ["check"; "--proxy"; "--namespace"; targetNs; "--linkerd-namespace"; jobNs;
         "--wait=2m"; "--verbose"]
        [].

Definition deleteJobEvent (job : Job) : Event :=
  EvOther ("delete job " +++ Namespace (jobMeta job) +++ "/" +++ Name (jobMeta job)
           +++ " (Foreground)").

Definition createJobEvent (job : Job) : Event :=
  EvOther ("create job " +++ Namespace (jobMeta job) +++ "/" +++ Name (jobMeta job)).

Module Rollout.

(** waitDeploymentRolledOut waits until Deployment is fully rolled out. *)
Definition waitDeploymentRolledOut (cl : Cluster) (api : ReadApi)
    (ns name : string) (timeout : Duration) : M World unit :=
  fun w =>
    pollLoop cl (afterDeadline (now w + timeout))
             (fun w' => apiGetDeployment api w' ns name)
             (fun cur => whenReady (deploymentReady cur))
             (Errorf "timeout waiting for Deployment rollout")
             (pollFuel timeout) w.

(** waitStatefulSetRolledOut waits until StatefulSet has finished rolling
    update. *)
Definition waitStatefulSetRolledOut (cl : Cluster) (api : ReadApi)
    (ns name : string) (timeout : Duration) : M World unit :=
  fun w =>
    pollLoop cl (afterDeadline (now w + timeout))
             (fun w' => apiGetStatefulSet api w' ns name)
             (fun cur => whenReady (statefulSetReady cur))
             (Errorf "timeout waiting for StatefulSet rollout")
             (pollFuel timeout) w.

(** waitDaemonSetRolledOut waits until DaemonSet has finished rolling
    update; with the OnDelete strategy it fails early. *)
Definition waitDaemonSetRolledOut (cl : Cluster) (api : ReadApi)
    (ns name : string) (timeout : Duration) : M World unit :=
  fun w =>
    pollLoop cl (afterDeadline (now w + timeout))
             (fun w' => apiGetDaemonSet api w' ns name)
             (fun cur =>
                if String.eqb (dsUpdateStrategy cur) OnDeleteDaemonSetStrategyType
                then Some (Err (Errorf ("Daemonset " +++ ns +++ "/" +++ name
                                        +++ " uses OnDelete strategy: template bump won't roll pods")))
                else whenReady (daemonSetReady cur))
             (Errorf "timeout waiting for Daemonset rollout")
             (pollFuel timeout) w.

Definition waitJobSucceeded (cl : Cluster) (api : ReadApi) (ns name : string)
    (timeout : Duration) : M World unit :=
  fun w =>
    pollLoop cl (notBefore (now w + timeout))
             (fun w' => apiGetJob api w' ns name)
             (fun cur => jobVerdict (jobConditions cur))
             (Errorf ("timeout waiting for linkerd check job " +++ ns +++ "/" +++ name))
             (pollFuel timeout) w.

(** runLinkerdCheckJob: create or replace the job, then wait for it. *)
Definition runLinkerdCheckJob (cl : Cluster) (api : ReadApi)
    (cliImage targetNs jobNs jobNameSuffix : string) (timeout : Duration)
    : M World unit :=
  fun w =>
    let job := checkJob cliImage targetNs jobNs jobNameSuffix in
    (* best-effort cleanup previous: the result is dropped *)
    let w1 := emit (deleteJobEvent job) w in
    let w2 := emit (createJobEvent job) w1 in
    match apiCreateJob api w1 job with
    | Some e => (Err e, w2)
    | None =>
        waitJobSucceeded cl api (Namespace (jobMeta job)) (Name (jobMeta job))
                         timeout w2
    end.

End Rollout.

(** What a poll that ends without error has seen: the last fetch, one tick
    after a moment at which the deadline was not over, returned an object
    on which the waiter decided to succeed. *)
Definition SeenReady {A : Type} (expired : World -> bool) (get : World -> Res A)
    (decide : A -> option (Res unit)) (w w' : World) : Prop :=
  exists w0 cur,
    expired w0 = false /\ now w <= now w0
    /\ w' = elapse rolloutPollInterval w0
    /\ get w' = Ok cur /\ decide cur = Some (Ok tt).

(** A condition that says the job failed. *)
Definition saysFailed (c : JobCondition) : Prop :=
  jcType c = JobFailed /\ jcStatus c = ConditionTrue.

(** A condition that says the job is complete. *)
Definition saysComplete (c : JobCondition) : Prop :=
  jcType c = JobComplete /\ jcStatus c = ConditionTrue.

(** A cluster whose check job is complete as soon as it is fetched. *)
Definition sampleReadApi : ReadApi :=
  mkReadApi (fun _ _ name => Ok (sampleDeployment name))
            (fun _ _ name => Ok (sampleStatefulSet name))
            (fun _ _ _ => Err (notFound "daemonset"))
            (fun _ ns name =>
               Ok (mkJob (sampleMeta ns name) 0 60 EmptyString jobSA "Never"
                         jobNamePrefix defaultLinkerdCLIImage []
                         [mkJobCondition "Suspended" "False" EmptyString;
                          mkJobCondition JobComplete ConditionTrue EmptyString]))
            (fun _ _ => None).
(* ================================================================== *)
(** * Properties                                                     *)
(* ================================================================== *)

(** ** SHA-1 test vectors (FIPS 180) *)

Example sha1_abc :
  hexEncode (SHA1.digest (bytes_of_string "abc"))
  = "a9993e364706816aba3e25717850c26c9cd0d89d".
Proof. vm_compute. reflexivity. Qed.

Example sha1_empty :
  hexEncode (SHA1.digest (bytes_of_string EmptyString))
  = "da39a3ee5e6b4b0d3255bfef95601890afd80709".
Proof. vm_compute. reflexivity. Qed.

Example sha1_two_blocks :
  hexEncode (SHA1.digest (bytes_of_string
    "abcdbcdecdefdefgefghfghighijhijkijkljklmklmnlmnomnopnopq"))
  = "84983e441c3bd26ebaae4aa1f95129e5e54670f1".
Proof. vm_compute. reflexivity. Qed.

(** ** SHA-256 test vectors (FIPS 180) *)

Example sha256_abc :
  hexEncode (SHA256.digest (bytes_of_string "abc"))
  = "ba7816bf8f01cfea414140de5dae2223b00361a396177a9cb410ff61f20015ad".
Proof. vm_compute. reflexivity. Qed.

Example sha256_empty :
  hexEncode (SHA256.digest (bytes_of_string EmptyString))
  = "e3b0c44298fc1c149afbf4c8996fb92427ae41e4649b934ca495991b7852b855".
Proof. vm_compute. reflexivity. Qed.

Example sha256_two_blocks :
  hexEncode (SHA256.digest (bytes_of_string
    "abcdbcdecdefdefgefghfghighijhijkijkljklmklmnlmnomnopnopq"))
  = "248d6a61d20638b8e5c026930c3e6039a33ce45964ff2167f6ecedd419db06c1".
Proof. vm_compute. reflexivity. Qed.

(** ** Strings *)

Lemma append_assoc (a b c : string) : (a +++ b) +++ c = a +++ (b +++ c).
Proof. induction a as [|x a IH]; simpl; [reflexivity | now rewrite IH]. Qed.

Lemma append_nil_r (a : string) : a +++ EmptyString = a.
Proof. induction a as [|x a IH]; simpl; [reflexivity | now rewrite IH]. Qed.

Lemma hasByte_app (c : ascii) (a b : string) :
  hasByte c (a +++ b) = hasByte c a || hasByte c b.
Proof.
  induction a as [|x a IH]; simpl; [reflexivity|].
  rewrite IH. now rewrite orb_assoc.
Qed.

(** A string is cut in one way only at the first occurrence of a byte. *)
Lemma split_unique (c : ascii) (a b r1 r2 : string) :
  hasByte c a = false -> hasByte c b = false ->
  a +++ String c r1 = b +++ String c r2 -> a = b /\ r1 = r2.
Proof.
  revert b. induction a as [|x a IH]; intros [|y b] Ha Hb H; simpl in *.
  - injection H as ->. split; reflexivity.
  - injection H as Hc _. subst y. rewrite Ascii.eqb_refl in Hb. discriminate.
  - injection H as Hc _. subst x. rewrite Ascii.eqb_refl in Ha. discriminate.
  - injection H as -> H.
    apply orb_false_iff in Ha as [_ Ha]. apply orb_false_iff in Hb as [_ Hb].
    destruct (IH b Ha Hb H) as [-> ->]. split; reflexivity.
Qed.

Lemma no_split (c : ascii) (a b r : string) :
  hasByte c a = false -> a <> b +++ String c r.
Proof.
  intros Ha ->. rewrite hasByte_app in Ha. simpl in Ha.
  rewrite Ascii.eqb_refl, orb_true_r in Ha. discriminate.
Qed.

Lemma split_at (p : ascii -> bool) (a b r1 r2 : string) (c1 c2 : ascii) :
  anyByte p a = false -> anyByte p b = false -> p c1 = true -> p c2 = true ->
  a +++ String c1 r1 = b +++ String c2 r2 -> a = b /\ c1 = c2 /\ r1 = r2.
Proof.
  revert b. induction a as [|x a IH]; intros [|y b] Ha Hb H1 H2 H; simpl in *.
  - injection H as -> ->. repeat split.
  - injection H as Hc _. subst y. rewrite H1 in Hb. discriminate.
  - injection H as Hc _. subst x. rewrite H2 in Ha. discriminate.
  - injection H as -> H.
    apply orb_false_iff in Ha as [_ Ha]. apply orb_false_iff in Hb as [_ Hb].
    destruct (IH b Ha Hb H1 H2 H) as (-> & -> & ->). repeat split.
Qed.

Lemma anyByte_two (c1 c2 : ascii) (s : string) :
  hasByte c1 s = false -> hasByte c2 s = false ->
  anyByte (fun x => Ascii.eqb x c1 || Ascii.eqb x c2) s = false.
Proof.
  induction s as [|x s IH]; simpl; [reflexivity|].
  intros H1 H2.
  apply orb_false_iff in H1 as [E1 H1]. apply orb_false_iff in H2 as [E2 H2].
  now rewrite E1, E2, IH.
Qed.

(** ** The plan hash *)

Lemma planHashItem_line (h : Hasher) (w : WorkItem) :
  planHashItem h w = h +++ idLine (stableId w).
Proof.
  destruct w as [dry obj bk bv].
  unfold planHashItem, idLine, stableId, Fprintf, wKind, getNamespace, getName,
    wStrategy, newline.
  destruct obj; cbn [wObj wDryRun BumpAnnotationKey BumpAnnotationValue
                     idKind idNamespace idName idStrategy idBump kindString].
  4: destruct (strEmpty bk); cbn [negb].
  all: repeat rewrite append_assoc; cbn [String.append]; repeat rewrite append_assoc;
       cbn [String.append]; reflexivity.
Qed.

Lemma planText_from (q : list WorkItem) (h : Hasher) :
  fold_left planHashItem q h
  = h +++ concatLines (map (fun w => idLine (stableId w)) q).
Proof.
  revert h. induction q as [|w q IH]; intros h; simpl.
  - now rewrite append_nil_r.
  - rewrite IH, planHashItem_line. apply append_assoc.
Qed.

Lemma planText_lines (q : list WorkItem) :
  planText q = concatLines (map idLine (map stableId q)).
Proof. unfold planText. rewrite planText_from, map_map. reflexivity. Qed.

Lemma stableId_shaped (w : WorkItem) : idShaped (stableId w).
Proof.
  unfold idShaped, stableId. destruct (wKind w); simpl;
    repeat split; discriminate.
Qed.

Lemma kindString_inj (k1 k2 : Kind) : kindString k1 = kindString k2 -> k1 = k2.
Proof. destruct k1, k2; simpl; intros H; try reflexivity; discriminate. Qed.

Lemma kindString_clean (k : Kind) : hasByte "|" (kindString k) = false.
Proof. destruct k; reflexivity. Qed.

Ltac normin H :=
  repeat first [rewrite append_assoc in H | progress cbn [String.append] in H].

(** Two lines of clean identifiers that agree up to their newline come
    from the same identifiers. *)
Lemma idLine_cut (i1 i2 : StableId) (r1 r2 : string) :
  idClean i1 -> idClean i2 -> idShaped i1 -> idShaped i2 ->
  idLine i1 +++ r1 = idLine i2 +++ r2 -> i1 = i2 /\ r1 = r2.
Proof.
  destruct i1 as [k1 ns1 n1 s1 b1], i2 as [k2 ns2 n2 s2 b2].
  unfold idClean, idShaped, idLine; cbn [idKind idNamespace idName idStrategy idBump].
  intros (Hs1 & Hm1 & Hp1 & HS1 & HB1) (Hs2 & Hm2 & Hp2 & HS2 & HB2) Sh1 Sh2 H.
  normin H.
  apply split_unique in H as [Hk H]; try apply kindString_clean.
  apply kindString_inj in Hk. subst k2.
  apply split_unique in H as [-> H]; try assumption.
  assert (B1 : s1 = None -> b1 = None) by (destruct k1; intuition congruence).
  assert (B2 : s2 = None -> b2 = None) by (destruct k1; intuition congruence).
  clear Sh1 Sh2.
  set (P := fun x => (Ascii.eqb x "|" || Ascii.eqb x newline)%bool).
  assert (Pn1 : anyByte P n1 = false) by (apply anyByte_two; assumption).
  assert (Pn2 : anyByte P n2 = false) by (apply anyByte_two; assumption).
  destruct s1 as [st1|], s2 as [st2|];
    try (rewrite (B1 eq_refl) in * );
    try (rewrite (B2 eq_refl) in * ); clear B1 B2;
    normin H.
  - apply (split_at P) in H as (-> & _ & H); try assumption; try reflexivity.
    destruct (HS1 st1 eq_refl) as [A1 A2]. destruct (HS2 st2 eq_refl) as [A3 A4].
    assert (Ps1 : anyByte P st1 = false) by (apply anyByte_two; assumption).
    assert (Ps2 : anyByte P st2 = false) by (apply anyByte_two; assumption).
    destruct b1 as [[bk1 bv1]|], b2 as [[bk2 bv2]|]; normin H;
      apply (split_at P) in H as (-> & Hc & H); try assumption; try reflexivity;
      try discriminate Hc.
    + destruct (HB1 _ _ eq_refl) as (C1 & C2).
      destruct (HB2 _ _ eq_refl) as (C3 & C4).
      apply split_unique in H as [-> H]; try assumption.
      apply split_unique in H as [-> ->]; try assumption.
      split; reflexivity.
    + subst. split; reflexivity.
  - apply (split_at P) in H as (_ & Hc & _); try assumption; try reflexivity.
    discriminate Hc.
  - apply (split_at P) in H as (_ & Hc & _); try assumption; try reflexivity.
    discriminate Hc.
  - apply (split_at P) in H as (-> & _ & ->); try assumption; try reflexivity.
    split; reflexivity.
Qed.

Lemma idLine_nonempty (i : StableId) (r : string) : idLine i +++ r <> EmptyString.
Proof. unfold idLine. destruct (idKind i); cbn; discriminate. Qed.

Lemma concatLines_inj (l1 l2 : list StableId) :
  Forall idClean l1 -> Forall idClean l2 ->
  Forall idShaped l1 -> Forall idShaped l2 ->
  concatLines (map idLine l1) = concatLines (map idLine l2) -> l1 = l2.
Proof.
  revert l2. induction l1 as [|i1 l1 IH]; intros [|i2 l2] C1 C2 S1 S2 H; simpl in H.
  - reflexivity.
  - symmetry in H. now apply idLine_nonempty in H.
  - now apply idLine_nonempty in H.
  - inversion C1; inversion C2; inversion S1; inversion S2; subst.
    apply idLine_cut in H as [-> H]; try assumption.
    f_equal. now apply IH.
Qed.

(** C1 (amended).  The plan hash is the first 12 hexadecimal digits of the
    SHA-1 of the concatenated lines of the items, the line of an item being
    kind|namespace/name, followed by |strategy for a StatefulSet or a custom
    resource only, followed by |bumpKey=bumpValue for a custom resource with
    a non-empty bump key only, and a newline.  Two plans with the same
    sequence of these identifiers have the same hash, whatever the rest of
    the snapshots; and when no namespace contains "/", no name and no
    strategy that is part of a line contains "|" or a newline, no bump key
    that is part of a line contains "=" and no bump value that is part of a
    line contains a newline, any change of the sequence of identifiers (an
    altered kind, namespace or name, an altered strategy or bump pair where
    it is part of the line, a reordering) changes the text that is hashed. *)
Theorem planHash_stable_identifiers (q1 q2 : list WorkItem) :
  planHash q1
  = strPrefix 12 (hexEncode (SHA1.digest (bytes_of_string
      (concatLines (map idLine (map stableId q1))))))
  /\ (map stableId q1 = map stableId q2 -> planHash q1 = planHash q2)
  /\ (Forall (fun w => idClean (stableId w)) q1 ->
      Forall (fun w => idClean (stableId w)) q2 ->
      map stableId q1 <> map stableId q2 -> planText q1 <> planText q2).
Proof.
  split; [|split].
  - unfold planHash, hashSum. now rewrite planText_lines.
  - intros H. unfold planHash. now rewrite !planText_lines, H.
  - intros C1 C2 Hne Heq. apply Hne.
    rewrite !planText_lines in Heq.
    apply concatLines_inj in Heq; try assumption.
    + apply Forall_map. exact C1.
    + apply Forall_map. exact C2.
    + apply Forall_map, Forall_forall. intros w _. apply stableId_shaped.
    + apply Forall_map, Forall_forall. intros w _. apply stableId_shaped.
Qed.

Lemma sample_clean (strategy : string) :
  hasByte newline strategy = false -> hasByte "|" strategy = false ->
  Forall (fun w => idClean (stableId w)) [sampleStsItem strategy].
Proof.
  intros H1 H2. constructor; [|constructor].
  unfold idClean. cbn. repeat split; try reflexivity.
  - injection H as <-. exact H1.
  - injection H as <-. exact H2.
  - discriminate.
  - discriminate.
Defined.

Lemma planHash_stable_identifiers_witness :
  Forall (fun w => idClean (stableId w)) [sampleStsItem Restart]
  /\ Forall (fun w => idClean (stableId w)) [sampleStsItem Delete]
  /\ map stableId [sampleStsItem Restart] <> map stableId [sampleStsItem Delete]
  /\ planText [sampleStsItem Restart] <> planText [sampleStsItem Delete].
Proof.
  assert (C1 := sample_clean Restart eq_refl eq_refl).
  assert (C2 := sample_clean Delete eq_refl eq_refl).
  assert (N : map stableId [sampleStsItem Restart]
              <> map stableId [sampleStsItem Delete]) by (cbn; discriminate).
  repeat split; try assumption.
  exact (proj2 (proj2 (planHash_stable_identifiers
                         [sampleStsItem Restart] [sampleStsItem Delete])) C1 C2 N).
Defined.

(** The condition on the bump value cannot be dropped: a bump value is
    written as it is, so one that holds a newline can spell the line of a
    further item. *)
Example planText_bump_value_with_newline :
  let cr := mkUnstructured
              [("kind", JString "Widget");
               ("metadata", JObject [("namespace", JString "ns1");
                                     ("name", JString "x")])] in
  let forged := "b" +++ String newline "Deployment|ns1/d1" in
  let q1 := [itemOfCustom Restart (Some (mkBump "a" forged)) cr] in
  let q2 := [itemOfCustom Restart (Some (mkBump "a" "b")) cr;
             sampleDepItem "d1" Restart] in
  map stableId q1 <> map stableId q2
  /\ planText q1 = planText q2
  /\ planHash q1 = planHash q2.
Proof. cbv zeta. split; [cbn; discriminate | split; vm_compute; reflexivity]. Qed.

(** C1, as stated, fails: altering the strategy of a Deployment item leaves
    the plan hash unchanged. *)
Lemma planHash_ignores_deployment_strategy :
  wStrategy (sampleDepItem "d1" Restart) <> wStrategy (sampleDepItem "d1" Delete)
  /\ planHash [sampleDepItem "d1" Restart] = planHash [sampleDepItem "d1" Delete].
Proof. split; [cbn; discriminate | vm_compute; reflexivity]. Qed.

Example planHash_sample :
  planText [sampleDepItem "d1" Restart; sampleStsItem Delete]
  = "Deployment|ns1/d1" +++ String newline
      ("StatefulSet|ns1/s1|rolloutDelete" +++ String newline EmptyString)
  /\ planHash [sampleDepItem "d1" Restart; sampleStsItem Delete] = "b90a39ecf5df".
Proof. split; vm_compute; reflexivity. Qed.

(** ** Status recorder *)

Lemma optEqb_eq {A : Type} (eqb : A -> A -> bool) (x y : option A) :
  (forall a b, eqb a b = true <-> a = b) ->
  (optEqb eqb x y = true <-> x = y).
Proof.
  intros H. destruct x as [a|], y as [b|]; simpl; split; intros E;
    try discriminate; try reflexivity.
  - apply H in E. now subst.
  - injection E as ->. now apply H.
Qed.

Lemma progressEqb_eq (x y : ProgressStatus) : progressEqb x y = true <-> x = y.
Proof.
  destruct x, y. unfold progressEqb. simpl.
  rewrite andb_true_iff, Bool.eqb_true_iff, Z.eqb_eq.
  split; [intros [-> ->]; reflexivity | intros E; injection E; auto].
Qed.

Lemma workRefEqb_eq (x y : WorkRef) : workRefEqb x y = true <-> x = y.
Proof.
  destruct x, y. unfold workRefEqb. simpl.
  rewrite !andb_true_iff, !String.eqb_eq.
  split; [intros [[-> ->] ->]; reflexivity | intros E; injection E; auto].
Qed.

Lemma trustEqb_eq (x y : TrustStatus) : trustEqb x y = true <-> x = y.
Proof.
  destruct x, y. unfold trustEqb. simpl.
  rewrite !andb_true_iff, !String.eqb_eq, (optEqb_eq _ _ _ String.eqb_eq).
  split; [intros [[-> ->] ->]; reflexivity | intros E; injection E; auto].
Qed.

Lemma cursorEqb_eq (x y : RolloutCursor) : cursorEqb x y = true <-> x = y.
Proof.
  destruct x, y. unfold cursorEqb. simpl.
  rewrite !andb_true_iff, !String.eqb_eq, !Z.eqb_eq, (optEqb_eq _ _ _ workRefEqb_eq).
  split; [intros [[[-> ->] ->] ->]; reflexivity | intros E; injection E; auto].
Qed.

Lemma retryEqb_eq (x y : RetryStatus) : retryEqb x y = true <-> x = y.
Proof.
  destruct x, y. unfold retryEqb. simpl.
  rewrite !andb_true_iff, !String.eqb_eq, !Z.eqb_eq,
    (optEqb_eq _ _ _ workRefEqb_eq), (optEqb_eq _ _ _ Z.eqb_eq).
  split; [intros [[[-> ->] ->] ->]; reflexivity | intros E; injection E; auto].
Qed.

(** The comparison of the recorder is equality up to LastUpdated. *)
Lemma statusEqual_iff (x y : Status) :
  statusEqual x y = true <-> setLastUpdated None x = setLastUpdated None y.
Proof.
  destruct x, y. unfold statusEqual, setLastUpdated. simpl.
  rewrite !andb_true_iff, !String.eqb_eq,
    !(optEqb_eq _ _ _ String.eqb_eq), !(optEqb_eq _ _ _ Z.eqb_eq),
    (optEqb_eq _ _ _ progressEqb_eq), (optEqb_eq _ _ _ trustEqb_eq),
    (optEqb_eq _ _ _ retryEqb_eq), (optEqb_eq _ _ _ cursorEqb_eq).
  split.
  - intros [[[[[[[[[-> ->] ->] ->] ->] ->] ->] ->] ->] ->]. reflexivity.
  - intros E. injection E. intros. subst. repeat split.
Qed.

Lemma setLastUpdated_twice (t u : option Time) (st : Status) :
  setLastUpdated t (setLastUpdated u st) = setLastUpdated t st.
Proof. reflexivity. Qed.

(** After Patch the status in memory is the mutated one, up to
    LastUpdated, whether or not a patch was sent. *)
Lemma Patch_status (cl : Cluster) (n : string) (mutate : Status -> Status)
    (s : RState) :
  setLastUpdated None (status (snd (Patch cl n mutate s)))
  = setLastUpdated None (mutate (status s)).
Proof.
  unfold Patch.
  destruct (statusEqual (status s) (mutate (status s))) eqn:E.
  - simpl. now apply statusEqual_iff.
  - destruct (apiStatusPatch cl (world s) _); reflexivity.
Qed.

Lemma Patch_skip (cl : Cluster) (n : string) (mutate : Status -> Status)
    (s : RState) :
  statusEqual (status s) (mutate (status s)) = true ->
  Patch cl n mutate s = (Ok tt, s).
Proof. unfold Patch. now intros ->. Qed.

Lemma Patch_write (cl : Cluster) (n : string) (mutate : Status -> Status)
    (s : RState) :
  statusEqual (status s) (mutate (status s)) = false ->
  let st' := setLastUpdated (Some (now (world s))) (mutate (status s)) in
  Patch cl n mutate s
  = (match apiStatusPatch cl (world s) st' with
     | None => Ok tt
     | Some e => Err e
     end,
     mkRState st' (emit (EvStatusPatch n (status s) st') (world s))).
Proof.
  unfold Patch. intros ->. cbv zeta.
  destruct (apiStatusPatch cl (world s) _); reflexivity.
Qed.

Lemma patchCount_emit (ev : Event) (w : World) :
  patchCount (emit ev w)
  = (patchCount w + if isStatusPatch ev then 1 else 0)%nat.
Proof.
  unfold patchCount, emit. simpl. rewrite filter_app, length_app. simpl.
  destruct (isStatusPatch ev); reflexivity.
Qed.

Lemma mutPhase_idem (p : option Phase) (r : option Reason) (m : option string)
    (x y : Status) :
  setLastUpdated None x = setLastUpdated None (mutPhase p r m y) ->
  statusEqual x (mutPhase p r m x) = true.
Proof.
  intros H. apply statusEqual_iff.
  destruct x, y. unfold setLastUpdated, mutPhase in *. simpl in *.
  injection H. intros. subst. reflexivity.
Qed.

(** C5 (amended).  Every mutator goes through Patch, which applies the
    mutation to a copy of the status and compares old and new with
    lastUpdated ignored: when they are equal it returns without a patch and
    leaves everything as it was; otherwise it stamps lastUpdated = now and
    sends one patch to the status subresource.  Consequently running
    SetPhase twice in succession with the same arguments issues at most one
    patch: one when the first run changes something besides lastUpdated,
    none otherwise; the second run changes nothing. *)
Theorem status_patch_diff_gated (cl : Cluster) (name : string)
    (mutate : Status -> Status) (s : RState) :
  (statusEqual (status s) (mutate (status s)) = true ->
   Patch cl name mutate s = (Ok tt, s))
  /\ (statusEqual (status s) (mutate (status s)) = false ->
      let st' := setLastUpdated (Some (now (world s))) (mutate (status s)) in
      snd (Patch cl name mutate s)
      = mkRState st' (emit (EvStatusPatch name (status s) st') (world s))
      /\ fst (Patch cl name mutate s)
         = match apiStatusPatch cl (world s) st' with
           | None => Ok tt
           | Some e => Err e
           end)
  /\ (forall (p : Phase) (r : Reason) (m : string),
        let s1 := snd (SetPhase cl p r m s) in
        let s2 := snd (SetPhase cl p r m s1) in
        s2 = s1
        /\ patchCount (world s2)
           = (patchCount (world s)
              + if statusEqual (status s)
                     (mutPhase (Some p) (Some r) (Some m) (status s))
                then 0 else 1)%nat).
Proof.
  split; [|split].
  - apply Patch_skip.
  - intros E. cbv zeta. now rewrite (Patch_write _ _ _ _ E).
  - intros p r m s1 s2.
    assert (E2 : statusEqual (status s1)
                   (mutPhase (Some p) (Some r) (Some m) (status s1)) = true).
    { apply mutPhase_idem with (y := status s). apply Patch_status. }
    assert (S2 : s2 = s1).
    { unfold s2, SetPhase. now rewrite (Patch_skip _ _ _ _ E2). }
    split; [exact S2|]. rewrite S2. unfold s1, SetPhase.
    destruct (statusEqual (status s) _) eqn:E.
    + rewrite (Patch_skip _ _ _ _ E). simpl. lia.
    + rewrite (Patch_write _ _ _ _ E). simpl. rewrite patchCount_emit. reflexivity.
Qed.

(** C5, as stated, fails: on a status that already holds the phase, reason
    and message, two runs of SetPhase issue no patch at all, not one. *)
Lemma setPhase_twice_without_patch :
  let s0 := mkRState idleStatus (mkWorld 0 []) in
  let run := SetPhase (sampleCluster [] [] [] noConfigMap) PhaseIdle EmptyString
                      "watching" in
  patchCount (world (snd (run (snd (run s0))))) = 0%nat
  /\ patchCount (world (snd (run (snd (run s0))))) <> 1%nat.
Proof. split; vm_compute; [reflexivity | discriminate]. Qed.

Example setPhase_twice_one_patch :
  let s0 := mkRState emptyStatus (mkWorld 0 []) in
  let run := SetPhase (sampleCluster [] [] [] noConfigMap) PhaseIdle EmptyString
                      "watching" in
  patchCount (world (snd (run s0))) = 1%nat
  /\ patchCount (world (snd (run (snd (run s0))))) = 1%nat.
Proof. split; vm_compute; reflexivity. Qed.

(** ** Sorting *)

Lemma insertStable_perm {A : Type} (less : A -> A -> bool) (x : A) (l : list A) :
  Permutation (x :: l) (insertStable less x l).
Proof.
  induction l as [|y l IH]; simpl; [reflexivity|].
  destruct (less y x); [|reflexivity].
  rewrite perm_swap. now constructor.
Qed.

Lemma sortSliceStable_perm {A : Type} (less : A -> A -> bool) (l : list A) :
  Permutation l (sortSliceStable less l).
Proof.
  induction l as [|x l IH]; simpl; [reflexivity|].
  rewrite <- insertStable_perm. now constructor.
Qed.

Lemma insertStable_sorted {A : Type} (less : A -> A -> bool) (x : A) (l : list A) :
  (forall a b, less a b = true -> less b a = false) ->
  (forall a b c, less a b = false -> less b c = false -> less a c = false) ->
  StronglySorted (fun a b => less b a = false) l ->
  StronglySorted (fun a b => less b a = false) (insertStable less x l).
Proof.
  intros Asym Tr. induction 1 as [|y l Hs IH Hy]; simpl.
  - repeat constructor.
  - destruct (less y x) eqn:E.
    + constructor; [exact IH|].
      apply (Permutation_Forall (insertStable_perm less x l)).
      constructor; [now apply Asym | exact Hy].
    + constructor; [now constructor|].
      constructor; [exact E|].
      apply Forall_forall. intros z Hz.
      rewrite Forall_forall in Hy. apply (Tr z y x); [now apply Hy | exact E].
Qed.

Lemma sortSliceStable_sorted {A : Type} (less : A -> A -> bool) (l : list A) :
  (forall a b, less a b = true -> less b a = false) ->
  (forall a b c, less a b = false -> less b c = false -> less a c = false) ->
  StronglySorted (fun a b => less b a = false) (sortSliceStable less l).
Proof.
  intros Asym Tr. induction l as [|x l IH]; simpl; [constructor|].
  now apply insertStable_sorted.
Qed.

Lemma cutAt_shrinks (c : ascii) (s a b : string) :
  cutAt c s = Some (a, b) -> (String.length b < String.length s)%nat.
Proof.
  revert a b. induction s as [|x s IH]; intros a b H; simpl in *; [discriminate|].
  destruct (Ascii.eqb x c).
  - injection H as <- <-. lia.
  - destruct (cutAt c s) as [[a' b']|]; [|discriminate].
    injection H as <- <-. specialize (IH _ _ eq_refl). lia.
Qed.

Lemma testLib_ok : GoLibOk testLib.
Proof.
  constructor.
  - intros A less l. apply sortSliceStable_perm.
  - intros A less l. apply sortSliceStable_sorted.
  - intros s rest blk H. cbn in H. unfold testPemDecode in H.
    destruct (cutAt ";" s) as [[a b]|] eqn:E; [|discriminate].
    apply cutAt_shrinks in E.
    destruct a as [|x a]; [injection H as <- <-; exact E|].
    destruct (Ascii.eqb x "C") eqn:Ex.
    + apply Ascii.eqb_eq in Ex. subst x. injection H as <- <-. exact E.
    + assert (Some (mkPemBlock "PRIVATE KEY" (String x a), b) = Some (blk, rest)) as H'.
      { rewrite <- H. destruct x as [[] [] [] [] [] [] [] []]; try reflexivity.
        discriminate Ex. }
      injection H' as <- <-. exact E.
Qed.

(** ** Rollout engine *)

Lemma rolloutItem_steps (lib : GoLib) (cl : Cluster) (h : Handlers)
    (spec : LinkerdTrustRotationSpec) (hash : string) (total processed : Z)
    (w : WorkItem) (s : RState) :
  rolloutItem lib cl h spec hash total processed w s
  = (onErr (inWorld (itemSteps lib cl h spec w)) (recordFailure cl w) ;;;
     orRecord cl w (bumpProgress cl hash total processed w)) s.
Proof.
  destruct s as [st0 wd0].
  unfold rolloutItem, itemSteps, orRecord, onErr, bind, inWorld, ret, fail,
    runProxyCheckIfEnabled.
  destruct (wObj w) as [d|sts|d|u].
  all: repeat first
      [ reflexivity
      | progress cbn [status world]
      | match goal with
        | |- context [bumpRestartAnnotation ?a ?b ?c ?d] =>
            destruct (bumpRestartAnnotation a b c d) as [[[]|?] ?]
        | |- context [bumpAnnotationGeneric ?a ?b ?c ?d ?e] =>
            destruct (bumpAnnotationGeneric a b c d e) as [[[]|?] ?]
        | |- context [waitStatefulSetRolledOut ?a ?b ?c ?d ?e] =>
            destruct (waitStatefulSetRolledOut a b c d e) as [[[]|?] ?]
        | |- context [waitDeploymentRolledOut ?a ?b ?c ?d ?e] =>
            destruct (waitDeploymentRolledOut a b c d e) as [[[]|?] ?]
        | |- context [waitDaemonSetRolledOut ?a ?b ?c ?d ?e] =>
            destruct (waitDaemonSetRolledOut a b c d e) as [[[]|?] ?]
        | |- context [waitCRByAnnotationAndStatus ?a ?b ?c ?d ?e ?f ?g ?i] =>
            destruct (waitCRByAnnotationAndStatus a b c d e f g i) as [[[]|?] ?]
        | |- context [restartStatefulSetByDelete ?a ?b ?c ?d ?e] =>
            destruct (restartStatefulSetByDelete a b c d e) as [[[]|?] ?]
        | |- context [if ?b then _ else _] => destruct b
        | |- context [runLinkerdCheckJob ?a ?b ?c ?d ?e ?f ?g] =>
            destruct (runLinkerdCheckJob a b c d e f g) as [[[]|?] ?]
        | |- context [@recordFailure _ ?a ?b ?c ?d] =>
            unfold recordFailure;
            destruct (SetRetry a (Some (workRefOf b))
                        (add64 match Retries (status d) with
                               | Some r => Count r
                               | None => 0
                               end 1) (errText c) d) as [[[]|?] [? ?]]
        end ].
Qed.

(** ** Go int *)

Lemma wrap64_range (x : Z) : - 2 ^ 63 <= wrap64 x < 2 ^ 63.
Proof.
  unfold wrap64.
  pose proof (Z.mod_pos_bound (x + 2 ^ 63) (2 ^ 64) ltac:(lia)). lia.
Qed.

Lemma wrap64_small (x : Z) : - 2 ^ 63 <= x < 2 ^ 63 -> wrap64 x = x.
Proof.
  intros H. unfold wrap64. rewrite Z.mod_small; lia.
Qed.

Lemma add64_succ (x : Z) : - 2 ^ 63 <= x < MaxInt64 -> add64 x 1 = x + 1.
Proof. unfold MaxInt64, add64. intros H. apply wrap64_small. lia. Qed.

(** Incrementing a Go int never gives the same int back. *)
Lemma add64_succ_neq (x : Z) : add64 x 1 <> x.
Proof.
  unfold add64. intros H.
  pose proof (wrap64_range (x + 1)) as R. rewrite H in R.
  destruct (Z.eq_dec x (2 ^ 63 - 1)) as [->|N].
  - vm_compute in H. discriminate.
  - rewrite wrap64_small in H; lia.
Qed.

Lemma recordFailure_spec {A : Type} (cl : Cluster) (item : WorkItem)
    (cause : error) (s : RState) :
  @recordFailure A cl item cause s
  = (Err match apiStatusPatch cl (world s) (failureStatus item cause s) with
         | None => cause
         | Some e => e
         end,
     mkRState (failureStatus item cause s)
              (emit (EvStatusPatch "SetRetry" (status s) (failureStatus item cause s))
                    (world s))).
Proof.
  unfold recordFailure, SetRetry.
  rewrite Patch_write.
  - fold (failureCount (status s)). fold (failureRetry item cause s).
    fold (failureStatus item cause s).
    destruct (apiStatusPatch cl (world s) _); reflexivity.
  - apply not_true_is_false. intros E. apply statusEqual_iff in E.
    apply (f_equal Retries) in E. cbn in E.
    destruct (Retries (status s)) as [r|]; [|discriminate].
    injection E as E. apply (f_equal Count) in E. cbn in E.
    symmetry in E. now apply add64_succ_neq in E.
Qed.



(** ** Cursor *)




Example resume_after_failure :
  let cl := sampleCluster [sampleDeployment "a"; sampleDeployment "b";
                           sampleDeployment "c"] [] [] noConfigMap in
  let spec := sampleSpec [deploymentScope] in
  let q := [sampleDepItem "a" Restart; sampleDepItem "b" Restart;
            sampleDepItem "c" Restart] in
  let s := mkRState (mutCursor (Some (mkCursor (planHash q) 1 3 None)) emptyStatus)
                    (mkWorld 0 []) in
  let out := RestartLinkerdDataPlane testLib cl (testHandlers None) spec s in
  fst out = Ok tt
  /\ Cursor (status (snd out)) = Some (mkCursor (planHash q) 0 3 None)
  /\ filter (fun ev => negb (isStatusPatch ev)) (trace (world (snd out)))
     = [EvPatchAnnotation "Deployment" "ns1" "b" restartedAtKey "t0";
        EvPatchAnnotation "Deployment" "ns1" "c" restartedAtKey "t0"].
Proof. vm_compute. repeat split. Qed.

(** ** Plan builder *)

(** C4 fails on the code: the workloads of a Deployment scope enter the
    plan in the order the API lists them, here b before a, while the
    StatefulSets of the same names are sorted first. *)
Lemma plan_deployments_in_list_order :
  let cl := sampleCluster [sampleDeployment "b"; sampleDeployment "a"]
                          [sampleStatefulSet "b"; sampleStatefulSet "a"]
                          [] noConfigMap in
  queueNames (SelectLinkerdDataPlane cl (sampleSpec [deploymentScope])
                                     (mkWorld 0 []))
  = Some ["b"; "a"]
  /\ queueNames (SelectLinkerdDataPlane cl (sampleSpec [statefulSetScope Restart])
                                        (mkWorld 0 []))
     = Some ["a"; "b"].
Proof. split; vm_compute; reflexivity. Qed.

(** ** Bundle inspector *)

Lemma ltb_leb (a b : string) : String.ltb a b = true -> strLe a b.
Proof.
  unfold String.ltb, strLe, String.leb.
  destruct (String.compare a b); intros H; try discriminate; reflexivity.
Qed.

Lemma not_ltb_leb (a b : string) : String.ltb a b = false -> strLe b a.
Proof.
  unfold String.ltb, strLe, String.leb. rewrite (String.compare_antisym a b).
  destruct (String.compare b a); cbn; intros H; try discriminate; reflexivity.
Qed.

Lemma insertStable_hd (x y : string) (l : list string) :
  strLe y x -> HdRel strLe y l -> HdRel strLe y (insertStable String.ltb x l).
Proof.
  intros Hyx Hl. destruct l as [|z l]; simpl.
  - now constructor.
  - inversion Hl; subst. destruct (String.ltb z x); now constructor.
Qed.

Lemma insertStable_Sorted (x : string) (l : list string) :
  Sorted strLe l -> Sorted strLe (insertStable String.ltb x l).
Proof.
  induction 1 as [|y l Hs IH Hy]; simpl.
  - repeat constructor.
  - destruct (String.ltb y x) eqn:E.
    + constructor; [exact IH|]. apply insertStable_hd; [now apply ltb_leb | exact Hy].
    + constructor; [now constructor|]. constructor. now apply not_ltb_leb.
Qed.

Lemma sortStrings_Sorted (l : list string) : Sorted strLe (sortStrings l).
Proof.
  unfold sortStrings. induction l as [|x l IH]; simpl; [constructor|].
  now apply insertStable_Sorted.
Qed.

Lemma sortStrings_perm (l : list string) : Permutation l (sortStrings l).
Proof. apply sortSliceStable_perm. Qed.

Lemma hexDigit_lower (n : Z) :
  0 <= n < 16 ->
  isLowerHex (hexDigit n) = true /\ lowerByte (hexDigit n) = hexDigit n.
Proof.
  intros H.
  assert (All : forallb (fun k => isLowerHex (hexDigit (Z.of_nat k))
                                  && Ascii.eqb (lowerByte (hexDigit (Z.of_nat k)))
                                               (hexDigit (Z.of_nat k)))
                        (seq 0 16) = true) by reflexivity.
  rewrite forallb_forall in All.
  specialize (All (Z.to_nat n)). rewrite Z2Nat.id in All by lia.
  destruct (andb_prop _ _ (All ltac:(apply in_seq; lia))) as [H1 H2].
  split; [exact H1 | now apply Ascii.eqb_eq].
Qed.

Lemma hexEncode_lower (bs : list Z) :
  Forall (fun b => 0 <= b < 256) bs ->
  allBytes isLowerHex (toLower (hexEncode bs)) = true.
Proof.
  induction 1 as [|b bs Hb _ IH]; [reflexivity|].
  cbn [hexEncode toLower allBytes].
  destruct (hexDigit_lower (b / 16)) as [H1 H2].
  { split; [apply Z.div_pos; lia | apply Z.div_lt_upper_bound; lia]. }
  destruct (hexDigit_lower (b mod 16)) as [H3 H4].
  { apply Z.mod_pos_bound. lia. }
  now rewrite H2, H4, H1, H3, IH.
Qed.

Lemma be_bytes_range (n : nat) (x : Z) :
  Forall (fun b => 0 <= b < 256) (SHA1.be_bytes n x).
Proof.
  induction n as [|n IH]; simpl; constructor; [|exact IH].
  apply Z.mod_pos_bound. lia.
Qed.

Lemma sha256_bytes (m : list Z) : Forall (fun b => 0 <= b < 256) (SHA256.digest m).
Proof.
  unfold SHA256.digest. generalize (SHA256.blocks (List.length (SHA1.pad m))
                                                  SHA256.init (SHA1.pad m)).
  intros l. induction l as [|x l IH]; [constructor|].
  cbn [flat_map]. apply Forall_app. split; [apply be_bytes_range | exact IH].
Qed.

Lemma fingerprint_lower (c : Certificate) :
  allBytes isLowerHex (fingerprint c) = true.
Proof. apply hexEncode_lower, sha256_bytes. Qed.

(** The loop of parsePEMCerts and the blocks of the text. *)
Lemma parsePEMCertsLoop_ok (lib : GoLib) (fuel : nat) (out : list Certificate)
    (s : string) :
  Forall (parses lib)
         (map blkBytes (filter isCertBlock (pemBlocks lib fuel s))) ->
  parsePEMCertsLoop lib fuel out s
  = Ok (out ++ map mkCertificate
                   (map blkBytes (filter isCertBlock (pemBlocks lib fuel s)))).
Proof.
  revert out s. induction fuel as [|fuel IH]; intros out s H; simpl in *.
  - now rewrite app_nil_r.
  - destruct (pemDecode lib s) as [[blk rest]|]; simpl in *.
    + unfold isCertBlock in *.
      destruct (String.eqb (blkType blk) "CERTIFICATE"); simpl in *.
      * inversion H as [|? ? Hp Hr]; subst. unfold parses in Hp. rewrite Hp.
        rewrite IH by exact Hr. now rewrite <- app_assoc.
      * now apply IH.
    + now rewrite app_nil_r.
Qed.

Lemma parsePEMCertsLoop_err (lib : GoLib) (fuel : nat) (out : list Certificate)
    (s : string) :
  Exists (fun der => ~ parses lib der)
         (map blkBytes (filter isCertBlock (pemBlocks lib fuel s))) ->
  exists e, parsePEMCertsLoop lib fuel out s = Err e.
Proof.
  revert out s. induction fuel as [|fuel IH]; intros out s H; simpl in *.
  - inversion H.
  - destruct (pemDecode lib s) as [[blk rest]|]; simpl in *.
    + unfold isCertBlock in *.
      destruct (String.eqb (blkType blk) "CERTIFICATE"); simpl in *.
      * destruct (x509ParseCertificate lib (blkBytes blk)) as [e|] eqn:E.
        -- eexists. reflexivity.
        -- inversion H as [? ? Hp|? ? Hr]; subst.
           ++ exfalso. apply Hp. exact E.
           ++ now apply IH.
      * now apply IH.
    + inversion H.
Qed.

(** Once the fuel exceeds the length of the text, more fuel changes
    nothing: pem.Decode consumes input. *)
Lemma pemBlocks_fuel (lib : GoLib) (Hlib : GoLibOk lib) (f1 f2 : nat) (s : string) :
  (String.length s < f1)%nat -> (String.length s < f2)%nat ->
  pemBlocks lib f1 s = pemBlocks lib f2 s.
Proof.
  revert f2 s. induction f1 as [|f1 IH]; intros f2 s H1 H2; [lia|].
  destruct f2 as [|f2]; [lia|]. simpl.
  destruct (pemDecode lib s) as [[blk rest]|] eqn:E; [|reflexivity].
  apply (pemDecode_shrinks lib Hlib) in E.
  f_equal. apply IH; lia.
Qed.

Lemma parsePEMCertsLoop_fuel (lib : GoLib) (Hlib : GoLibOk lib) (f1 f2 : nat)
    (out : list Certificate) (s : string) :
  (String.length s < f1)%nat -> (String.length s < f2)%nat ->
  parsePEMCertsLoop lib f1 out s = parsePEMCertsLoop lib f2 out s.
Proof.
  revert f2 out s. induction f1 as [|f1 IH]; intros f2 out s H1 H2; [lia|].
  destruct f2 as [|f2]; [lia|]. simpl.
  destruct (pemDecode lib s) as [[blk rest]|] eqn:E; [|reflexivity].
  apply (pemDecode_shrinks lib Hlib) in E.
  destruct (negb _); [apply IH; lia|].
  destruct (x509ParseCertificate lib (blkBytes blk)); [reflexivity|].
  apply IH; lia.
Qed.

Lemma sortStrings_length (l : list string) :
  List.length (sortStrings l) = List.length l.
Proof. symmetry. apply Permutation_length, sortStrings_perm. Qed.

(** X2.  What LoadAndInspectCMBundle returns.  It fails when the ConfigMap
    cannot be fetched, when the key ca-bundle.crt is missing, when the text
    is only white space, when a CERTIFICATE block is not a certificate, and
    when there is no CERTIFICATE block.  Otherwise, with k >= 1 CERTIFICATE
    blocks, all of them certificates, it returns the k certificates in
    bundle order and k fingerprints: the lowercase hexadecimal SHA-256 of
    each DER, sorted; the state is single exactly when k = 1 and overlap
    exactly when k >= 2.  Blocks of other types are ignored. *)
Theorem bundle_inspection (lib : GoLib) (cl : Cluster)
    (spec : LinkerdTrustRotationSpec) (w : World) :
  let got := apiGetConfigMap cl w (linkerdNamespace (Linkerd spec))
                             (TrustRootsConfigMap (Linkerd spec)) in
  let out := LoadAndInspectCMBundle lib cl spec w in
  (forall e, got = Err e -> exists e', out = Err e')
  /\ (forall cm, got = Ok cm -> mapGet configMapDataKey (cmData cm) = None ->
      exists e', out = Err e')
  /\ (forall cm raw,
        got = Ok cm -> mapGet configMapDataKey (cmData cm) = Some raw ->
        let ders := certificateDERs lib raw in
        (allSpace raw = true -> exists e', out = Err e')
        /\ (Exists (fun der => ~ parses lib der) ders -> exists e', out = Err e')
        /\ (ders = [] -> exists e', out = Err e')
        /\ (allSpace raw = false -> Forall (parses lib) ders -> ders <> [] ->
            exists res,
              out = Ok res
              /\ Certs res = map mkCertificate ders
              /\ List.length (Fps res) = List.length ders
              /\ Permutation (map fingerprint (Certs res)) (Fps res)
              /\ Sorted strLe (Fps res)
              /\ Forall (fun fp => allBytes isLowerHex fp = true) (Fps res)
              /\ (State res = BundleStateSingle <-> List.length ders = 1%nat)
              /\ (State res = BundleStateOverlap <-> (2 <= List.length ders)%nat))).
Proof.
  intros got out. unfold out, LoadAndInspectCMBundle. fold got. clear out. clearbody got.
  split; [|split].
  - intros e ->. destruct (isNotFound e); eexists; reflexivity.
  - intros cm -> ->. eexists; reflexivity.
  - intros cm raw Hg Hm. cbv zeta. set (ders := certificateDERs lib raw).
    rewrite Hg, Hm. clear Hg Hm.
    assert (Hempty : ders = [] -> exists e',
      (if allSpace raw
       then Err (Errorf ("configmap " +++ (linkerdNamespace (Linkerd spec) +++ "/"
                          +++ TrustRootsConfigMap (Linkerd spec)) +++ " key "
                          +++ quoted configMapDataKey +++ " is empty"))
       else match parsePEMCerts lib raw with
            | Ok certs =>
                match certs with
                | [] => Err (Errorf ("no CERTIFICATE blocks found in "
                                     +++ linkerdNamespace (Linkerd spec) +++ "/"
                                     +++ TrustRootsConfigMap (Linkerd spec)))
                | [_] => Ok (mkBundleResult certs (sortStrings (map fingerprint certs))
                                            BundleStateSingle)
                | _ :: _ :: _ =>
                    Ok (mkBundleResult certs (sortStrings (map fingerprint certs))
                                       BundleStateOverlap)
                end
            | Err e => Err (Wrapf "parse bundle: " e)
            end) = Err e').
    { intros E. destruct (allSpace raw); [eexists; reflexivity|].
      unfold parsePEMCerts. rewrite parsePEMCertsLoop_ok.
      - fold (certificateDERs lib raw). fold ders. rewrite E. eexists; reflexivity.
      - fold (certificateDERs lib raw). fold ders. rewrite E. constructor. }
    split; [|split; [|split]].
    + intros ->. eexists; reflexivity.
    + intros Hex. destruct (allSpace raw); [eexists; reflexivity|].
      destruct (parsePEMCertsLoop_err lib (S (String.length raw)) [] raw Hex) as [e He].
      unfold parsePEMCerts. rewrite He. eexists; reflexivity.
    + exact Hempty.
    + intros -> Hall Hne.
      unfold parsePEMCerts. rewrite (parsePEMCertsLoop_ok _ _ _ _ Hall).
      fold (certificateDERs lib raw). fold ders. cbn [app].
      destruct ders as [|d1 [|d2 ders']]; [congruence| |].
      * eexists. split; [reflexivity|]. cbn [Certs Fps State].
        split; [reflexivity|]. split; [reflexivity|].
        split; [apply sortStrings_perm|]. split; [apply sortStrings_Sorted|].
        split.
        { constructor; [apply fingerprint_lower | constructor]. }
        cbn [List.length]. split; split; intros H; try discriminate H; try lia.
        reflexivity.
      * eexists. split; [reflexivity|]. cbn [Certs Fps State].
        split; [reflexivity|]. split; [now rewrite sortStrings_length, !length_map|].
        split; [apply sortStrings_perm|]. split; [apply sortStrings_Sorted|].
        split.
        { apply (Permutation_Forall (sortStrings_perm _)).
          apply Forall_forall. intros fp Hin. apply in_map_iff in Hin as (c & <- & _).
          apply fingerprint_lower. }
        cbn [List.length]. split; split; intros H; try discriminate H; try lia.
        reflexivity.
Qed.

Lemma bundle_inspection_witness :
  let cm := Ok (mkConfigMap [(configMapDataKey, "Kkey;C0a;C0b;")]) in
  let cl := sampleCluster [] [] [] cm in
  let spec := sampleSpec [] in
  let out := LoadAndInspectCMBundle testLib cl spec (mkWorld 0 []) in
  certificateDERs testLib "Kkey;C0a;C0b;" = ["0a"; "0b"]
  /\ exists res, out = Ok res /\ List.length (Fps res) = 2%nat
                 /\ State res = BundleStateOverlap.
Proof.
  intros cm cl spec out.
  assert (D : certificateDERs testLib "Kkey;C0a;C0b;" = ["0a"; "0b"])
    by (vm_compute; reflexivity).
  split; [exact D|].
  destruct (proj2 (proj2 (bundle_inspection testLib cl spec (mkWorld 0 [])))
              (mkConfigMap [(configMapDataKey, "Kkey;C0a;C0b;")])
              "Kkey;C0a;C0b;" eq_refl eq_refl) as (_ & _ & _ & H).
  destruct H as (res & Hres & _ & Hlen & _ & _ & _ & _ & Hov).
  - reflexivity.
  - rewrite D. repeat constructor.
  - rewrite D. discriminate.
  - exists res. split; [exact Hres|]. rewrite D in Hlen, Hov. split; [exact Hlen|].
    apply Hov. cbn. lia.
Defined.

(** ** Contents of the plan *)

Lemma fold_addDeployment (k v st : string) (items : list Deployment)
    (res : SelectResult) :
  Queue (fold_left (addDeployment k v st) items res)
  = Queue res ++ map (itemOfDeployment st)
      (filter (fun d => hasAnnotationOnTemplate (depTemplateAnnotations d) k v) items).
Proof.
  revert res. induction items as [|d items IH]; intros res; cbn [fold_left filter].
  - now rewrite app_nil_r.
  - rewrite IH. unfold addDeployment.
    destruct (hasAnnotationOnTemplate (depTemplateAnnotations d) k v);
      [cbn [Queue map]; now rewrite <- app_assoc | reflexivity].
Qed.

Lemma fold_addDaemonSet (k v st : string) (items : list DaemonSet)
    (res : SelectResult) :
  Queue (fold_left (addDaemonSet k v st) items res)
  = Queue res ++ map (itemOfDaemonSet st)
      (filter (fun d => hasAnnotationOnTemplate (dsTemplateAnnotations d) k v) items).
Proof.
  revert res. induction items as [|d items IH]; intros res; cbn [fold_left filter].
  - now rewrite app_nil_r.
  - rewrite IH. unfold addDaemonSet.
    destruct (hasAnnotationOnTemplate (dsTemplateAnnotations d) k v);
      [cbn [Queue map]; now rewrite <- app_assoc | reflexivity].
Qed.

Lemma fold_addStatefulSet (k v st : string) (items : list StatefulSet)
    (res : SelectResult) :
  Queue (fold_left (addStatefulSet k v st) items res)
  = Queue res ++ map (itemOfStatefulSet st)
      (filter (fun d => hasAnnotationOnTemplate (stsTemplateAnnotations d) k v) items).
Proof.
  revert res. induction items as [|d items IH]; intros res; cbn [fold_left filter].
  - now rewrite app_nil_r.
  - rewrite IH. unfold addStatefulSet.
    destruct (hasAnnotationOnTemplate (stsTemplateAnnotations d) k v);
      [cbn [Queue map]; now rewrite <- app_assoc | reflexivity].
Qed.

Lemma fold_addCustom (k v st : string) (bump : option AnnotationBumpOptions)
    (items : list Unstructured) (res : SelectResult) :
  Queue (fold_left (addCustom k v st bump) items res)
  = Queue res ++ map (itemOfCustom st bump)
      (filter (fun cr => crHasTemplateAnnotation cr k v) items).
Proof.
  revert res. induction items as [|d items IH]; intros res; cbn [fold_left filter].
  - now rewrite app_nil_r.
  - rewrite IH. unfold addCustom.
    destruct (crHasTemplateAnnotation d k v); [|reflexivity].
    destruct bump; cbn [Queue map]; now rewrite <- app_assoc.
Qed.

Lemma selectIn_queue {A : Type} (listNs : string -> Res (list A))
    (what : string -> string) (prepare : list A -> list A)
    (add : SelectResult -> A -> SelectResult) (G : list A -> list WorkItem)
    (nss : list string) (res res' : SelectResult) :
  (forall items r, Queue (fold_left add (prepare items) r) = Queue r ++ G items) ->
  selectIn listNs what prepare add nss res = Ok res' ->
  Queue res' = Queue res ++ flat_map (fun ns => G (listed (listNs ns))) nss.
Proof.
  intros Hfold. revert res. induction nss as [|ns nss IH]; intros res H; simpl in H.
  - injection H as <-. cbn. now rewrite app_nil_r.
  - destruct (listNs ns) as [items|e] eqn:E; [|discriminate].
    apply IH in H. rewrite H, Hfold. cbn [flat_map]. rewrite E. cbn [listed].
    now rewrite <- app_assoc.
Qed.

Lemma selectScope_queue (cl : Cluster) (w : World) (k v : string)
    (scope : TargetScope) (res res' : SelectResult) :
  selectScope cl w k v scope res = Ok res' ->
  Queue res' = Queue res ++ scopeItems cl w k v scope.
Proof.
  unfold selectScope, scopeItems, namespaceItems. fold (scopeStrategy scope).
  destruct (AllowedNamespaces scope) as [|ns0 nss] eqn:Ens; [discriminate|].
  cbn [kindString].
  destruct (String.eqb (KindType scope) "DaemonSet").
  { intros H.
    eapply (selectIn_queue _ _ _ _
              (fun items => map (itemOfDaemonSet (scopeStrategy scope))
                 (filter (fun d => hasAnnotationOnTemplate (dsTemplateAnnotations d) k v)
                         items))) in H; [exact H|].
    intros. apply fold_addDaemonSet. }
  destruct (String.eqb (KindType scope) "Deployment").
  { intros H.
    eapply (selectIn_queue _ _ _ _
              (fun items => map (itemOfDeployment (scopeStrategy scope))
                 (filter (fun d => hasAnnotationOnTemplate (depTemplateAnnotations d) k v)
                         items))) in H; [exact H|].
    intros. apply fold_addDeployment. }
  destruct (String.eqb (KindType scope) "CustomResource").
  { destruct (strEmpty (APIGroup scope) || strEmpty (ScopeKind scope)
              || strEmpty (Version scope)); [discriminate|].
    intros H.
    eapply (selectIn_queue _ _ _ _
              (fun items => map (itemOfCustom (scopeStrategy scope) (AnnotationBump scope))
                 (filter (fun cr => crHasTemplateAnnotation cr k v) items))) in H;
      [exact H|].
    intros. apply fold_addCustom. }
  destruct (String.eqb (KindType scope) "StatefulSet").
  { intros H.
    eapply (selectIn_queue _ _ _ _
              (fun items => map (itemOfStatefulSet (scopeStrategy scope))
                 (filter (fun s => hasAnnotationOnTemplate (stsTemplateAnnotations s) k v)
                         (sortSliceStable stsNameLess items)))) in H; [exact H|].
    intros. apply fold_addStatefulSet. }
  discriminate.
Qed.

Lemma selectScopes_queue (cl : Cluster) (w : World) (k v : string)
    (targets : list TargetScope) (res res' : SelectResult) :
  selectScopes cl w k v targets res = Ok res' ->
  Queue res' = Queue res ++ flat_map (scopeItems cl w k v) targets.
Proof.
  revert res. induction targets as [|scope targets IH]; intros res H; simpl in H.
  - injection H as <-. cbn. now rewrite app_nil_r.
  - destruct (selectScope cl w k v scope res) as [r1|e] eqn:E; [|discriminate].
    apply selectScope_queue in E. apply IH in H. rewrite H, E. cbn [flat_map].
    now rewrite <- app_assoc.
Qed.

(** The plan of the targets t1 ++ t2 starts with the plan of t1. *)
Lemma flat_map_scopes_app (cl : Cluster) (w : World) (k v : string)
    (t1 t2 : list TargetScope) :
  flat_map (scopeItems cl w k v) (t1 ++ t2)
  = flat_map (scopeItems cl w k v) t1 ++ flat_map (scopeItems cl w k v) t2.
Proof. apply flat_map_app. Qed.

(** X3.  When SelectLinkerdDataPlane succeeds, the plan is, scope after
    scope as declared and within a scope namespace after namespace as
    declared, the workloads of the scope's kind whose pod template carries
    the selector annotation: Deployments, DaemonSets and custom resources
    in the order the API lists them, StatefulSets in the order of the stable
    sort by name of the API list; each item carries the strategy of its
    scope (rolloutRestart when none is given). *)
Theorem plan_contents (cl : Cluster) (spec : LinkerdTrustRotationSpec)
    (w : World) (result : SelectResult) :
  SelectLinkerdDataPlane cl spec w = Ok result ->
  Queue result
  = flat_map (scopeItems cl w (selKey (Rollout spec)) (selValue (Rollout spec)))
             (Targets (Rollout spec)).
Proof.
  intros H. apply selectScopes_queue in H. exact H.
Qed.

Lemma plan_contents_witness :
  let cl := sampleCluster [sampleDeployment "b"; sampleDeployment "a"]
                          [sampleStatefulSet "z"; sampleStatefulSet "y"]
                          [] noConfigMap in
  let spec := sampleSpec [statefulSetScope Delete; deploymentScope] in
  let q := [sampleStsItem' "y" Delete; sampleStsItem' "z" Delete;
            sampleDepItem "b" Restart; sampleDepItem "a" Restart] in
  SelectLinkerdDataPlane cl spec (mkWorld 0 []) = Ok (mkSelectResult q 2 2 0 0)
  /\ q = flat_map (scopeItems cl (mkWorld 0 []) "linkerd.io/inject" "enabled")
                  [statefulSetScope Delete; deploymentScope].
Proof.
  intros cl spec q.
  assert (H : SelectLinkerdDataPlane cl spec (mkWorld 0 [])
              = Ok (mkSelectResult q 2 2 0 0)) by (vm_compute; reflexivity).
  split; [exact H|]. exact (plan_contents cl spec (mkWorld 0 []) _ H).
Defined.

(** ** Scopes the plan builder refuses *)

Lemma strEmpty_true (s : string) : strEmpty s = true <-> s = EmptyString.
Proof. destruct s; simpl; split; intros H; try reflexivity; discriminate. Qed.

Lemma selectScope_invalid (cl : Cluster) (w : World) (k v : string)
    (scope : TargetScope) (res : SelectResult) :
  scopeInvalid scope -> exists e, selectScope cl w k v scope res = Err e.
Proof.
  unfold selectScope, scopeInvalid. cbn [kindString].
  intros [H|[H|H]].
  - rewrite H. eexists; reflexivity.
  - destruct (AllowedNamespaces scope); [eexists; reflexivity|].
    destruct H as (H1 & H2 & H3 & H4).
    apply String.eqb_neq in H1, H2, H3, H4. rewrite H1, H2, H3, H4.
    eexists; reflexivity.
  - destruct (AllowedNamespaces scope); [eexists; reflexivity|].
    destruct H as (H1 & H2). rewrite H1. cbn [String.eqb Ascii.eqb Bool.eqb].
    replace (strEmpty (APIGroup scope) || strEmpty (ScopeKind scope)
             || strEmpty (Version scope)) with true; [eexists; reflexivity|].
    symmetry. destruct H2 as [ E | [ E | E ] ]; rewrite E; cbn;
      rewrite ?orb_true_r; reflexivity.
Qed.

(** X4.  SelectLinkerdDataPlane fails, whatever the cluster holds, as soon
    as one target scope has no allowed namespace, names a kind other than
    Deployment, StatefulSet, DaemonSet and CustomResource, or is a
    CustomResource scope without apiGroup, kind or version. *)
Theorem plan_rejects_invalid_scope (cl : Cluster)
    (spec : LinkerdTrustRotationSpec) (w : World) :
  Exists scopeInvalid (Targets (Rollout spec)) ->
  exists e, SelectLinkerdDataPlane cl spec w = Err e.
Proof.
  unfold SelectLinkerdDataPlane. intros Hex. generalize emptyResult.
  induction Hex as [scope targets H|scope targets H IH]; intros res; cbn [selectScopes].
  - destruct (selectScope_invalid cl w (selKey (Rollout spec))
                (selValue (Rollout spec)) scope res H) as [e ->].
    eexists; reflexivity.
  - destruct (selectScope cl w _ _ scope res) as [r|e]; [apply IH|eexists; reflexivity].
Qed.

Lemma plan_rejects_invalid_scope_witness :
  let bad := mkScope "Deployment" [] EmptyString EmptyString EmptyString
                     EmptyString None in
  Exists scopeInvalid [deploymentScope; bad]
  /\ exists e, SelectLinkerdDataPlane (sampleCluster [] [] [] noConfigMap)
                 (sampleSpec [deploymentScope; bad]) (mkWorld 0 []) = Err e.
Proof.
  intros bad.
  assert (H : Exists scopeInvalid [deploymentScope; bad]).
  { apply Exists_cons_tl, Exists_cons_hd. left. reflexivity. }
  split; [exact H|].
  exact (plan_rejects_invalid_scope (sampleCluster [] [] [] noConfigMap)
           (sampleSpec [deploymentScope; bad]) (mkWorld 0 []) H).
Defined.

(** ** Counters of the plan *)

Lemma add64_wrap (a : Z) : add64 (wrap64 a) 1 = wrap64 (a + 1).
Proof.
  unfold add64, wrap64. f_equal.
  replace ((a + 2 ^ 63) mod 2 ^ 64 - 2 ^ 63 + 1 + 2 ^ 63)
    with ((a + 2 ^ 63) mod 2 ^ 64 + 1) by lia.
  rewrite Z.add_mod_idemp_l by lia. f_equal. lia.
Qed.

Lemma countKind_snoc (k : Kind) (q : list WorkItem) (w : WorkItem) :
  countKind k (q ++ [w])
  = countKind k q + if kindEqb (wKind w) k then 1 else 0.
Proof.
  unfold countKind. rewrite filter_app, length_app. cbn [filter].
  destruct (kindEqb (wKind w) k); cbn [List.length]; lia.
Qed.

Ltac stats_step :=
  unfold statsOk; cbn [Queue statDeployments statStatefulSets statDaemonSets
                       statCustomResources];
  rewrite !countKind_snoc; cbn [wKind wObj kindEqb];
  rewrite ?Z.add_0_r; intros (H1 & H2 & H3 & H4);
  rewrite ?H1, ?H2, ?H3, ?H4, ?add64_wrap; repeat split; reflexivity.

Lemma addDeployment_stats (k v st : string) (res : SelectResult) (d : Deployment) :
  statsOk res -> statsOk (addDeployment k v st res d).
Proof.
  unfold addDeployment. destruct (hasAnnotationOnTemplate _ k v); [|trivial].
  stats_step.
Qed.

Lemma addDaemonSet_stats (k v st : string) (res : SelectResult) (d : DaemonSet) :
  statsOk res -> statsOk (addDaemonSet k v st res d).
Proof.
  unfold addDaemonSet. destruct (hasAnnotationOnTemplate _ k v); [|trivial].
  stats_step.
Qed.

Lemma addStatefulSet_stats (k v st : string) (res : SelectResult) (d : StatefulSet) :
  statsOk res -> statsOk (addStatefulSet k v st res d).
Proof.
  unfold addStatefulSet. destruct (hasAnnotationOnTemplate _ k v); [|trivial].
  stats_step.
Qed.

Lemma addCustom_stats (k v st : string) (b : option AnnotationBumpOptions)
    (res : SelectResult) (d : Unstructured) :
  statsOk res -> statsOk (addCustom k v st b res d).
Proof.
  unfold addCustom. destruct (crHasTemplateAnnotation d k v); [|trivial].
  destruct b; stats_step.
Qed.

Lemma fold_left_inv {A B : Type} (P : A -> Prop) (f : A -> B -> A) (l : list B)
    (a : A) :
  (forall a b, P a -> P (f a b)) -> P a -> P (fold_left f l a).
Proof.
  intros Hf. revert a. induction l as [|b l IH]; intros a Ha; cbn; [exact Ha|].
  apply IH, Hf, Ha.
Qed.

Lemma selectIn_inv {A : Type} (P : SelectResult -> Prop)
    (listNs : string -> Res (list A)) (what : string -> string)
    (prepare : list A -> list A) (add : SelectResult -> A -> SelectResult)
    (nss : list string) (res res' : SelectResult) :
  (forall r x, P r -> P (add r x)) -> P res ->
  selectIn listNs what prepare add nss res = Ok res' -> P res'.
Proof.
  intros Hadd. revert res. induction nss as [|ns nss IH]; intros res Hres H; simpl in H.
  - now injection H as <-.
  - destruct (listNs ns) as [items|e]; [|discriminate].
    apply IH in H; [exact H|]. now apply fold_left_inv.
Qed.

Lemma selectScope_stats (cl : Cluster) (w : World) (k v : string)
    (scope : TargetScope) (res res' : SelectResult) :
  statsOk res -> selectScope cl w k v scope res = Ok res' -> statsOk res'.
Proof.
  intros Hres. unfold selectScope.
  destruct (AllowedNamespaces scope); [discriminate|].
  repeat match goal with
         | |- context [if ?b then _ else _] => destruct b
         end; try discriminate; apply selectIn_inv; try exact Hres; intros r x;
    first [ apply addDaemonSet_stats | apply addDeployment_stats
          | apply addCustom_stats | apply addStatefulSet_stats ].
Qed.

Lemma countKind_total (q : list WorkItem) :
  countKind KindDeployment q + countKind KindStatefulSet q
  + countKind KindDaemonSet q + countKind KindCR q = Z.of_nat (List.length q).
Proof.
  induction q as [|x q IH]; [reflexivity|].
  unfold countKind in *. cbn [filter].
  destruct (wKind x); cbn [kindEqb List.length]; lia.
Qed.

(** X5.  The counters of a plan count its items: each of the four counters
    is the number of items of its kind in the queue (as a Go int), and for
    a queue of fewer than 2^63 items the four counters are these numbers
    and add up to the length of the queue. *)
Theorem plan_stats_count_queue (cl : Cluster) (spec : LinkerdTrustRotationSpec)
    (w : World) (result : SelectResult) :
  SelectLinkerdDataPlane cl spec w = Ok result ->
  (statDeployments result = wrap64 (countKind KindDeployment (Queue result))
   /\ statStatefulSets result = wrap64 (countKind KindStatefulSet (Queue result))
   /\ statDaemonSets result = wrap64 (countKind KindDaemonSet (Queue result))
   /\ statCustomResources result = wrap64 (countKind KindCR (Queue result)))
  /\ (Z.of_nat (List.length (Queue result)) < 2 ^ 63 ->
      statDeployments result = countKind KindDeployment (Queue result)
      /\ statStatefulSets result = countKind KindStatefulSet (Queue result)
      /\ statDaemonSets result = countKind KindDaemonSet (Queue result)
      /\ statCustomResources result = countKind KindCR (Queue result)
      /\ statDeployments result + statStatefulSets result + statDaemonSets result
         + statCustomResources result = Z.of_nat (List.length (Queue result))).
Proof.
  unfold SelectLinkerdDataPlane.
  assert (G : forall targets res res',
             statsOk res ->
             selectScopes cl w (selKey (Rollout spec)) (selValue (Rollout spec))
                          targets res = Ok res' -> statsOk res').
  { induction targets as [|scope targets IH]; intros res res' Hres H; simpl in H.
    - now injection H as <-.
    - destruct (selectScope cl w _ _ scope res) as [r|e] eqn:E; [|discriminate].
      eapply IH; [|exact H]. eapply selectScope_stats; [exact Hres | exact E]. }
  intros H. apply G in H; [|repeat split; reflexivity].
  split; [exact H|]. intros Hlen. destruct H as (H1 & H2 & H3 & H4).
  assert (B : forall k, 0 <= countKind k (Queue result)
                        <= Z.of_nat (List.length (Queue result))).
  { intros k. unfold countKind. split; [lia|].
    apply inj_le, filter_length_le. }
  assert (S : countKind KindDeployment (Queue result)
              + countKind KindStatefulSet (Queue result)
              + countKind KindDaemonSet (Queue result)
              + countKind KindCR (Queue result)
              = Z.of_nat (List.length (Queue result))).
  { apply countKind_total. }
  rewrite H1, H2, H3, H4.
  assert (W : forall k, wrap64 (countKind k (Queue result)) = countKind k (Queue result)).
  { intros k. apply wrap64_small. specialize (B k). lia. }
  rewrite !W. repeat split; try reflexivity. exact S.
Qed.

Lemma plan_stats_count_queue_witness :
  let cl := sampleCluster [sampleDeployment "b"; sampleDeployment "a"]
                          [sampleStatefulSet "z"] [] noConfigMap in
  let spec := sampleSpec [statefulSetScope Delete; deploymentScope] in
  exists result,
    SelectLinkerdDataPlane cl spec (mkWorld 0 []) = Ok result
    /\ statDeployments result = 2 /\ statStatefulSets result = 1
    /\ List.length (Queue result) = 3%nat.
Proof.
  intros cl spec.
  destruct (SelectLinkerdDataPlane cl spec (mkWorld 0 [])) as [result|e] eqn:E;
    [|vm_compute in E; discriminate E].
  exists result. split; [reflexivity|].
  assert (Q : Queue result
              = [sampleStsItem' "z" Delete; sampleDepItem "b" Restart;
                 sampleDepItem "a" Restart]).
  { vm_compute in E. injection E as <-. reflexivity. }
  destruct (plan_stats_count_queue cl spec (mkWorld 0 []) result E) as (_ & H).
  rewrite Q in H. destruct H as (H1 & H2 & _); [cbn; lia|].
  rewrite H1, H2, Q. repeat split; reflexivity.
Defined.

(** ** Items of the plan *)

Lemma scopeStrategy_nonempty (scope : TargetScope) :
  scopeStrategy scope <> EmptyString.
Proof.
  unfold scopeStrategy. destruct (RolloutStrategy scope); cbn; discriminate.
Qed.

Lemma namespaceItems_coherent (cl : Cluster) (w : World) (k v : string)
    (scope : TargetScope) (ns : string) (x : WorkItem) :
  In x (namespaceItems cl w k v scope ns) ->
  itemCoherent x /\ itemSelected k v x = true
  /\ wStrategy x = scopeStrategy scope
  /\ kindString (wKind x) = KindType scope.
Proof.
  unfold namespaceItems.
  pose proof (scopeStrategy_nonempty scope) as Hst.
  destruct (String.eqb_spec (KindType scope) "DaemonSet") as [E1|_];
    [|destruct (String.eqb_spec (KindType scope) "Deployment") as [E2|_];
      [|destruct (String.eqb_spec (KindType scope) "CustomResource") as [E3|_];
        [|destruct (String.eqb_spec (KindType scope) "StatefulSet") as [E4|_]]]];
    intros Hin; try (now destruct Hin);
    apply in_map_iff in Hin as (o & <- & Hin);
    apply filter_In in Hin as (_ & Hsel);
    (split; [|split; [exact Hsel|split; [reflexivity|now symmetry]]]);
    unfold itemCoherent; cbn; repeat split; try assumption; try discriminate;
    intros; exfalso; auto.
Qed.

(** X6.  Every item of a plan SelectLinkerdDataPlane returns comes from a
    declared scope of its kind and from the workloads listed for that
    scope, carries the selector annotation, repeats in its dry-run fields
    the kind, namespace and name of its snapshot, has the strategy of its
    scope, which is never empty, and carries a bump annotation only when it
    is a custom resource. *)
Theorem plan_items_coherent (cl : Cluster) (spec : LinkerdTrustRotationSpec)
    (w : World) (result : SelectResult) (x : WorkItem) :
  SelectLinkerdDataPlane cl spec w = Ok result ->
  In x (Queue result) ->
  itemCoherent x
  /\ itemSelected (selKey (Rollout spec)) (selValue (Rollout spec)) x = true
  /\ exists scope,
       In scope (Targets (Rollout spec))
       /\ KindType scope = kindString (wKind x)
       /\ wStrategy x = scopeStrategy scope
       /\ In (getNamespace x, getName x)
             (map (fun i => (getNamespace i, getName i))
                  (scopeItems cl w (selKey (Rollout spec)) (selValue (Rollout spec))
                              scope)).
Proof.
  intros H Hin. rewrite (plan_contents _ _ _ _ H) in Hin.
  apply in_flat_map in Hin as (scope & Hscope & Hin).
  pose proof Hin as Hin'. unfold scopeItems in Hin.
  apply in_flat_map in Hin as (ns & Hns & Hin).
  destruct (namespaceItems_coherent _ _ _ _ _ _ _ Hin) as (Hc & Hs & Hst & Hk).
  split; [exact Hc|]. split; [exact Hs|].
  exists scope. repeat split; try assumption; try (now symmetry).
  apply in_map_iff. exists x. split; [reflexivity | exact Hin'].
Qed.

(** ** Order of strings *)

Lemma ltb_lt (a b : string) : String.ltb a b = true <-> OrderedTypeEx.String_as_OT.lt a b.
Proof.
  unfold String.ltb. rewrite <- OrderedTypeEx.String_as_OT.cmp_lt. unfold OrderedTypeEx.String_as_OT.cmp.
  destruct (String.compare a b); split; intros H; try reflexivity; discriminate.
Qed.

Lemma ltb_asym (a b : string) : String.ltb a b = true -> String.ltb b a = false.
Proof.
  intros H. apply not_true_is_false. intros H'.
  apply ltb_lt in H, H'.
  exact (OrderedTypeEx.String_as_OT.lt_not_eq _ _ (OrderedTypeEx.String_as_OT.lt_trans _ _ _ H H') eq_refl).
Qed.

Lemma ltb_false_iff (a b : string) :
  String.ltb a b = false <-> a = b \/ String.ltb b a = true.
Proof.
  unfold String.ltb. rewrite (String.compare_antisym b a).
  destruct (String.compare a b) eqn:E; cbn; split; intros H;
    try reflexivity; try discriminate; try (now right).
  - left. now apply String.compare_eq_iff.
  - destruct H as [->|H]; [|discriminate].
    pose proof (proj2 (OrderedTypeEx.String_as_OT.cmp_eq b b) eq_refl) as X.
    unfold OrderedTypeEx.String_as_OT.cmp in X. rewrite X in E. discriminate.
Qed.

Lemma ltb_negtrans (a b c : string) :
  String.ltb a b = false -> String.ltb b c = false -> String.ltb a c = false.
Proof.
  intros H1 H2. apply ltb_false_iff in H1, H2. apply ltb_false_iff.
  destruct H1 as [->|H1]; [exact H2|]. destruct H2 as [->|H2]; [now right|].
  right. apply ltb_lt. apply ltb_lt in H1, H2.
  exact (OrderedTypeEx.String_as_OT.lt_trans _ _ _ H2 H1).
Qed.

Lemma StronglySorted_filter {A : Type} (R : A -> A -> Prop) (p : A -> bool)
    (l : list A) :
  StronglySorted R l -> StronglySorted R (filter p l).
Proof.
  induction 1 as [|x l Hs IH Hx]; cbn; [constructor|].
  destruct (p x); [|exact IH]. constructor; [exact IH|].
  apply Forall_forall. intros y Hy. apply filter_In in Hy as [Hy _].
  rewrite Forall_forall in Hx. now apply Hx.
Qed.

Lemma StronglySorted_map {A B : Type} (R : A -> A -> Prop) (S : B -> B -> Prop)
    (f : A -> B) (l : list A) :
  (forall a b, R a b -> S (f a) (f b)) ->
  StronglySorted R l -> StronglySorted S (map f l).
Proof.
  intros HRS. induction 1 as [|x l Hs IH Hx]; cbn; constructor; [exact IH|].
  apply Forall_map. eapply Forall_impl; [|exact Hx]. intros; now apply HRS.
Qed.

(** X7.  Within one namespace of a StatefulSet scope the plan holds
    exactly the listed StatefulSets that carry the selector annotation, in
    ascending order of their names. *)
Theorem statefulsets_sorted_by_name (cl : Cluster) (w : World) (k v : string)
    (scope : TargetScope) (ns : string) :
  KindType scope = "StatefulSet" ->
  let names := map getName (namespaceItems cl w k v scope ns) in
  StronglySorted strLe names
  /\ (forall name, In name names ->
        exists sts, In sts (listed (apiListStatefulSets cl w ns))
                    /\ Name (stsMeta sts) = name
                    /\ hasAnnotationOnTemplate (stsTemplateAnnotations sts) k v = true)
  /\ (forall sts, In sts (listed (apiListStatefulSets cl w ns)) ->
        hasAnnotationOnTemplate (stsTemplateAnnotations sts) k v = true ->
        In (Name (stsMeta sts)) names).
Proof.
  intros E names. unfold names, namespaceItems. rewrite E.
  cbn [String.eqb Ascii.eqb Bool.eqb]. rewrite map_map. cbn [getName itemOfStatefulSet wObj].
  split; [|split].
  - apply (StronglySorted_map (fun a b => stsNameLess b a = false)).
    + intros a b H. now apply not_ltb_leb.
    + apply StronglySorted_filter, sortSliceStable_sorted.
      * intros a b. apply ltb_asym.
      * intros a b c. apply ltb_negtrans.
  - intros name Hin. apply in_map_iff in Hin as (sts & Hn & Hin).
    apply filter_In in Hin as (Hin & Hsel).
    exists sts. repeat split; try assumption.
    eapply Permutation_in; [|exact Hin]. apply Permutation_sym, sortSliceStable_perm.
  - intros sts Hin Hsel. apply in_map_iff. exists sts. split; [reflexivity|].
    apply filter_In. split; [|exact Hsel].
    eapply Permutation_in; [|exact Hin]. apply sortSliceStable_perm.
Qed.

Lemma statefulsets_sorted_by_name_witness :
  let cl := sampleCluster [] [sampleStatefulSet "z"; sampleStatefulSet "y"]
                          [] noConfigMap in
  KindType (statefulSetScope Delete) = "StatefulSet"
  /\ StronglySorted strLe
       (map getName (namespaceItems cl (mkWorld 0 []) "linkerd.io/inject" "enabled"
                                    (statefulSetScope Delete) "ns1")).
Proof.
  intros cl. split; [reflexivity|].
  exact (proj1 (statefulsets_sorted_by_name cl (mkWorld 0 []) "linkerd.io/inject"
                  "enabled" (statefulSetScope Delete) "ns1" eq_refl)).
Defined.

Lemma plan_items_coherent_witness :
  let cl := sampleCluster [sampleDeployment "b"] [] [] noConfigMap in
  let spec := sampleSpec [deploymentScope] in
  SelectLinkerdDataPlane cl spec (mkWorld 0 [])
  = Ok (mkSelectResult [sampleDepItem "b" Restart] 1 0 0 0)
  /\ itemCoherent (sampleDepItem "b" Restart).
Proof.
  intros cl spec.
  assert (H : SelectLinkerdDataPlane cl spec (mkWorld 0 [])
              = Ok (mkSelectResult [sampleDepItem "b" Restart] 1 0 0 0))
    by (vm_compute; reflexivity).
  split; [exact H|].
  exact (proj1 (plan_items_coherent cl spec (mkWorld 0 []) _
                  (sampleDepItem "b" Restart) H (or_introl eq_refl))).
Defined.

(** ** Pod ordinals *)

Lemma digit_facts (c : ascii) :
  isDigit c = true ->
  isSpaceByte c = false /\ Ascii.eqb c "+" = false /\ Ascii.eqb c "-" = false
  /\ 0 <= Z.of_nat (nat_of_ascii c) - 48 <= 9.
Proof.
  destruct c as [[] [] [] [] [] [] [] []]; cbn; intros H; try discriminate H;
    repeat split; try reflexivity; lia.
Qed.

Lemma scanDigits_nonneg (s : string) (acc : Z) : 0 <= acc -> 0 <= scanDigits acc s.
Proof.
  revert acc. induction s as [|c s IH]; intros acc H; cbn [scanDigits]; [exact H|].
  destruct (isDigit c) eqn:E; [|exact H].
  apply IH. destruct (digit_facts c E) as (_ & _ & _ & D). lia.
Qed.

Lemma afterLastDash_none (s : string) :
  hasByte "-" s = false -> afterLastDash s = None.
Proof.
  induction s as [|c s IH]; cbn; [reflexivity|].
  intros H. apply orb_false_iff in H as [H1 H2]. now rewrite (IH H2), H1.
Qed.

Lemma afterLastDash_clean (s t : string) :
  afterLastDash s = Some t -> hasByte "-" t = false.
Proof.
  revert t. induction s as [|c s IH]; intros t H; cbn in H; [discriminate|].
  destruct (afterLastDash s) as [u|] eqn:E.
  - injection H as <-. now apply IH.
  - destruct (Ascii.eqb c "-"); [|discriminate]. injection H as <-.
    clear IH. induction s as [|d s IHs]; [reflexivity|]. cbn in *.
    destruct (afterLastDash s) as [u|]; [discriminate|].
    destruct (Ascii.eqb d "-"); [discriminate|]. now apply IHs.
Qed.

Lemma afterLastDash_app (base t : string) :
  hasByte "-" t = false -> afterLastDash (base +++ String "-" t) = Some t.
Proof.
  intros H. induction base as [|c base IH]; cbn.
  - now rewrite (afterLastDash_none t H).
  - now rewrite IH.
Qed.

Lemma skipBlanks_clean (c : ascii) (s : string) :
  hasByte c s = false -> hasByte c (skipBlanks s) = false.
Proof.
  induction s as [|x s IH]; cbn; [trivial|].
  intros H.
  match goal with |- context [if ?b then _ else _] => destruct b end.
  - apply IH. now apply orb_false_iff in H as [_ H].
  - exact H.
Qed.

Lemma sscanfInt_range (s : string) (v : Z) :
  hasByte "-" s = false -> sscanfInt s = Some v -> 0 <= v <= MaxInt64.
Proof.
  intros Hc. unfold sscanfInt. apply (skipBlanks_clean "-") in Hc.
  destruct (skipBlanks s) as [|c r]; [discriminate|].
  cbn in Hc. apply orb_false_iff in Hc as [Hc _]. rewrite Hc.
  assert (G : forall t, match t with
                        | EmptyString => None
                        | String c0 _ =>
                            if isDigit c0
                            then if (- 2 ^ 63 <=? 1 * scanDigits 0 t)
                                    && (1 * scanDigits 0 t <=? MaxInt64)
                                 then Some (1 * scanDigits 0 t) else None
                            else None
                        end = Some v -> 0 <= v <= MaxInt64).
  { intros [|c0 t]; [discriminate|]. destruct (isDigit c0); [|discriminate].
    destruct (_ && _) eqn:B; [|discriminate]. intros H.
    assert (Hv : 1 * scanDigits 0 (String c0 t) = v) by congruence.
    apply andb_true_iff in B as [_ B]. apply Z.leb_le in B.
    pose proof (scanDigits_nonneg (String c0 t) 0 ltac:(lia)). lia. }
  destruct (Ascii.eqb c "+"); [apply (G r) | apply (G (String c r))].
Qed.

Lemma uint_digits (d : Decimal.uint) :
  allBytes isDigit (NilEmpty.string_of_uint d) = true.
Proof. induction d; cbn; try reflexivity; exact IHd. Qed.

Lemma digits_clean (s : string) :
  allBytes isDigit s = true -> hasByte "-" s = false.
Proof.
  induction s as [|c s IH]; cbn; [reflexivity|].
  intros H. apply andb_true_iff in H as [H1 H2].
  destruct (digit_facts c H1) as (_ & _ & -> & _). now apply IH.
Qed.

Lemma scan_uint_acc (d : Decimal.uint) (acc : positive) :
  scanDigits (Zpos acc) (NilEmpty.string_of_uint d) = Zpos (Pos.of_uint_acc d acc).
Proof.
  revert acc. induction d; intros acc; cbn [NilEmpty.string_of_uint scanDigits Pos.of_uint_acc];
    try reflexivity;
    (replace (isDigit _) with true by reflexivity);
    rewrite <- IHd; f_equal;
    match goal with
    | |- context [Z.of_nat (nat_of_ascii ?c) - 48] =>
        let v := eval vm_compute in (Z.of_nat (nat_of_ascii c) - 48) in
        change (Z.of_nat (nat_of_ascii c) - 48) with v
    end; lia.
Qed.

Lemma scan_uint (d : Decimal.uint) :
  scanDigits 0 (NilEmpty.string_of_uint d) = Z.of_N (Pos.of_uint d).
Proof.
  induction d; cbn [NilEmpty.string_of_uint scanDigits Pos.of_uint]; try reflexivity;
    (replace (isDigit _) with true by reflexivity);
    first [ exact IHd | cbn [Z.of_N]; rewrite <- scan_uint_acc; reflexivity ].
Qed.

Lemma nilzero_nonnil (d : Decimal.uint) :
  d <> Decimal.Nil -> NilZero.string_of_uint d = NilEmpty.string_of_uint d.
Proof. destruct d; intros H; [now elim H|reflexivity..]. Qed.

Lemma uint_nonempty (d : Decimal.uint) :
  d <> Decimal.Nil -> NilEmpty.string_of_uint d <> EmptyString.
Proof. destruct d; intros H; [now elim H|discriminate..]. Qed.

Lemma showZ_digits (n : Z) :
  0 <= n ->
  allBytes isDigit (showZ n) = true /\ showZ n <> EmptyString
  /\ scanDigits 0 (showZ n) = n.
Proof.
  intros H. unfold showZ. destruct n as [|p|p]; [repeat split; discriminate| |lia].
  cbn [Z.to_int NilZero.string_of_int].
  pose proof (DecimalPos.Unsigned.to_uint_nonnil p) as Hn.
  rewrite (nilzero_nonnil _ Hn).
  split; [apply uint_digits|]. split; [now apply uint_nonempty|].
  rewrite scan_uint, DecimalPos.Unsigned.of_to. reflexivity.
Qed.

Lemma sscanfInt_digits (s : string) :
  allBytes isDigit s = true -> s <> EmptyString ->
  0 <= scanDigits 0 s <= MaxInt64 -> sscanfInt s = Some (scanDigits 0 s).
Proof.
  intros Hd Hne Hr. destruct s as [|c r]; [now elim Hne|].
  cbn in Hd. apply andb_true_iff in Hd as [Hc _].
  destruct (digit_facts c Hc) as (S1 & S2 & S3 & _).
  unfold sscanfInt. cbn [skipBlanks]. rewrite S1. cbn [andb].
  rewrite S2, S3, Hc.
  replace (1 * scanDigits 0 (String c r)) with (scanDigits 0 (String c r)) by lia.
  replace (- 2 ^ 63 <=? scanDigits 0 (String c r)) with true
    by (symmetry; apply Z.leb_le; lia).
  replace (scanDigits 0 (String c r) <=? MaxInt64) with true
    by (symmetry; apply Z.leb_le; lia).
  reflexivity.
Qed.

(** X8. podOrdinal never returns less than -1 nor more than the largest int;
    a name without '-' has ordinal -1; and a name that ends in '-' followed
    by the decimal text of n (0 <= n <= MaxInt64) has ordinal n, whatever
    comes before that dash (dashes included). *)
Theorem podOrdinal_parses_suffix (name : string) :
  (- 1 <= podOrdinal name <= MaxInt64)
  /\ (hasByte "-" name = false -> podOrdinal name = - 1)
  /\ (forall base n, 0 <= n <= MaxInt64 ->
        podOrdinal (base +++ "-" +++ showZ n) = n).
Proof.
  split; [|split].
  - unfold podOrdinal. destruct (afterLastDash name) as [sfx|] eqn:E; [|unfold MaxInt64; lia].
    destruct (sscanfInt sfx) as [v|] eqn:V; [|unfold MaxInt64; lia].
    apply afterLastDash_clean in E. pose proof (sscanfInt_range _ _ E V). lia.
  - intros H. unfold podOrdinal. now rewrite (afterLastDash_none _ H).
  - intros base n Hn. destruct (showZ_digits n ltac:(lia)) as (D1 & D2 & D3).
    unfold podOrdinal. cbn [String.append].
    rewrite afterLastDash_app by (now apply digits_clean).
    rewrite sscanfInt_digits; rewrite ?D3; auto.
Qed.

Lemma podOrdinal_parses_suffix_witness :
  hasByte "-" "web" = false /\ podOrdinal "web" = - 1
  /\ 0 <= 12 <= MaxInt64 /\ podOrdinal "my-web-12" = 12.
Proof.
  split; [reflexivity|]. split.
  - exact (proj1 (proj2 (podOrdinal_parses_suffix "web")) eq_refl).
  - split; [unfold MaxInt64; lia|].
    exact (proj2 (proj2 (podOrdinal_parses_suffix EmptyString)) "my-web" 12
             ltac:(unfold MaxInt64; lia)).
Defined.

(** ** Restart of a StatefulSet by deleting its pods *)

Lemma pollPodReady_outcome (cl : Cluster) (ns name : string) (deadline : Time)
    (fuel : nat) (w : World) :
  deadline - now w <= 2 * Second * Z.of_nat fuel ->
  let '(r, w') := pollPodReady cl ns name deadline fuel w in
  trace w' = trace w
  /\ ((now w' = now w /\ r <> Ok tt) \/ now w < now w' < deadline + 2 * Second)
  /\ WaitOutcome cl ns name deadline r w'.
Proof.
  revert w. induction fuel as [|fuel IH]; intros w Hf.
  - cbn [pollPodReady]. split; [reflexivity|]. split; [left; split; [reflexivity|discriminate]|].
    right; right; right. split; [reflexivity|]. lia.
  - cbn [pollPodReady]. destruct (now w <? deadline) eqn:Hd.
    + apply Z.ltb_lt in Hd. destruct (ctxDone cl w) eqn:Hc.
      * split; [reflexivity|]. split; [left; split; [reflexivity|discriminate]|].
        right; left. auto.
      * assert (Hs : 0 < 2 * Second) by (unfold Second; lia).
        assert (Hf' : deadline - now (elapse (2 * Second) w)
                      <= 2 * Second * Z.of_nat fuel) by (cbn [elapse now]; lia).
        specialize (IH (elapse (2 * Second) w) Hf').
        assert (Hrec : let '(r, w') := pollPodReady cl ns name deadline fuel
                                         (elapse (2 * Second) w) in
                       trace w' = trace w
                       /\ ((now w' = now w /\ r <> Ok tt)
                           \/ now w < now w' < deadline + 2 * Second)
                       /\ WaitOutcome cl ns name deadline r w').
        { destruct (pollPodReady cl ns name deadline fuel (elapse (2 * Second) w))
            as [r w'].
          destruct IH as (T & N & O). cbn [elapse now trace] in T, N.
          split; [exact T|]. split; [right; lia|exact O]. }
        destruct (apiGetPod cl (elapse (2 * Second) w) ns name) as [cur|e] eqn:G.
        -- destruct (podBack cur) eqn:B; [|exact Hrec].
           split; [reflexivity|]. split; [right; cbn [elapse now]; lia|].
           left. split; [reflexivity|]. now exists cur.
        -- destruct (isNotFound e) eqn:NF; [exact Hrec|].
           split; [reflexivity|]. split; [right; cbn [elapse now]; lia|].
           right; right; left. now exists e.
    + apply Z.ltb_ge in Hd. split; [reflexivity|].
      split; [left; split; [reflexivity|discriminate]|].
      right; right; right. split; [reflexivity|exact Hd].
Qed.

Lemma pollFuel_enough (timeout : Duration) :
  timeout <= 2 * Second * Z.of_nat (pollFuel timeout).
Proof.
  unfold pollFuel. rewrite Nat2Z.inj_succ.
  assert (Hs : 0 < 2 * Second) by (unfold Second; lia).
  destruct (Z_lt_le_dec timeout 0) as [Hn|Hp].
  - nia.
  - rewrite Z2Nat.id by (apply Z.add_nonneg_nonneg; [apply Z.div_pos; lia|lia]).
    pose proof (Z.mul_succ_div_gt timeout (2 * Second) Hs). lia.
Qed.

Lemma pollPodReady_fuel (cl : Cluster) (ns name : string) (deadline : Time)
    (fuel fuel' : nat) (w : World) :
  deadline - now w <= 2 * Second * Z.of_nat fuel -> (fuel <= fuel')%nat ->
  pollPodReady cl ns name deadline fuel' w = pollPodReady cl ns name deadline fuel w.
Proof.
  revert fuel' w. induction fuel as [|fuel IH]; intros fuel' w Hf Hle.
  - destruct fuel' as [|fuel']; [reflexivity|]. cbn [pollPodReady].
    replace (now w <? deadline) with false; [reflexivity|].
    symmetry. apply Z.ltb_ge. lia.
  - destruct fuel' as [|fuel']; [lia|]. cbn [pollPodReady].
    destruct (now w <? deadline) eqn:Hd; [|reflexivity].
    destruct (ctxDone cl w); [reflexivity|].
    assert (E : pollPodReady cl ns name deadline fuel' (elapse (2 * Second) w)
                = pollPodReady cl ns name deadline fuel (elapse (2 * Second) w)).
    { apply IH; [cbn [elapse now]; unfold Second in *; lia|lia]. }
    now rewrite E.
Qed.

(** X9. deletePodAndWaitSameNameReady issues exactly one pod deletion
    (background propagation, the pod's own grace period), whatever happens
    next.  A deletion error other than NotFound is returned at once, wrapped,
    without waiting.  Otherwise (NotFound included) the wait ends in one of
    four ways: the pod of that name was fetched running, ready and not
    terminating (success); the context was found cancelled before the
    deadline; a fetch failed with an error other than NotFound, which is
    returned; or the deadline was reached (timeout error).  The wait never
    lasts longer than the timeout rounded up to the next 2-second tick, and
    success takes at least one tick. *)
Theorem delete_pod_waits_until_ready (cl : Cluster) (p : Pod) (timeout : Duration)
    (w : World) :
  let ns := Namespace (podMeta p) in
  let name := Name (podMeta p) in
  let '(r, w') := deletePodAndWaitSameNameReady cl p timeout w in
  trace w' = trace w ++ [deleteEvent p]
  /\ ((now w' = now w /\ r <> Ok tt) \/ now w < now w' < now w + timeout + 2 * Second)
  /\ ((exists e, apiDeletePod cl w ns name = Some e /\ isNotFound e = false
                 /\ r = Err (Wrapf ("delete pod " +++ ns +++ "/" +++ name +++ ": ") e)
                 /\ now w' = now w)
      \/ ((forall e, apiDeletePod cl w ns name = Some e -> isNotFound e = true)
          /\ WaitOutcome cl ns name (now w + timeout) r w')).
Proof.
  intros ns name. unfold deletePodAndWaitSameNameReady. fold ns name.
  cbv zeta.
  set (w1 := emit (EvDeletePod ns name None "Background") w).
  assert (Hw : forall r w',
             pollPodReady cl ns name (now w1 + timeout) (pollFuel timeout) w1 = (r, w') ->
             trace w' = trace w ++ [deleteEvent p]
             /\ ((now w' = now w /\ r <> Ok tt)
                 \/ now w < now w' < now w + timeout + 2 * Second)
             /\ WaitOutcome cl ns name (now w + timeout) r w').
  { intros r w' E.
    pose proof (pollPodReady_outcome cl ns name (now w1 + timeout) (pollFuel timeout) w1) as H.
    rewrite E in H. cbn [w1 emit now trace] in H.
    apply H. pose proof (pollFuel_enough timeout). lia. }
  destruct (apiDeletePod cl w ns name) as [e|] eqn:D.
  - destruct (isNotFound e) eqn:NF.
    + destruct (pollPodReady _ _ _ _ _ w1) as [r w'] eqn:E.
      destruct (Hw r w' eq_refl) as (T & N & O).
      split; [exact T|]. split; [exact N|]. right. split; [|exact O].
      intros e' He'. congruence.
    + split; [reflexivity|]. split; [left; split; [reflexivity|discriminate]|].
      left. exists e. auto.
  - destruct (pollPodReady _ _ _ _ _ w1) as [r w'] eqn:E.
    destruct (Hw r w' eq_refl) as (T & N & O).
    split; [exact T|]. split; [exact N|]. right. split; [|exact O].
    intros e' He'. discriminate.
Qed.

Lemma deletePodsInOrder_spec (cl : Cluster) (stsName : string) (pods : list Pod)
    (t : Duration) (w : World) :
  let '(r, w') := deletePodsInOrder cl stsName pods t w in
  exists done rest,
    pods = done ++ rest
    /\ trace w' = trace w ++ map deleteEvent done
    /\ (r = Ok tt -> rest = [] /\ DeletedInTurn cl t w pods w')
    /\ (forall e, r = Err e ->
          exists pre p cause,
            done = pre ++ [p] /\ e = Wrapf (rolloutDeletePrefix stsName p) cause).
Proof.
  revert w. induction pods as [|p pods IH]; intros w.
  - cbn. exists [], []. split; [reflexivity|]. split; [now rewrite app_nil_r|].
    split; [intros _; split; [reflexivity|constructor]|discriminate].
  - cbn [deletePodsInOrder]. unfold bind, onErr, fail.
    pose proof (delete_pod_waits_until_ready cl p t w) as H. cbv zeta in H.
    destruct (deletePodAndWaitSameNameReady cl p t w) as [[[]|e] w1].
    + destruct H as (T & N & O).
      specialize (IH w1).
      destruct (deletePodsInOrder cl stsName pods t w1) as [r w'].
      destruct IH as (done & rest & E & T' & HOk & HErr).
      exists (p :: done), rest. split; [now rewrite E|].
      split; [rewrite T', T, <- app_assoc; reflexivity|]. split.
      * intros Hr. destruct (HOk Hr) as [-> Hd]. split; [reflexivity|].
        destruct O as [(e & _ & _ & Habs & _)|[_ O]]; [discriminate|].
        destruct O as [[_ (cur & G & B)]|[[Habs _]|[(e & Habs & _)|[Habs _]]]];
          try discriminate.
        destruct N as [[_ Habs]|N]; [now elim Habs|].
        now apply (DeletedNext cl t w w1 w' p cur pods).
      * intros e Hr. destruct (HErr e Hr) as (pre & q & cause & -> & ->).
        now exists (p :: pre), q, cause.
    + destruct H as (T & N & O).
      exists [p], pods. split; [reflexivity|]. split; [exact T|].
      split; [discriminate|]. intros e' He'. injection He' as <-.
      now exists [], p, e.
Qed.

Lemma ordinalGreater_asym (a b : Pod) :
  ordinalGreater a b = true -> ordinalGreater b a = false.
Proof. unfold ordinalGreater. rewrite !Z.gtb_ltb. lia. Qed.

Lemma ordinalGreater_negtrans (a b c : Pod) :
  ordinalGreater a b = false -> ordinalGreater b c = false ->
  ordinalGreater a c = false.
Proof. unfold ordinalGreater. rewrite !Z.gtb_ltb. lia. Qed.

Lemma sorted_by_ordinal (l : list Pod) :
  StronglySorted (fun a b => ordinalGreater b a = false) l ->
  StronglySorted (fun a b => ordinalOf b <= ordinalOf a) l.
Proof.
  induction 1 as [|a l _ IHS Hall]; constructor; [exact IHS|].
  revert Hall. apply Forall_impl. intros b Hb. unfold ordinalGreater in Hb.
  unfold ordinalOf. rewrite Z.gtb_ltb in Hb. apply Z.ltb_ge in Hb. exact Hb.
Qed.

(** X10. restartStatefulSetByDelete, when the selector builds and the pods
    list, works through the pods in the order sort.Slice gives them: a
    permutation of the listed pods with ordinals from highest to lowest.  The
    pods deleted are a prefix of that order, one deletion each and nothing
    else written.  On success every pod was deleted, each one only after the
    one before it was seen back and ready within the per-pod limit.  On an
    error the rollout stops at the pod that failed: later pods are not
    deleted, and the error names that pod. *)
Theorem statefulset_pods_deleted_in_turn (lib : GoLib) (cl : Cluster)
    (sts : StatefulSet) (t : Duration) (w : World) (sel : StrMap) (pods : list Pod) :
  GoLibOk lib ->
  labelSelectorAsSelector lib (stsSelector sts) = Ok sel ->
  apiListPods cl w (Namespace (stsMeta sts)) sel = Ok pods ->
  let order := sortSlice lib Pod ordinalGreater pods in
  let '(r, w') := restartStatefulSetByDelete lib cl sts t w in
  Permutation pods order
  /\ StronglySorted (fun a b => ordinalOf b <= ordinalOf a) order
  /\ exists done rest,
       order = done ++ rest
       /\ trace w' = trace w ++ map deleteEvent done
       /\ (r = Ok tt -> rest = [] /\ DeletedInTurn cl t w order w')
       /\ (forall e, r = Err e ->
             exists pre p cause,
               done = pre ++ [p]
               /\ e = Wrapf (rolloutDeletePrefix (Name (stsMeta sts)) p) cause).
Proof.
  intros Hlib Hsel Hlist order.
  assert (Hperm : Permutation pods order) by apply (sortSlice_perm lib Hlib).
  assert (Hsorted : StronglySorted (fun a b => ordinalOf b <= ordinalOf a) order).
  { pose proof (sortSlice_sorted lib Hlib Pod ordinalGreater pods
                  ordinalGreater_asym ordinalGreater_negtrans) as S.
    now apply sorted_by_ordinal. }
  unfold restartStatefulSetByDelete. rewrite Hsel, Hlist.
  destruct pods as [|p0 pods'].
  - apply Permutation_nil in Hperm. split; [now rewrite Hperm|].
    split; [exact Hsorted|]. exists [], []. rewrite Hperm.
    split; [reflexivity|]. split; [cbn; now rewrite app_nil_r|].
    split; [intros _; split; [reflexivity|constructor]|discriminate].
  - fold order.
    pose proof (deletePodsInOrder_spec cl (Name (stsMeta sts)) order t w) as H.
    destruct (deletePodsInOrder cl (Name (stsMeta sts)) order t w) as [r w'].
    split; [exact Hperm|]. split; [exact Hsorted|]. exact H.
Qed.

Lemma statefulset_pods_deleted_in_turn_witness :
  let cl := sampleCluster [] [] [samplePod "s1-0"; samplePod "s1-1"] noConfigMap in
  let w := mkWorld 0 [] in
  exists w',
    restartStatefulSetByDelete testLib cl (sampleStatefulSet "s1") rolloutPerLimit w
    = (Ok tt, w')
    /\ trace w' = [deleteEvent (samplePod "s1-1"); deleteEvent (samplePod "s1-0")]
    /\ DeletedInTurn cl rolloutPerLimit w [samplePod "s1-1"; samplePod "s1-0"] w'.
Proof.
  intros cl w.
  pose proof (statefulset_pods_deleted_in_turn testLib cl (sampleStatefulSet "s1")
                rolloutPerLimit w _ _ testLib_ok eq_refl eq_refl) as H.
  cbv zeta in H.
  destruct (restartStatefulSetByDelete testLib cl (sampleStatefulSet "s1")
              rolloutPerLimit w) as [r w'] eqn:E.
  assert (Hr : r = Ok tt) by (vm_compute in E; congruence).
  assert (Ht : trace w'
               = [deleteEvent (samplePod "s1-1"); deleteEvent (samplePod "s1-0")])
    by (vm_compute in E; injection E as _ <-; reflexivity).
  exists w'. subst r. split; [reflexivity|]. split; [exact Ht|].
  destruct H as (_ & _ & done & rest & _ & _ & HOk & _).
  exact (proj2 (HOk eq_refl)).
Defined.

(** ** The orchestrator *)

Lemma StatusOnly_refl (s : RState) : StatusOnly s s.
Proof. split; [reflexivity|]. exists []. now rewrite app_nil_r. Qed.

Lemma StatusOnly_trans (s1 s2 s3 : RState) :
  StatusOnly s1 s2 -> StatusOnly s2 s3 -> StatusOnly s1 s3.
Proof.
  intros [N1 (e1 & T1 & F1)] [N2 (e2 & T2 & F2)]. split; [congruence|].
  exists (e1 ++ e2). split; [now rewrite T2, T1, app_assoc|].
  now rewrite forallb_app, F1, F2.
Qed.

Lemma Patch_facts (cl : Cluster) (n : string) (mutate : Status -> Status)
    (s : RState) :
  StatusOnly s (snd (Patch cl n mutate s))
  /\ setLastUpdated None (status (snd (Patch cl n mutate s)))
     = setLastUpdated None (mutate (status s))
  /\ (statusPatchOk cl -> fst (Patch cl n mutate s) = Ok tt).
Proof.
  split; [|split; [apply Patch_status|]].
  - unfold Patch. destruct (statusEqual _ _); [apply StatusOnly_refl|].
    assert (G : forall r : Res unit,
               StatusOnly s (snd (r, mkRState
                 (setLastUpdated (Some (now (world s))) (mutate (status s)))
                 (emit (EvStatusPatch n (status s)
                    (setLastUpdated (Some (now (world s))) (mutate (status s))))
                    (world s))))).
    { intros r. split; [reflexivity|]. eexists. split; [reflexivity|reflexivity]. }
    cbv zeta. destruct (apiStatusPatch cl (world s) _); apply G.
  - intros Hok. unfold Patch. destruct (statusEqual _ _); [reflexivity|].
    cbv zeta. now rewrite Hok.
Qed.

(** The two status updates every reconcile starts with. *)
Lemma reconcile_start (cl : Cluster) (s : RState) :
  let c := SetPhase cl PhaseIdle EmptyString
             "Starting to watch for changes to the Linkerd trust anchor certificate" ;;;
           SetProgress cl true None None in
  StatusOnly s (snd (c s))
  /\ stPhase (status (snd (c s))) = Some PhaseIdle
  /\ StartedAt (status (snd (c s))) = StartedAt (status s)
  /\ (statusPatchOk cl -> fst (c s) = Ok tt).
Proof.
  cbv zeta. unfold bind, SetPhase, SetProgress.
  destruct (Patch_facts cl "SetPhase"
              (mutPhase (Some PhaseIdle) (Some EmptyString)
                 (Some "Starting to watch for changes to the Linkerd trust anchor certificate"))
              s) as (O1 & S1 & K1).
  destruct (Patch cl "SetPhase" _ s) as [[[]|e1] s1]; cbn [fst snd] in *.
  - destruct (Patch_facts cl "SetProgress"
                (mutProgress (Some (mkProgress true 0))) s1) as (O2 & S2 & K2).
    destruct (Patch cl "SetProgress" _ s1) as [r2 s2]; cbn [fst snd] in *.
    assert (P : stPhase (status s2) = Some PhaseIdle).
    { apply (f_equal stPhase) in S1, S2. cbn in S1, S2. congruence. }
    assert (Q : StartedAt (status s2) = StartedAt (status s)).
    { apply (f_equal StartedAt) in S1, S2. cbn in S1, S2. congruence. }
    assert (O : StatusOnly s s2) by (eapply StatusOnly_trans; eassumption).
    destruct r2 as [[]|e2]; cbn [fst snd]; auto.
  - split; [exact O1|]. split; [apply (f_equal stPhase) in S1; exact S1|].
    split; [apply (f_equal StartedAt) in S1; exact S1|].
    intros Hok. specialize (K1 Hok). discriminate.
Qed.

Lemma reconcileRotation_unfold (lib : GoLib) (cl : Cluster) (h : Handlers)
    (spec : LinkerdTrustRotationSpec) (s : RState) :
  reconcileRotation lib cl h spec s
  = match (SetPhase cl PhaseIdle EmptyString
             "Starting to watch for changes to the Linkerd trust anchor certificate" ;;;
           SetProgress cl true None None) s with
    | (Ok _, s2) =>
        match detectBundleState lib cl h spec s2 with
        | (Ok bundleStatus, s3) =>
            if String.eqb bundleStatus BundleStateOverlap then rotate lib cl h spec s3
            else (Ok (mkReconcileResult frequency), s3)
        | (Err e, s3) => (Err e, s3)
        end
    | (Err e, s2) => (Err e, s2)
    end.
Proof.
  unfold reconcileRotation, bind, ret.
  destruct (SetPhase cl PhaseIdle EmptyString _ s) as [[[]|e1] s1]; [|reflexivity].
  destruct (SetProgress cl true None None s1) as [[[]|e2] s2]; [|reflexivity].
  destruct (detectBundleState lib cl h spec s2) as [[b|e3] s3]; [|reflexivity].
  destruct (String.eqb b BundleStateOverlap); reflexivity.
Qed.

(** X11. With neither trigger enabled a reconcile ends in an error (the
    "no rotation trigger enabled" error when the status patches succeed),
    having written nothing but the status; the phase it leaves is Idle: the
    misconfiguration is not recorded as a failed rotation. *)
Theorem no_trigger_leaves_phase_idle (lib : GoLib) (cl : Cluster) (h : Handlers)
    (spec : LinkerdTrustRotationSpec) (s : RState) :
  OnTrustAnchorSecretsDiff (Trigger spec) = false ->
  OnTrustRootsConfigMapChange (Trigger spec) = false ->
  let '(r, s') := reconcileRotation lib cl h spec s in
  (exists e, r = Err e)
  /\ stPhase (status s') = Some PhaseIdle
  /\ StatusOnly s s'
  /\ (statusPatchOk cl -> r = Err noTriggerError).
Proof.
  intros Hs Hc. rewrite reconcileRotation_unfold.
  pose proof (reconcile_start cl s) as H. cbv zeta in H.
  destruct ((_ ;;; _) s) as [[[]|e] s2]; cbn [fst snd] in H;
    destruct H as (O & P & _ & K).
  - unfold detectBundleState. rewrite Hs, Hc. cbn [andb negb]. unfold fail.
    split; [now eexists|]. split; [exact P|]. split; [exact O|]. reflexivity.
  - split; [now eexists|]. split; [exact P|]. split; [exact O|].
    intros Hok. specialize (K Hok). discriminate.
Qed.

Lemma bundle_result_shape (lib : GoLib) (cl : Cluster)
    (spec : LinkerdTrustRotationSpec) (w : World) (res : BundleResult) :
  LoadAndInspectCMBundle lib cl spec w = Ok res ->
  List.length (Fps res) = List.length (Certs res)
  /\ (1 <= List.length (Certs res))%nat
  /\ State res = (if (List.length (Certs res) =? 1)%nat
                  then BundleStateSingle else BundleStateOverlap).
Proof.
  unfold LoadAndInspectCMBundle. cbv zeta.
  destruct (apiGetConfigMap cl w _ _) as [cm|e];
    [|destruct (isNotFound e); discriminate].
  destruct (mapGet configMapDataKey (cmData cm)) as [raw|]; [|discriminate].
  destruct (allSpace raw); [discriminate|].
  destruct (parsePEMCerts lib raw) as [certs|e]; [|discriminate].
  assert (L : List.length (sortStrings (map fingerprint certs)) = List.length certs)
    by (rewrite sortStrings_length, length_map; reflexivity).
  revert L. generalize (sortStrings (map fingerprint certs)) as fps. intros fps L.
  destruct certs as [|c1 [|c2 certs]]; [discriminate| |];
    intros E; injection E as <-; cbn [Fps Certs State];
    (split; [exact L|]); cbn; (split; [lia|reflexivity]).
Qed.

(** X12. With only the ConfigMap trigger enabled, a bundle of three or more
    certificates, which the bundle inspector classifies as overlap, makes
    the reconcile end in an error ("more than 2 or 0 fingerprints found in
    config map" when the status patches succeed) before any rotation step:
    nothing but the status is written and the phase stays Idle. *)
Theorem configmap_trigger_rejects_three_anchors (lib : GoLib) (cl : Cluster)
    (h : Handlers) (spec : LinkerdTrustRotationSpec) (s : RState)
    (res : BundleResult) :
  OnTrustRootsConfigMapChange (Trigger spec) = true ->
  OnTrustAnchorSecretsDiff (Trigger spec) = false ->
  (forall w, LoadAndInspectCMBundle lib cl spec w = Ok res) ->
  (3 <= List.length (Certs res))%nat ->
  let '(r, s') := reconcileRotation lib cl h spec s in
  State res = BundleStateOverlap
  /\ (exists e, r = Err e)
  /\ stPhase (status s') = Some PhaseIdle
  /\ StatusOnly s s'
  /\ (statusPatchOk cl -> r = Err fingerprintCountError).
Proof.
  intros Hc Hs Hload Hlen.
  destruct (bundle_result_shape lib cl spec (world s) res (Hload _)) as (L & _ & St).
  assert (Hov : State res = BundleStateOverlap).
  { rewrite St. destruct (Nat.eqb_spec (List.length (Certs res)) 1); [lia|reflexivity]. }
  rewrite reconcileRotation_unfold.
  pose proof (reconcile_start cl s) as H. cbv zeta in H.
  destruct ((_ ;;; _) s) as [[[]|e] s2]; cbn [fst snd] in H;
    destruct H as (O & P & _ & K).
  - unfold detectBundleState. rewrite Hs, Hc. cbn [andb negb]. unfold bind.
    rewrite Hload.
    destruct (Fps res) as [|f0 [|f1 [|f2 fps]]] eqn:F; cbn in L; try lia.
    unfold fail. split; [exact Hov|]. split; [now eexists|].
    split; [exact P|]. split; [exact O|]. reflexivity.
  - split; [exact Hov|]. split; [now eexists|]. split; [exact P|]. split; [exact O|].
    intros Hok. specialize (K Hok). discriminate.
Qed.

Lemma reconcileRotation_detect (lib : GoLib) (cl : Cluster) (h : Handlers)
    (spec : LinkerdTrustRotationSpec) (s : RState) :
  reconcileRotation lib cl h spec s
  = match detectPhase lib cl h spec s with
    | (Ok bundleStatus, s3) =>
        if String.eqb bundleStatus BundleStateOverlap then rotate lib cl h spec s3
        else (Ok (mkReconcileResult frequency), s3)
    | (Err e, s3) => (Err e, s3)
    end.
Proof.
  rewrite reconcileRotation_unfold. unfold detectPhase, bind.
  destruct (SetPhase cl PhaseIdle EmptyString _ s) as [[[]|e1] s1]; [|reflexivity].
  destruct (SetProgress cl true None None s1) as [[[]|e2] s2]; reflexivity.
Qed.

(** What a patch writes, and what it keeps. *)
Lemma Patch_trace (cl : Cluster) (n : string) (mutate : Status -> Status)
    (s : RState) :
  now (world (snd (Patch cl n mutate s))) = now (world s)
  /\ exists evs, trace (world (snd (Patch cl n mutate s))) = trace (world s) ++ evs
                 /\ atMostOnePatch evs.
Proof.
  unfold Patch. destruct (statusEqual _ _).
  - split; [reflexivity|]. exists []. cbn. rewrite app_nil_r.
    repeat split; auto.
  - cbv zeta. destruct (apiStatusPatch cl (world s) _); cbn;
      (split; [reflexivity|]); eexists; (split; [reflexivity|]); split; cbn; auto.
Qed.

Lemma Patch_field {A : Type} (f : Status -> A) (cl : Cluster) (n : string)
    (mutate : Status -> Status) (s : RState) :
  (forall st, f (setLastUpdated None st) = f st) ->
  f (status (snd (Patch cl n mutate s))) = f (mutate (status s)).
Proof.
  intros Hf. rewrite <- Hf, Patch_status. apply Hf.
Qed.

Section KeepsRules.
Context {B : Type} (f : Status -> B).

Lemma Keeps_ret {A : Type} (a : A) : Keeps f (ret a).
Proof. intros s. reflexivity. Qed.

Lemma Keeps_fail {A : Type} (e : error) : Keeps f (@fail RState A e).
Proof. intros s. reflexivity. Qed.

Lemma Keeps_liftRes {A : Type} (r : Res A) : Keeps f (liftRes r).
Proof. intros s. reflexivity. Qed.

Lemma Keeps_read {A : Type} (g : RState -> Res A) : Keeps f (fun s => (g s, s)).
Proof. intros s. reflexivity. Qed.

Lemma Keeps_inWorld {A : Type} (c : M World A) : Keeps f (inWorld c).
Proof. intros s. unfold inWorld. now destruct (c (world s)). Qed.

Lemma Keeps_bind {A C : Type} (c : M RState A) (k : A -> M RState C) :
  Keeps f c -> (forall a, Keeps f (k a)) -> Keeps f (bind c k).
Proof.
  intros Hc Hk s. unfold bind. specialize (Hc s).
  destruct (c s) as [[a|e] s1]; cbn [snd] in *; [|exact Hc].
  now rewrite Hk.
Qed.

Lemma Keeps_onErr {A : Type} (c : M RState A) (h : error -> M RState A) :
  Keeps f c -> (forall e, Keeps f (h e)) -> Keeps f (onErr c h).
Proof.
  intros Hc Hh s. unfold onErr. specialize (Hc s).
  destruct (c s) as [[a|e] s1]; cbn [snd] in *; [exact Hc|].
  now rewrite Hh.
Qed.

Lemma Keeps_if {A : Type} (b : bool) (c1 c2 : M RState A) :
  Keeps f c1 -> Keeps f c2 -> Keeps f (if b then c1 else c2).
Proof. now destruct b. Qed.

Lemma Keeps_self {A : Type} (c : RState -> M RState A) :
  (forall s0, Keeps f (c s0)) -> Keeps f (fun s => c s s).
Proof. intros H s. apply H. Qed.

Lemma Keeps_Patch (cl : Cluster) (n : string) (mutate : Status -> Status) :
  Durable f -> (forall st, f (mutate st) = f st) -> Keeps f (Patch cl n mutate).
Proof.
  intros Hd Hm s. rewrite <- (Hd _ None), Patch_status, Hd. apply Hm.
Qed.

End KeepsRules.

Lemma Durable_Retries : Durable Retries.
Proof. intros st t. reflexivity. Qed.

Lemma Durable_Cursor : Durable Cursor.
Proof. intros st t. reflexivity. Qed.

Lemma Durable_StartedAt : Durable StartedAt.
Proof. intros st t. reflexivity. Qed.

Lemma Keeps_SetPhase {B : Type} (f : Status -> B) (cl : Cluster) (p : Phase)
    (r : Reason) (m : string) :
  Durable f -> (forall st, f (mutPhase (Some p) (Some r) (Some m) st) = f st) ->
  Keeps f (SetPhase cl p r m).
Proof. intros. now apply Keeps_Patch. Qed.

Lemma Keeps_SetProgress {B : Type} (f : Status -> B) (cl : Cluster) (cp : bool)
    (cur tot : option Z) :
  Durable f -> (forall p st, f (mutProgress p st) = f st) ->
  Keeps f (SetProgress cl cp cur tot).
Proof. intros. now apply Keeps_Patch. Qed.

Lemma Keeps_SetTrustInfo {B : Type} (f : Status -> B) (cl : Cluster)
    (b : BundleState) (c p : string) :
  Durable f -> (forall t st, f (mutTrust t st) = f st) ->
  Keeps f (SetTrustInfo cl b c p).
Proof. intros. now apply Keeps_Patch. Qed.

Ltac keeps_step :=
  match goal with
  | |- forall _, Keeps _ _ => intro
  | |- Keeps _ (ret _) => apply Keeps_ret
  | |- Keeps _ (fail _) => apply Keeps_fail
  | |- Keeps _ (inWorld _) => apply Keeps_inWorld
  | |- Keeps _ (liftRes _) => apply Keeps_liftRes
  | |- Keeps _ (bind _ _) => apply Keeps_bind
  | |- Keeps _ (onErr _ _) => apply Keeps_onErr
  | |- Keeps _ (if _ then _ else _) => apply Keeps_if
  | |- Keeps _ (match ?l with _ => _ end) => destruct l
  end.

Lemma Keeps_detectBundleState {B : Type} (f : Status -> B) (lib : GoLib)
    (cl : Cluster) (h : Handlers) (spec : LinkerdTrustRotationSpec) :
  Durable f -> (forall t st, f (mutTrust t st) = f st) ->
  Keeps f (detectBundleState lib cl h spec).
Proof.
  intros Hd Ht. unfold detectBundleState. cbv zeta.
  repeat first
    [ keeps_step
    | apply (Keeps_read f (fun s => LoadAndInspectCMBundle lib cl spec (world s)))
    | apply Keeps_SetTrustInfo; assumption ].
Qed.

(** The detection touches neither the retries nor the cursor. *)
Lemma detectPhase_frame {B : Type} (f : Status -> B) (lib : GoLib) (cl : Cluster)
    (h : Handlers) (spec : LinkerdTrustRotationSpec) :
  Durable f ->
  (forall p r m st, f (mutPhase p r m st) = f st) ->
  (forall p st, f (mutProgress p st) = f st) ->
  (forall t st, f (mutTrust t st) = f st) ->
  Keeps f (detectPhase lib cl h spec).
Proof.
  intros Hd Hp Hg Ht. unfold detectPhase.
  apply Keeps_bind; [apply Keeps_SetPhase; auto|intros _].
  apply Keeps_bind; [apply Keeps_SetProgress; auto|intros _].
  now apply Keeps_detectBundleState.
Qed.

(** *** status.startedAt is never written *)

Ltac keeps_patch :=
  apply Keeps_Patch; [exact Durable_StartedAt | intros; reflexivity].

Lemma startedAt_SetPhase (cl : Cluster) (p : Phase) (r : Reason) (m : string) :
  Keeps StartedAt (SetPhase cl p r m).
Proof. keeps_patch. Qed.

Lemma startedAt_SetProgress (cl : Cluster) (cp : bool) (cur tot : option Z) :
  Keeps StartedAt (SetProgress cl cp cur tot).
Proof. keeps_patch. Qed.

Lemma startedAt_SetPlanHash (cl : Cluster) (r : option WorkRef) (n t : Z)
    (hash : string) :
  Keeps StartedAt (SetPlanHash cl r n t hash).
Proof. keeps_patch. Qed.

Lemma startedAt_SetRetry (cl : Cluster) (r : option WorkRef) (n : Z) (e : string) :
  Keeps StartedAt (SetRetry cl r n e).
Proof.
  unfold SetRetry.
  apply (Keeps_self StartedAt (fun s0 =>
    Patch cl "SetRetry"
      (mutRetries (Some (mkRetry n e r
         (Some (if (n >? 0) && negb (strEmpty e) then now (world s0)
                else zeroTime))))))).
  intros s0. keeps_patch.
Qed.

Lemma startedAt_SetDryRunOutput (cl : Cluster) (out : string) :
  Keeps StartedAt (SetDryRunOutput cl out).
Proof. keeps_patch. Qed.

Lemma startedAt_MarkSucceeded (cl : Cluster) (m : string) :
  Keeps StartedAt (MarkSucceeded cl m).
Proof.
  unfold MarkSucceeded.
  apply (Keeps_self StartedAt (fun s0 =>
    Patch cl "MarkSucceeded" (mutTerminal "Succeeded" "Completed" m (now (world s0))))).
  intros s0. keeps_patch.
Qed.

Lemma startedAt_MarkFailed (cl : Cluster) (r : Reason) (m : string) :
  Keeps StartedAt (MarkFailed cl r m).
Proof.
  unfold MarkFailed.
  apply (Keeps_self StartedAt (fun s0 =>
    Patch cl "MarkFailed" (mutTerminal "Failed" r m (now (world s0))))).
  intros s0. keeps_patch.
Qed.

Lemma startedAt_recordFailure {A : Type} (cl : Cluster) (item : WorkItem)
    (cause : error) :
  Keeps StartedAt (@recordFailure A cl item cause).
Proof.
  intros s. unfold recordFailure. cbv zeta.
  pose proof (startedAt_SetRetry cl (Some (workRefOf item))
                (add64 match Retries (status s) with
                       | Some r => Count r
                       | None => 0
                       end 1) (errText cause) s) as H.
  destruct (SetRetry cl _ _ _ s) as [[[]|e] s1]; exact H.
Qed.

Ltac keeps_started :=
  repeat first
    [ keeps_step
    | apply startedAt_SetPhase | apply startedAt_SetProgress
    | apply startedAt_SetPlanHash | apply startedAt_SetRetry
    | apply startedAt_SetDryRunOutput | apply startedAt_MarkSucceeded
    | apply startedAt_MarkFailed | apply startedAt_recordFailure ].

Lemma startedAt_rolloutItem (lib : GoLib) (cl : Cluster) (h : Handlers)
    (spec : LinkerdTrustRotationSpec) (hash : string) (total processed : Z)
    (w : WorkItem) :
  Keeps StartedAt (rolloutItem lib cl h spec hash total processed w).
Proof.
  unfold rolloutItem, orRecord, bumpProgress. cbv zeta. keeps_started.
Qed.

Lemma startedAt_rolloutLoop (lib : GoLib) (cl : Cluster) (h : Handlers)
    (spec : LinkerdTrustRotationSpec) (hash : string) (total : Z)
    (q : list WorkItem) (processed : Z) :
  Keeps StartedAt (rolloutLoop lib cl h spec hash total q processed).
Proof.
  revert processed. induction q as [|w q IH]; intros processed;
    cbn [rolloutLoop]; [apply Keeps_ret|].
  apply Keeps_bind; [apply startedAt_rolloutItem|intros p; apply IH].
Qed.

Lemma startedAt_cursorStart (cl : Cluster) (hash : string) (total : Z) :
  Keeps StartedAt (cursorStart cl hash total).
Proof.
  intros s. unfold cursorStart. cbv zeta.
  destruct (match Cursor (status s) with Some _ => _ | None => _ end);
    [reflexivity|].
  assert (K : Keeps StartedAt (SetPlanHash cl None 0 total hash ;;; ret 0))
    by keeps_started.
  apply K.
Qed.

Lemma startedAt_dataPlane (lib : GoLib) (cl : Cluster) (h : Handlers)
    (spec : LinkerdTrustRotationSpec) :
  Keeps StartedAt (RestartLinkerdDataPlane lib cl h spec).
Proof.
  unfold RestartLinkerdDataPlane, rolloutFrom. cbv zeta.
  apply Keeps_bind;
    [apply (Keeps_read StartedAt
              (fun s => SelectLinkerdDataPlane cl spec (world s)))|intros result].
  repeat first [ apply startedAt_cursorStart | apply startedAt_rolloutLoop
               | keeps_started ].
Qed.

Lemma startedAt_controlPlane (lib : GoLib) (cl : Cluster) (h : Handlers)
    (spec : LinkerdTrustRotationSpec) :
  Keeps StartedAt (RestartLinkerdControlPlane lib cl h spec).
Proof.
  unfold RestartLinkerdControlPlane. cbv zeta.
  apply Keeps_bind.
  - intros s. now destruct (labelsNewRequirement lib _ _).
  - intros deployments. keeps_started.
Qed.

Lemma startedAt_rotate (lib : GoLib) (cl : Cluster) (h : Handlers)
    (spec : LinkerdTrustRotationSpec) :
  Keeps StartedAt (rotate lib cl h spec).
Proof.
  intros s. unfold rotate.
  destruct (DryRun spec).
  - assert (K : Keeps StartedAt (rotateDryRun lib cl spec)).
    { unfold rotateDryRun.
      apply Keeps_bind;
        [apply (Keeps_read StartedAt
                  (fun s => SelectLinkerdDataPlane cl spec (world s)))|intros plane].
      keeps_started. }
    apply K.
  - destruct (retriesExceeded spec (status s)) as [count|].
    + assert (K : Keeps StartedAt (rotateAbort cl spec count))
        by (unfold rotateAbort; cbv zeta; keeps_started).
      apply K.
    + assert (K : Keeps StartedAt
                    (rotatePrelude lib cl h spec ;;;
                     orMarkFailed cl (RestartLinkerdDataPlane lib cl h spec) ;;;
                     rotateCleanup lib cl h spec)).
      { unfold rotatePrelude, rotateCleanup, orMarkFailed.
        repeat first [ apply startedAt_dataPlane | apply startedAt_controlPlane
                     | keeps_started ]. }
      apply K.
Qed.

(** X18. No path of Reconcile writes status.startedAt: after a reconcile
    the in-memory status holds the value the fetched resource had (none
    when the resource could not be fetched). *)
Theorem startedAt_is_never_written (lib : GoLib) (cl : Cluster) (h : Handlers)
    (fetched : Res LinkerdTrustRotation) (w : World) :
  StartedAt (status (snd (Reconcile lib cl h fetched w)))
  = match fetched with
    | Ok lTR => StartedAt (ObjStatus lTR)
    | Err _ => None
    end.
Proof.
  unfold Reconcile. destruct fetched as [lTR|e];
    [|destruct (isNotFound e); reflexivity].
  assert (K : Keeps StartedAt (reconcileRotation lib cl h (Spec lTR))).
  { unfold reconcileRotation.
    repeat first [ apply startedAt_rotate
                 | apply Keeps_detectBundleState;
                     [exact Durable_StartedAt|intros; reflexivity]
                 | keeps_started ]. }
  apply (K (mkRState (ObjStatus lTR) w)).
Qed.

(** *** The branches of a reconcile *)

Lemma Durable_stPhase : Durable stPhase.
Proof. intros st t. reflexivity. Qed.

Lemma Patch_ok (cl : Cluster) (n : string) (mutate : Status -> Status)
    (s : RState) :
  statusPatchOk cl -> fst (Patch cl n mutate s) = Ok tt.
Proof. intros H. now apply Patch_facts. Qed.

Lemma Patch_durable {B : Type} (f : Status -> B) (cl : Cluster) (n : string)
    (mutate : Status -> Status) (s : RState) :
  Durable f -> f (status (snd (Patch cl n mutate s))) = f (mutate (status s)).
Proof. intros Hd. rewrite <- (Hd _ None), Patch_status. apply Hd. Qed.

(** X13. With only the ConfigMap trigger enabled, a bundle of exactly one
    certificate makes the reconcile write nothing but the status and leave
    the phase Idle; when the status patches succeed it records the trust
    information (state single, current and previous fingerprint both
    "sha256:" followed by the fingerprint of the certificate) and asks to
    be run again after 10 seconds. *)
Theorem single_anchor_only_updates_status (lib : GoLib) (cl : Cluster)
    (h : Handlers) (spec : LinkerdTrustRotationSpec) (s : RState)
    (res : BundleResult) :
  OnTrustRootsConfigMapChange (Trigger spec) = true ->
  OnTrustAnchorSecretsDiff (Trigger spec) = false ->
  (forall w, LoadAndInspectCMBundle lib cl spec w = Ok res) ->
  List.length (Certs res) = 1%nat ->
  let '(r, s') := reconcileRotation lib cl h spec s in
  StatusOnly s s'
  /\ stPhase (status s') = Some PhaseIdle
  /\ (statusPatchOk cl ->
      r = Ok (mkReconcileResult frequency)
      /\ exists fp,
           Fps res = [fp]
           /\ Trust (status s')
              = Some (mkTrust (Some BundleStateSingle) (sha256Prefix fp)
                              (sha256Prefix fp))).
Proof.
  intros Hc Hs Hload Hlen.
  destruct (bundle_result_shape lib cl spec (world s) res (Hload _)) as (L & _ & St).
  rewrite Hlen in L, St. cbn in St.
  rewrite reconcileRotation_unfold.
  pose proof (reconcile_start cl s) as H. cbv zeta in H.
  destruct ((_ ;;; _) s) as [[[]|e] s2]; cbn [fst snd] in H;
    destruct H as (O & P & _ & K).
  - unfold detectBundleState. rewrite Hs, Hc. cbn [andb negb]. unfold bind at 1.
    rewrite Hload, St. cbn [String.eqb Ascii.eqb Bool.eqb].
    destruct (Fps res) as [|fp [|f1 fps]] eqn:F; cbn in L; try lia.
    change (if (BundleStateSingle =? BundleStateOverlap)%string
            then BundleStateOverlap else BundleStateSingle) with BundleStateSingle.
    unfold bind, ret, SetTrustInfo.
    pose proof (Patch_facts cl "SetTrustInfo"
                  (mutTrust (Some (mkTrust (Some BundleStateSingle) (sha256Prefix fp)
                                           (sha256Prefix fp)))) s2) as (O3 & S3 & K3).
    destruct (Patch cl "SetTrustInfo" _ s2) as [[[]|e3] s3]; cbn [fst snd] in *.
    + change (if (BundleStateSingle =? BundleStateOverlap)%string
              then rotate lib cl h spec s3
              else (Ok (mkReconcileResult frequency), s3))
        with (Ok (mkReconcileResult frequency), s3).
      split; [eapply StatusOnly_trans; eassumption|].
      split; [apply (f_equal stPhase) in S3; cbn in S3; congruence|].
      intros _. split; [reflexivity|]. exists fp. split; [reflexivity|].
      apply (f_equal Trust) in S3. exact S3.
    + split; [eapply StatusOnly_trans; eassumption|].
      split; [apply (f_equal stPhase) in S3; cbn in S3; congruence|].
      intros Hok. specialize (K3 Hok). discriminate.
  - split; [exact O|]. split; [exact P|].
    intros Hok. specialize (K Hok). discriminate.
Qed.

(** X14. When the bundle is found in overlap, dry-run is off and the status
    the reconcile started from holds retries.count above
    protection.maxRolloutFailures, the reconcile emits one Warning event
    MaxRetriesExceeded with the message "max retry limit reached (count >
    limit); stopping rollout", sets phase Failed with reason
    ReasonMaxRetriesExceeded and that message, and does nothing else: after
    the detection the trace grows by that event and at most one status
    patch, no time passes, retries and cursor are kept; when the status
    patch succeeds the result asks for a requeue after one minute. *)
Theorem retries_exceeded_aborts (lib : GoLib) (cl : Cluster) (h : Handlers)
    (spec : LinkerdTrustRotationSpec) (s s3 : RState) (r : RetryStatus) :
  detectPhase lib cl h spec s = (Ok BundleStateOverlap, s3) ->
  DryRun spec = false ->
  Retries (status s) = Some r ->
  Count r > MaxRolloutFailures (Protection spec) ->
  let msg := maxRetriesMessage (Count r) (MaxRolloutFailures (Protection spec)) in
  let '(res, s') := reconcileRotation lib cl h spec s in
  (exists patches,
     trace (world s')
     = trace (world s3) ++ EvRecorder "Warning" "MaxRetriesExceeded" msg :: patches
     /\ atMostOnePatch patches)
  /\ now (world s') = now (world s3)
  /\ stPhase (status s') = Some PhaseFailed
  /\ stReason (status s') = Some ReasonMaxRetriesExceeded
  /\ stMessage (status s') = Some msg
  /\ Retries (status s') = Some r
  /\ Cursor (status s') = Cursor (status s)
  /\ (statusPatchOk cl -> res = Ok (mkReconcileResult (1 * Minute))).
Proof.
  intros Hdet Hdry Hret Hgt msg.
  assert (R3 : Retries (status s3) = Some r).
  { pose proof (detectPhase_frame Retries lib cl h spec Durable_Retries
                  ltac:(reflexivity) ltac:(reflexivity) ltac:(reflexivity) s) as F.
    rewrite Hdet in F. cbn [snd] in F. congruence. }
  assert (C3 : Cursor (status s3) = Cursor (status s)).
  { pose proof (detectPhase_frame Cursor lib cl h spec Durable_Cursor
                  ltac:(reflexivity) ltac:(reflexivity) ltac:(reflexivity) s) as F.
    rewrite Hdet in F. exact F. }
  rewrite reconcileRotation_detect, Hdet.
  change (String.eqb BundleStateOverlap BundleStateOverlap) with true. cbv iota.
  unfold rotate. rewrite Hdry. unfold retriesExceeded. rewrite R3.
  replace (Count r >? MaxRolloutFailures (Protection spec)) with true
    by (symmetry; apply Z.gtb_lt; lia).
  unfold rotateAbort. cbv zeta. fold msg. unfold bind at 1. unfold inWorld at 1.
  cbn [world status]. unfold bind, ret, SetPhase.
  set (s4 := mkRState (status s3)
                      (emit (EvRecorder "Warning" "MaxRetriesExceeded" msg) (world s3))).
  set (mutate := mutPhase (Some PhaseFailed) (Some ReasonMaxRetriesExceeded) (Some msg)).
  destruct (Patch_trace cl "SetPhase" mutate s4) as (N & evs & T & A).
  assert (Pp : stPhase (status (snd (Patch cl "SetPhase" mutate s4)))
               = Some PhaseFailed)
    by exact (Patch_durable stPhase cl "SetPhase" mutate s4 Durable_stPhase).
  assert (Pr : stReason (status (snd (Patch cl "SetPhase" mutate s4)))
               = Some ReasonMaxRetriesExceeded)
    by exact (Patch_durable stReason cl "SetPhase" mutate s4
                (fun _ _ => eq_refl)).
  assert (Pm : stMessage (status (snd (Patch cl "SetPhase" mutate s4))) = Some msg)
    by exact (Patch_durable stMessage cl "SetPhase" mutate s4 (fun _ _ => eq_refl)).
  assert (Pt : Retries (status (snd (Patch cl "SetPhase" mutate s4)))
               = Retries (status s3))
    by exact (Patch_durable Retries cl "SetPhase" mutate s4 Durable_Retries).
  assert (Pc : Cursor (status (snd (Patch cl "SetPhase" mutate s4)))
               = Cursor (status s3))
    by exact (Patch_durable Cursor cl "SetPhase" mutate s4 Durable_Cursor).
  pose proof (Patch_ok cl "SetPhase" mutate s4) as K.
  destruct (Patch cl "SetPhase" mutate s4) as [[[]|e] s5]; cbn [fst snd] in *;
    (split; [exists evs; split;
               [rewrite T; unfold s4, emit; cbn [world trace];
                rewrite <- app_assoc; reflexivity|exact A]|]);
    (split; [exact N|]); (split; [exact Pp|]); (split; [exact Pr|]);
    (split; [exact Pm|]); (split; [congruence|]); (split; [congruence|]).
  - reflexivity.
  - intros Hok. specialize (K Hok). discriminate.
Qed.

(** X15. In dry-run mode, once the bundle is found in overlap, the reconcile
    only builds the plan and reports it, whatever the retry count: nothing
    but the status is written.  An error of the plan builder or of the YAML
    encoder is returned as it is with the status untouched (the phase is
    not set to Failed); otherwise the status holds the encoded plan as
    dryRunOutput, phase DryRun, reason DryRunCompleted and no progress, and
    when the patch succeeds the result asks for no requeue. *)
Theorem dry_run_only_reports (lib : GoLib) (cl : Cluster) (h : Handlers)
    (spec : LinkerdTrustRotationSpec) (s s3 : RState) :
  detectPhase lib cl h spec s = (Ok BundleStateOverlap, s3) ->
  DryRun spec = true ->
  let '(res, s') := reconcileRotation lib cl h spec s in
  StatusOnly s3 s'
  /\ (forall e, SelectLinkerdDataPlane cl spec (world s3) = Err e ->
        res = Err e /\ s' = s3)
  /\ (forall plane,
        SelectLinkerdDataPlane cl spec (world s3) = Ok plane ->
        (forall e, yamlMarshal lib (map wDryRun (Queue plane)) = Err e ->
           res = Err e /\ s' = s3)
        /\ (forall out, yamlMarshal lib (map wDryRun (Queue plane)) = Ok out ->
              DryRunOutput (status s') = out
              /\ stPhase (status s') = Some PhaseDryRun
              /\ stReason (status s') = Some ReasonDryRun
              /\ Progress (status s') = None
              /\ (statusPatchOk cl -> res = Ok (mkReconcileResult 0)))).
Proof.
  intros Hdet Hdry.
  rewrite reconcileRotation_detect, Hdet.
  change (String.eqb BundleStateOverlap BundleStateOverlap) with true. cbv iota.
  unfold rotate. rewrite Hdry. unfold rotateDryRun. unfold bind at 1.
  destruct (SelectLinkerdDataPlane cl spec (world s3)) as [plane|e].
  - unfold bind at 1. unfold liftRes.
    destruct (yamlMarshal lib (map wDryRun (Queue plane))) as [out|e] eqn:Ey.
    + unfold bind, ret, SetDryRunOutput.
      destruct (Patch_facts cl "SetDryRunOutput" (mutDryRun out) s3) as (O & S & K).
      assert (Pd : DryRunOutput (status (snd (Patch cl "SetDryRunOutput"
                                                (mutDryRun out) s3))) = out)
        by exact (f_equal DryRunOutput S).
      assert (Pp : stPhase (status (snd (Patch cl "SetDryRunOutput"
                                           (mutDryRun out) s3))) = Some PhaseDryRun)
        by exact (f_equal stPhase S).
      assert (Pr : stReason (status (snd (Patch cl "SetDryRunOutput"
                                            (mutDryRun out) s3))) = Some ReasonDryRun)
        by exact (f_equal stReason S).
      assert (Pg : Progress (status (snd (Patch cl "SetDryRunOutput"
                                            (mutDryRun out) s3))) = None)
        by exact (f_equal Progress S).
      destruct (Patch cl "SetDryRunOutput" (mutDryRun out) s3) as [[[]|e] s4];
        cbn [fst snd] in *; (split; [exact O|]); (split; [discriminate|]);
        intros plane' E; injection E as <-; rewrite Ey; (split; [discriminate|]);
        intros out' E; injection E as <-; repeat (split; [assumption|]).
      * reflexivity.
      * intros Hok. specialize (K Hok). discriminate.
    + split; [apply StatusOnly_refl|]. split; [discriminate|].
      intros plane' E. injection E as <-. rewrite Ey. split; [|discriminate].
      intros e' E. injection E as <-. split; reflexivity.
  - split; [apply StatusOnly_refl|]. split.
    + intros e' E. injection E as <-. split; reflexivity.
    + discriminate.
Qed.

Lemma rotatePrelude_opening (lib : GoLib) (cl : Cluster) (h : Handlers)
    (spec : LinkerdTrustRotationSpec) (s : RState) :
  rotatePrelude lib cl h spec s
  = (rotateOpening cl spec ;;;
     orMarkFailed cl (RestartLinkerdControlPlane lib cl h spec)) s.
Proof.
  unfold rotatePrelude, rotateOpening, bind.
  destruct (SetPhase cl PhaseDetecting ReasonSecretsDiverged _ s) as [[[]|e1] s1];
    [|reflexivity].
  destruct (inWorld (waitWithPurpose cl _) s1) as [[[]|e2] s2]; [|reflexivity].
  destruct (inWorld (DeleteSecrets cl spec _) s2) as [[[]|e3] s3]; reflexivity.
Qed.

Lemma orMarkFailed_err {A : Type} (cl : Cluster) (c : M RState A) (s s5 : RState)
    (e : error) :
  c s = (Err e, s5) ->
  let '(res, s') := orMarkFailed cl c s in
  (exists e', res = Err e')
  /\ (statusPatchOk cl -> res = Err e)
  /\ MarkedFailed e s5 s'.
Proof.
  intros Hc. unfold orMarkFailed, onErr. rewrite Hc. unfold bind, fail, MarkFailed.
  set (mutate := mutTerminal "Failed" ReasonRotationFailed (errText e) (now (world s5))).
  destruct (Patch_trace cl "MarkFailed" mutate s5) as (N & evs & T & At).
  assert (Pp : stPhase (status (snd (Patch cl "MarkFailed" mutate s5)))
               = Some PhaseFailed)
    by exact (Patch_durable stPhase cl "MarkFailed" mutate s5 Durable_stPhase).
  assert (Pr : stReason (status (snd (Patch cl "MarkFailed" mutate s5)))
               = Some ReasonRotationFailed)
    by exact (Patch_durable stReason cl "MarkFailed" mutate s5 (fun _ _ => eq_refl)).
  assert (Pm : stMessage (status (snd (Patch cl "MarkFailed" mutate s5)))
               = Some (errText e))
    by exact (Patch_durable stMessage cl "MarkFailed" mutate s5 (fun _ _ => eq_refl)).
  assert (Pt : CompletionTime (status (snd (Patch cl "MarkFailed" mutate s5)))
               = Some (now (world s5)))
    by exact (Patch_durable CompletionTime cl "MarkFailed" mutate s5
                (fun _ _ => eq_refl)).
  assert (Pe : Retries (status (snd (Patch cl "MarkFailed" mutate s5)))
               = Retries (status s5))
    by exact (Patch_durable Retries cl "MarkFailed" mutate s5 Durable_Retries).
  assert (Pc : Cursor (status (snd (Patch cl "MarkFailed" mutate s5)))
               = Cursor (status s5))
    by exact (Patch_durable Cursor cl "MarkFailed" mutate s5 Durable_Cursor).
  pose proof (Patch_ok cl "MarkFailed" mutate s5) as K.
  destruct (Patch cl "MarkFailed" mutate s5) as [[[]|e'] s6]; cbn [fst snd] in *.
  - split; [now eexists|]. split; [reflexivity|].
    unfold MarkedFailed. repeat (split; [assumption|]). now exists evs.
  - split; [now eexists|]. split; [intros Hok; specialize (K Hok); discriminate|].
    unfold MarkedFailed. repeat (split; [assumption|]). now exists evs.
Qed.

(** X16. When the restart of the control plane or of the data plane returns
    an error during a rotation, the reconcile returns an error (that very
    error when the status patch succeeds) and marks the rotation failed:
    phase Failed, reason RotationFailed, message the text of the error,
    completionTime the time of the failure.  After the failed restart
    nothing happens but at most one status patch: in particular the
    previous trust anchor is not deleted, and retries and cursor stay as
    the restart left them. *)
Theorem failed_restart_is_marked_failed (lib : GoLib) (cl : Cluster) (h : Handlers)
    (spec : LinkerdTrustRotationSpec) (s s3 s4 s5 : RState) (e : error) :
  detectPhase lib cl h spec s = (Ok BundleStateOverlap, s3) ->
  DryRun spec = false ->
  retriesExceeded spec (status s3) = None ->
  (rotateOpening cl spec s3 = (Ok tt, s4)
   /\ RestartLinkerdControlPlane lib cl h spec s4 = (Err e, s5))
  \/ (rotatePrelude lib cl h spec s3 = (Ok tt, s4)
      /\ RestartLinkerdDataPlane lib cl h spec s4 = (Err e, s5)) ->
  let '(res, s') := reconcileRotation lib cl h spec s in
  (exists e', res = Err e')
  /\ (statusPatchOk cl -> res = Err e)
  /\ MarkedFailed e s5 s'.
Proof.
  intros Hdet Hdry Hret Hfail.
  rewrite reconcileRotation_detect, Hdet.
  change (String.eqb BundleStateOverlap BundleStateOverlap) with true. cbv iota.
  unfold rotate. rewrite Hdry, Hret. unfold bind at 1.
  destruct Hfail as [[Hop Hcp]|[Hpre Hdp]].
  - rewrite rotatePrelude_opening. unfold bind at 1. rewrite Hop.
    pose proof (orMarkFailed_err cl (RestartLinkerdControlPlane lib cl h spec)
                  s4 s5 e Hcp) as H.
    destruct (orMarkFailed cl _ s4) as [[[]|e'] s'].
    + destruct H as ((e0 & Habs) & _). discriminate.
    + destruct H as (_ & He & Hm). split; [now eexists|]. split; [|exact Hm].
      intros Hok. specialize (He Hok). congruence.
  - rewrite Hpre. unfold bind at 1.
    pose proof (orMarkFailed_err cl (RestartLinkerdDataPlane lib cl h spec)
                  s4 s5 e Hdp) as H.
    destruct (orMarkFailed cl _ s4) as [[[]|e'] s'].
    + destruct H as ((e0 & Habs) & _). discriminate.
    + destruct H as (_ & He & Hm). split; [now eexists|]. split; [|exact Hm].
      intros Hok. specialize (He Hok). congruence.
Qed.

Lemma bind_Ok {S A C : Type} (c : M S A) (k : A -> M S C) (s s' : S) (b : C) :
  bind c k s = (Ok b, s') ->
  exists a s1, c s = (Ok a, s1) /\ k a s1 = (Ok b, s').
Proof.
  unfold bind. destruct (c s) as [[a|e] s1]; [|discriminate].
  intros H. now exists a, s1.
Qed.

Lemma orMarkFailed_Ok {A : Type} (cl : Cluster) (c : M RState A) (s s' : RState)
    (a : A) :
  orMarkFailed cl c s = (Ok a, s') -> c s = (Ok a, s').
Proof.
  unfold orMarkFailed, onErr. destruct (c s) as [[a0|e] s1]; [trivial|].
  unfold bind, fail. destruct (MarkFailed cl _ _ s1) as [[[]|e'] s2]; discriminate.
Qed.

Lemma MarkSucceeded_facts (cl : Cluster) (m : string) (s : RState) :
  let s' := snd (MarkSucceeded cl m s) in
  stPhase (status s') = Some PhaseSucceeded
  /\ stReason (status s') = Some "Completed"
  /\ stMessage (status s') = Some m
  /\ CompletionTime (status s') = Some (now (world s'))
  /\ now (world s') = now (world s)
  /\ exists patches,
       trace (world s') = trace (world s) ++ patches /\ atMostOnePatch patches.
Proof.
  cbv zeta. unfold MarkSucceeded.
  set (mutate := mutTerminal "Succeeded" "Completed" m (now (world s))).
  destruct (Patch_trace cl "MarkSucceeded" mutate s) as (N & evs & T & At).
  split; [exact (Patch_durable stPhase cl "MarkSucceeded" mutate s Durable_stPhase)|].
  split; [exact (Patch_durable stReason cl "MarkSucceeded" mutate s
                   (fun _ _ => eq_refl))|].
  split; [exact (Patch_durable stMessage cl "MarkSucceeded" mutate s
                   (fun _ _ => eq_refl))|].
  split; [rewrite N;
          exact (Patch_durable CompletionTime cl "MarkSucceeded" mutate s
                   (fun _ _ => eq_refl))|].
  split; [exact N|]. now exists evs.
Qed.

(** X17. A reconcile that finds the bundle in overlap (dry-run off, retries
    within the limit) and returns without error has gone through the whole
    rotation: the control-plane steps and the data-plane restart both
    succeeded, the status says phase Succeeded, reason Completed, with
    completionTime the time of the end, and the result asks for a requeue
    after 10 seconds.  When retriggerRolloutAfterCleanup is off, all that
    follows the data-plane restart is the immediate deletion (grace period
    0, background propagation) of the previous trust anchor secret and at
    most one status patch. *)
Theorem successful_rotation_cleans_up (lib : GoLib) (cl : Cluster) (h : Handlers)
    (spec : LinkerdTrustRotationSpec) (s s3 s' : RState) (rr : ReconcileResult) :
  detectPhase lib cl h spec s = (Ok BundleStateOverlap, s3) ->
  DryRun spec = false ->
  retriesExceeded spec (status s3) = None ->
  reconcileRotation lib cl h spec s = (Ok rr, s') ->
  rr = mkReconcileResult frequency
  /\ MarkedSucceeded s'
  /\ exists s4 s5,
       rotatePrelude lib cl h spec s3 = (Ok tt, s4)
       /\ RestartLinkerdDataPlane lib cl h spec s4 = (Ok tt, s5)
       /\ (RetriggerRolloutAfterCleanup (Protection spec) = false ->
           now (world s') = now (world s5)
           /\ exists patches,
                trace (world s')
                = trace (world s5)
                  ++ EvDeleteSecret (linkerdNamespace (Linkerd spec))
                       (PreviousTrustAnchorSecret (Linkerd spec)) (Some 0)
                       "Background" :: patches
                /\ atMostOnePatch patches).
Proof.
  intros Hdet Hdry Hret.
  rewrite reconcileRotation_detect, Hdet.
  change (String.eqb BundleStateOverlap BundleStateOverlap) with true. cbv iota.
  unfold rotate. rewrite Hdry, Hret. intros H.
  apply bind_Ok in H as ([] & s4 & Hpre & H).
  apply bind_Ok in H as ([] & s5 & Hdp & H).
  apply orMarkFailed_Ok in Hdp.
  unfold rotateCleanup in H.
  apply bind_Ok in H as ([] & s6 & Hdel & H).
  apply bind_Ok in H as ([] & s7 & Hre & H).
  apply bind_Ok in H as ([] & s8 & Hmark & H).
  unfold ret in H. injection H as <- <-.
  pose proof (MarkSucceeded_facts cl
    "Linkerd trust anchor certificate rotation completed successfully" s7) as F.
  cbv zeta in F. rewrite Hmark in F. cbn [snd] in F.
  destruct F as (Fp & Fr & Fm & Fc & Fn & (evs & Ft & Fa)).
  split; [reflexivity|]. split; [repeat split; assumption|].
  exists s4, s5. split; [exact Hpre|]. split; [exact Hdp|].
  intros Hno. rewrite Hno in Hre. unfold ret in Hre. injection Hre as <-.
  unfold inWorld, DeleteSecrets in Hdel. cbv zeta in Hdel.
  assert (W6 : world s6
               = emit (EvDeleteSecret (linkerdNamespace (Linkerd spec))
                         (PreviousTrustAnchorSecret (Linkerd spec)) (Some 0)
                         "Background") (world s5)).
  { destruct (apiDeleteSecret cl (world s5) _ _) as [e|];
      [destruct (isNotFound e)|]; try discriminate Hdel;
      injection Hdel as <-; reflexivity. }
  split; [rewrite Fn, W6; reflexivity|].
  exists evs. split; [|exact Fa].
  rewrite Ft, W6. unfold emit. cbn [trace]. now rewrite <- app_assoc.
Qed.

(** *** Worked examples *)

Lemma sample_statusPatchOk (deps : list Deployment) (stss : list StatefulSet)
    (pods : list Pod) (cm : Res ConfigMap) :
  statusPatchOk (sampleCluster deps stss pods cm).
Proof. intros w st. reflexivity. Qed.

Lemma no_trigger_leaves_phase_idle_witness :
  let cl := sampleCluster [] [] [] noConfigMap in
  let out := reconcileRotation testLib cl (testHandlers None)
                               (specWith false false false []) freshState in
  fst out = Err noTriggerError /\ stPhase (status (snd out)) = Some PhaseIdle.
Proof.
  intros cl out.
  pose proof (no_trigger_leaves_phase_idle testLib cl (testHandlers None)
                (specWith false false false []) freshState eq_refl eq_refl) as H.
  fold out in H. destruct out as [r s']. destruct H as (_ & P & _ & K).
  split; [apply K, sample_statusPatchOk|exact P].
Defined.

Lemma configmap_trigger_rejects_three_anchors_witness :
  let cl := sampleCluster [] [] [] (bundleOf "C0a;C0b;C0c;") in
  let out := reconcileRotation testLib cl (testHandlers None) (sampleSpec [])
                               freshState in
  fst out = Err fingerprintCountError /\ stPhase (status (snd out)) = Some PhaseIdle.
Proof.
  intros cl out.
  assert (Hload : forall w, LoadAndInspectCMBundle testLib cl (sampleSpec []) w
                            = Ok (bundleResultOf ["0a"; "0b"; "0c"]))
    by (intros w; vm_compute; reflexivity).
  pose proof (configmap_trigger_rejects_three_anchors testLib cl (testHandlers None)
                (sampleSpec []) freshState _ eq_refl eq_refl Hload
                ltac:(cbn; lia)) as H.
  fold out in H. destruct out as [r s']. destruct H as (_ & _ & P & _ & K).
  split; [apply K, sample_statusPatchOk|exact P].
Defined.

Lemma single_anchor_only_updates_status_witness :
  let cl := sampleCluster [] [] [] (bundleOf "C0a;") in
  let out := reconcileRotation testLib cl (testHandlers None) (sampleSpec [])
                               freshState in
  fst out = Ok (mkReconcileResult frequency)
  /\ stPhase (status (snd out)) = Some PhaseIdle.
Proof.
  intros cl out.
  assert (Hload : forall w, LoadAndInspectCMBundle testLib cl (sampleSpec []) w
                            = Ok (bundleResultOf ["0a"]))
    by (intros w; vm_compute; reflexivity).
  pose proof (single_anchor_only_updates_status testLib cl (testHandlers None)
                (sampleSpec []) freshState _ eq_refl eq_refl Hload eq_refl) as H.
  fold out in H. destruct out as [r s']. destruct H as (_ & P & K).
  split; [apply K, sample_statusPatchOk|exact P].
Defined.

Lemma retries_exceeded_aborts_witness :
  let cl := sampleCluster [sampleDeployment "a"] [] [] (bundleOf "C0a;C0b;") in
  let spec := sampleSpec [deploymentScope] in
  let s := mkRState (mutRetries (Some (mkRetry 3 "boom" None None)) emptyStatus)
                    (mkWorld 0 []) in
  let out := reconcileRotation testLib cl (testHandlers None) spec s in
  3 > MaxRolloutFailures (Protection spec)
  /\ fst out = Ok (mkReconcileResult (1 * Minute))
  /\ stPhase (status (snd out)) = Some PhaseFailed
  /\ stReason (status (snd out)) = Some ReasonMaxRetriesExceeded.
Proof.
  intros cl spec s out.
  assert (Hgt : 3 > MaxRolloutFailures (Protection spec)) by (cbn; lia).
  assert (Hdet : detectPhase testLib cl (testHandlers None) spec s
                 = (Ok BundleStateOverlap,
                    snd (detectPhase testLib cl (testHandlers None) spec s)))
    by (vm_compute; reflexivity).
  pose proof (retries_exceeded_aborts testLib cl (testHandlers None) spec s _
                (mkRetry 3 "boom" None None) Hdet eq_refl eq_refl Hgt) as H.
  cbv zeta in H. fold out in H. destruct out as [r s'].
  destruct H as (_ & _ & P & R & _ & _ & _ & K).
  split; [exact Hgt|]. split; [apply K, sample_statusPatchOk|]. split; assumption.
Defined.

Lemma dry_run_only_reports_witness :
  let cl := sampleCluster [sampleDeployment "a"] [] [] (bundleOf "C0a;C0b;") in
  let spec := specWith true false true [deploymentScope] in
  let out := reconcileRotation testLib cl (testHandlers None) spec freshState in
  fst out = Ok (mkReconcileResult 0)
  /\ stPhase (status (snd out)) = Some PhaseDryRun
  /\ filter (fun ev => negb (isStatusPatch ev)) (trace (world (snd out))) = [].
Proof.
  intros cl spec out.
  assert (Hdet : detectPhase testLib cl (testHandlers None) spec freshState
                 = (Ok BundleStateOverlap,
                    snd (detectPhase testLib cl (testHandlers None) spec freshState)))
    by (vm_compute; reflexivity).
  pose proof (dry_run_only_reports testLib cl (testHandlers None) spec freshState _
                Hdet eq_refl) as H.
  fold out in H.
  assert (Ht : filter (fun ev => negb (isStatusPatch ev)) (trace (world (snd out)))
               = []) by (vm_compute; reflexivity).
  destruct out as [r s']. destruct H as (_ & _ & H).
  destruct (H (mkSelectResult [sampleDepItem "a" Restart] 1 0 0 0)
              ltac:(vm_compute; reflexivity)) as (_ & H').
  destruct (H' _ eq_refl) as (_ & P & _ & _ & K).
  split; [apply K, sample_statusPatchOk|]. split; [exact P|exact Ht].
Defined.

Lemma failed_restart_is_marked_failed_witness :
  let cl := sampleCluster [sampleDeployment "a"] [] [] (bundleOf "C0a;C0b;") in
  let spec := sampleSpec [deploymentScope] in
  let out := reconcileRotation testLib cl (testHandlers (Some timeoutError)) spec
                               freshState in
  fst out = Err timeoutError
  /\ stPhase (status (snd out)) = Some PhaseFailed
  /\ stMessage (status (snd out)) = Some (errText timeoutError).
Proof.
  intros cl spec. set (h := testHandlers (Some timeoutError)). intros out.
  set (s3 := snd (detectPhase testLib cl h spec freshState)).
  set (s4 := snd (rotatePrelude testLib cl h spec s3)).
  set (s5 := snd (RestartLinkerdDataPlane testLib cl h spec s4)).
  assert (Hdet : detectPhase testLib cl h spec freshState = (Ok BundleStateOverlap, s3))
    by (vm_compute; reflexivity).
  assert (Hret : retriesExceeded spec (status s3) = None) by (vm_compute; reflexivity).
  assert (Hpre : rotatePrelude testLib cl h spec s3 = (Ok tt, s4))
    by (vm_compute; reflexivity).
  assert (Hdp : RestartLinkerdDataPlane testLib cl h spec s4 = (Err timeoutError, s5))
    by (vm_compute; reflexivity).
  pose proof (failed_restart_is_marked_failed testLib cl h spec freshState s3 s4 s5
                timeoutError Hdet eq_refl Hret (or_intror (conj Hpre Hdp))) as H.
  fold out in H. destruct out as [r s'].
  destruct H as (_ & K & (P & _ & Pm & _)).
  split; [apply K, sample_statusPatchOk|]. split; assumption.
Defined.

Lemma successful_rotation_cleans_up_witness :
  let cl := sampleCluster [sampleDeployment "a"] [] [] (bundleOf "C0a;C0b;") in
  let spec := sampleSpec [deploymentScope] in
  let out := reconcileRotation testLib cl (testHandlers None) spec freshState in
  fst out = Ok (mkReconcileResult frequency) /\ MarkedSucceeded (snd out).
Proof.
  intros cl spec. set (h := testHandlers None). intros out.
  set (s3 := snd (detectPhase testLib cl h spec freshState)).
  assert (Hdet : detectPhase testLib cl h spec freshState = (Ok BundleStateOverlap, s3))
    by (vm_compute; reflexivity).
  assert (Hret : retriesExceeded spec (status s3) = None) by (vm_compute; reflexivity).
  assert (Hout : out = (Ok (mkReconcileResult frequency), snd out))
    by (vm_compute; reflexivity).
  destruct (successful_rotation_cleans_up testLib cl h spec freshState s3 (snd out)
              (mkReconcileResult frequency) Hdet eq_refl Hret Hout) as (_ & M & _).
  split; [now rewrite Hout|exact M].
Defined.

(** ** The cursor during the data-plane rollout *)






(** *** The end of a data-plane rollout *)

Lemma calcPercent_full (total : Z) : 0 < total -> calcPercent total total = 100.
Proof.
  intros H. unfold calcPercent.
  replace (total <=? 0) with false by (symmetry; apply Z.leb_gt; lia).
  replace (total <? 0) with false by (symmetry; apply Z.ltb_ge; lia).
  replace (total >? total) with false by (rewrite Z.gtb_ltb; symmetry; apply Z.ltb_ge; lia).
  cbv zeta.
  assert (E : (200 * total + total) / (2 * total) = 100).
  { symmetry. apply Z.div_unique with (r := total); lia. }
  rewrite E. reflexivity.
Qed.

Lemma Durable_Progress : Durable Progress.
Proof. intros st t. reflexivity. Qed.

Lemma recordFailure_never_Ok {A : Type} (cl : Cluster) (w : WorkItem) (e : error)
    (s s' : RState) (a : A) :
  recordFailure cl w e s <> (Ok a, s').
Proof. rewrite recordFailure_spec. discriminate. Qed.

Lemma orRecord_Ok {A : Type} (cl : Cluster) (w : WorkItem) (c : M RState A)
    (s s' : RState) (a : A) :
  orRecord cl w c s = (Ok a, s') -> c s = (Ok a, s').
Proof.
  unfold orRecord, onErr. destruct (c s) as [[a0|e] s1]; [trivial|].
  intros H. now apply recordFailure_never_Ok in H.
Qed.

(** A loop that ends without error has finished every item. *)
Lemma rolloutLoop_Ok (lib : GoLib) (cl : Cluster) (h : Handlers)
    (spec : LinkerdTrustRotationSpec) (hash : string) (total : Z)
    (q : list WorkItem) (processed : Z) (s s' : RState) :
  0 <= processed -> processed + Z.of_nat (List.length q) <= MaxInt64 ->
  rolloutLoop lib cl h spec hash total q processed s = (Ok tt, s') ->
  Progress (status s')
  = match q with
    | [] => Progress (status s)
    | _ => Some (mkProgress true
                   (calcPercent (processed + Z.of_nat (List.length q)) total))
    end.
Proof.
  revert processed s. induction q as [|w q IH]; intros processed s Hp Hmax H.
  - cbn in H. now injection H as <-.
  - cbn [rolloutLoop] in H. apply bind_Ok in H as (p' & s1 & Hitem & Hloop).
    rewrite rolloutItem_steps in Hitem.
    apply bind_Ok in Hitem as ([] & s0 & _ & Hadv).
    apply orRecord_Ok in Hadv. unfold bumpProgress in Hadv. cbv zeta in Hadv.
    replace (add64 processed 1) with (processed + 1) in Hadv
      by (symmetry; apply add64_succ; cbn [List.length] in Hmax;
          unfold MaxInt64 in *; lia).
    apply bind_Ok in Hadv as ([] & s2 & _ & Hadv).
    apply bind_Ok in Hadv as ([] & s3 & Hprog & Hret).
    unfold ret in Hret. injection Hret as <- <-.
    assert (P3 : Progress (status s3)
                 = Some (mkProgress true (calcPercent (processed + 1) total))).
    { unfold SetProgress in Hprog.
      pose proof (Patch_durable Progress cl "SetProgress"
                    (mutProgress (Some (mkProgress true
                       (calcPercent (processed + 1) total)))) s2 Durable_Progress) as D.
      rewrite Hprog in D. exact D. }
    specialize (IH (processed + 1) s3 ltac:(lia)
                   ltac:(cbn [List.length] in Hmax; lia) Hloop).
    rewrite IH. destruct q as [|w' q].
    + rewrite P3. cbn [List.length].
      now replace (processed + Z.of_nat 1) with (processed + 1) by lia.
    + replace (processed + 1 + Z.of_nat (List.length (w' :: q)))
        with (processed + Z.of_nat (List.length (w :: w' :: q)))
        by (cbn [List.length]; lia).
      reflexivity.
Qed.

Lemma cursorStart_range (cl : Cluster) (hash : string) (total start : Z)
    (s s' : RState) :
  0 <= total ->
  cursorStart cl hash total s = (Ok start, s') ->
  0 <= start <= total /\ Progress (status s') = Progress (status s).
Proof.
  intros Ht. unfold cursorStart. cbv zeta.
  destruct (Cursor (status s)) as [cur|].
  - destruct (String.eqb (PlanHash cur) hash && (Next cur >? 0)
              && (Next cur <=? total)) eqn:E.
    + intros H. injection H as <- <-.
      apply andb_true_iff in E as [E E3]. apply andb_true_iff in E as [_ E2].
      apply Z.leb_le in E3. rewrite Z.gtb_ltb in E2. apply Z.ltb_lt in E2.
      split; [lia|reflexivity].
    + intros H. apply bind_Ok in H as ([] & s1 & Hset & Hret).
      unfold ret in Hret. injection Hret as <- <-. split; [lia|].
      pose proof (Patch_durable Progress cl "SetPlanHash"
                    (mutCursor (Some (mkCursor hash 0 total None))) s
                    Durable_Progress) as D.
      unfold SetPlanHash in Hset. rewrite Hset in D. exact D.
  - intros H. apply bind_Ok in H as ([] & s1 & Hset & Hret).
    unfold ret in Hret. injection Hret as <- <-. split; [lia|].
    pose proof (Patch_durable Progress cl "SetPlanHash"
                  (mutCursor (Some (mkCursor hash 0 total None))) s
                  Durable_Progress) as D.
    unfold SetPlanHash in Hset. rewrite Hset in D. exact D.
Qed.

(** X20. A data-plane rollout that returns without error leaves the cursor
    reset to {planHash, next = 0, total, lastDone = nil}, the retries reset
    to {count = 0, no error, no failed item, lastErrorTime the zero time},
    phase RollingDP with reason DataPlaneThresholdReached, the control
    plane marked ready, and dataPlanePercent 100, or 0 when the plan is
    empty. *)
Theorem finished_rollout_resets_cursor_and_retries (lib : GoLib) (cl : Cluster)
    (h : Handlers) (spec : LinkerdTrustRotationSpec) (s s' : RState)
    (result : SelectResult) :
  SelectLinkerdDataPlane cl spec (world s) = Ok result ->
  Z.of_nat (List.length (Queue result)) <= MaxInt64 ->
  RestartLinkerdDataPlane lib cl h spec s = (Ok tt, s') ->
  let total := Z.of_nat (List.length (Queue result)) in
  Cursor (status s') = Some (mkCursor (planHash (Queue result)) 0 total None)
  /\ Retries (status s') = Some (mkRetry 0 EmptyString None (Some zeroTime))
  /\ stPhase (status s') = Some PhaseRollingDP
  /\ stReason (status s') = Some ReasonDPThresholdReached
  /\ Progress (status s')
     = Some (mkProgress true (if total =? 0 then 0 else 100)).
Proof.
  intros Hsel Hmax H total.
  unfold RestartLinkerdDataPlane in H.
  apply bind_Ok in H as (result' & s0 & Hread & H).
  rewrite Hsel in Hread. injection Hread as <- <-.
  apply bind_Ok in H as ([] & s1 & _ & H). cbv zeta in H. fold total in H.
  apply bind_Ok in H as (start & s2 & Hstart & H).
  apply cursorStart_range in Hstart as [Hrange _]; [|lia].
  unfold rolloutFrom in H.
  apply bind_Ok in H as ([] & s3 & Hprog & H).
  apply bind_Ok in H as ([] & s4 & Hloop & H).
  apply bind_Ok in H as ([] & s5 & Hphase & H).
  apply bind_Ok in H as ([] & s6 & Hretry & Hhash).
  (* the last three status updates *)
  set (mc := mutCursor (Some (mkCursor (planHash (Queue result)) 0 total None))).
  set (mr := mutRetries (Some (mkRetry 0 EmptyString None (Some zeroTime)))).
  set (mp := mutPhase (Some PhaseRollingDP) (Some ReasonDPThresholdReached)
                      (Some "Finished restarted Linkerd data plane")).
  unfold SetPlanHash in Hhash. fold mc in Hhash.
  unfold SetRetry in Hretry.
  change (Patch cl "SetRetry" mr s5 = (Ok tt, s6)) in Hretry.
  unfold SetPhase in Hphase. fold mp in Hphase.
  assert (F6 : forall (B : Type) (f : Status -> B), Durable f ->
                 (forall st, f (mc st) = f st) -> f (status s') = f (status s6)).
  { intros B f Hd Hm. pose proof (Patch_durable f cl "SetPlanHash" mc s6 Hd) as D.
    rewrite Hhash in D. cbn [snd] in D. now rewrite D. }
  assert (F5 : forall (B : Type) (f : Status -> B), Durable f ->
                 (forall st, f (mr st) = f st) -> f (status s6) = f (status s5)).
  { intros B f Hd Hm. pose proof (Patch_durable f cl "SetRetry" mr s5 Hd) as D.
    rewrite Hretry in D. cbn [snd] in D. now rewrite D. }
  assert (F4 : forall (B : Type) (f : Status -> B), Durable f ->
                 (forall st, f (mp st) = f st) -> f (status s5) = f (status s4)).
  { intros B f Hd Hm. pose proof (Patch_durable f cl "SetPhase" mp s4 Hd) as D.
    rewrite Hphase in D. cbn [snd] in D. now rewrite D. }
  split; [|split; [|split; [|split]]].
  - pose proof (Patch_durable Cursor cl "SetPlanHash" mc s6 Durable_Cursor) as D.
    rewrite Hhash in D. exact D.
  - rewrite (F6 _ Retries Durable_Retries ltac:(reflexivity)).
    pose proof (Patch_durable Retries cl "SetRetry" mr s5 Durable_Retries) as D.
    rewrite Hretry in D. exact D.
  - rewrite (F6 _ stPhase Durable_stPhase ltac:(reflexivity)).
    rewrite (F5 _ stPhase Durable_stPhase ltac:(reflexivity)).
    pose proof (Patch_durable stPhase cl "SetPhase" mp s4 Durable_stPhase) as D.
    rewrite Hphase in D. exact D.
  - rewrite (F6 _ stReason ltac:(intros ? ?; reflexivity) ltac:(reflexivity)).
    rewrite (F5 _ stReason ltac:(intros ? ?; reflexivity) ltac:(reflexivity)).
    pose proof (Patch_durable stReason cl "SetPhase" mp s4
                  ltac:(intros ? ?; reflexivity)) as D.
    rewrite Hphase in D. exact D.
  - rewrite (F6 _ Progress Durable_Progress ltac:(reflexivity)).
    rewrite (F5 _ Progress Durable_Progress ltac:(reflexivity)).
    rewrite (F4 _ Progress Durable_Progress ltac:(reflexivity)).
    assert (P3 : Progress (status s3)
                 = Some (mkProgress true (calcPercent start total))).
    { unfold SetProgress in Hprog.
      pose proof (Patch_durable Progress cl "SetProgress"
                    (mutProgress (Some (mkProgress true (calcPercent start total))))
                    s2 Durable_Progress) as D.
      rewrite Hprog in D. exact D. }
    assert (Hlen : Z.of_nat (List.length (skipn (Z.to_nat start) (Queue result)))
                   = total - start).
    { rewrite length_skipn. unfold total in *. lia. }
    apply rolloutLoop_Ok in Hloop; [|lia|rewrite Hlen; lia].
    rewrite Hloop. destruct (Z.eqb_spec total 0) as [E0|N0].
    + assert (start = 0) by lia. subst start.
      destruct (skipn (Z.to_nat 0) (Queue result)) as [|w q] eqn:Eq.
      * rewrite P3, E0. reflexivity.
      * cbn [List.length] in Hlen. lia.
    + destruct (skipn (Z.to_nat start) (Queue result)) as [|w q] eqn:Eq.
      * rewrite P3. cbn [List.length] in Hlen.
        replace start with total by lia. now rewrite calcPercent_full by lia.
      * rewrite Hlen. replace (start + (total - start)) with total by lia.
        now rewrite calcPercent_full by lia.
Qed.

Lemma finished_rollout_resets_cursor_and_retries_witness :
  let cl := sampleCluster [sampleDeployment "a"; sampleDeployment "b"] [] []
                          noConfigMap in
  let spec := sampleSpec [deploymentScope] in
  let q := [sampleDepItem "a" Restart; sampleDepItem "b" Restart] in
  let s := mkRState (mutRetries (Some (mkRetry 1 "boom" None None)) emptyStatus)
                    (mkWorld 0 []) in
  let out := RestartLinkerdDataPlane testLib cl (testHandlers None) spec s in
  fst out = Ok tt
  /\ Cursor (status (snd out)) = Some (mkCursor (planHash q) 0 2 None)
  /\ option_map Count (Retries (status (snd out))) = Some 0
  /\ option_map DataPlanePercent (Progress (status (snd out))) = Some 100.
Proof.
  intros cl spec q s out.
  assert (Hsel : SelectLinkerdDataPlane cl spec (world s)
                 = Ok (mkSelectResult q 2 0 0 0)) by (vm_compute; reflexivity).
  assert (Hout : out = (Ok tt, snd out)) by (vm_compute; reflexivity).
  destruct (finished_rollout_resets_cursor_and_retries testLib cl (testHandlers None)
              spec s (snd out) _ Hsel ltac:(unfold MaxInt64; cbn; lia) Hout)
    as (C & R & _ & _ & P).
  split; [now rewrite Hout|]. split; [exact C|]. split; [now rewrite R|now rewrite P].
Defined.

(** ** The percentage of progress *)

Lemma calcPercent_cases (current total : Z) :
  (total <= 0 /\ calcPercent current total = 0)
  \/ (0 < total /\
      let c := Z.max 0 (Z.min current total) in
      calcPercent current total = (200 * c + total) / (2 * total)
      /\ 0 <= (200 * c + total) / (2 * total) <= 100).
Proof.
  unfold calcPercent. destruct (Z.leb_spec total 0) as [Ht|Ht]; [left; auto|right].
  split; [exact Ht|]. cbv zeta.
  set (c := Z.max 0 (Z.min current total)).
  assert (Hc : (if (if current <? 0 then 0 else current) >? total then total
                else if current <? 0 then 0 else current) = c).
  { unfold c. destruct (Z.ltb_spec current 0); rewrite Z.gtb_ltb;
      [destruct (Z.ltb_spec total 0)|destruct (Z.ltb_spec total current)]; lia. }
  rewrite Hc.
  assert (Hr : 0 <= c <= total) by (unfold c; lia).
  assert (Hp : 0 <= (200 * c + total) / (2 * total) <= 100).
  { split; [apply Z.div_pos; lia|].
    apply Z.lt_succ_r, Z.div_lt_upper_bound; lia. }
  split; [|exact Hp].
  destruct (Z.ltb_spec ((200 * c + total) / (2 * total)) 0); [lia|].
  rewrite Z.gtb_ltb. destruct (Z.ltb_spec 100 ((200 * c + total) / (2 * total))); lia.
Qed.

(** X21. calcPercent always returns a percentage between 0 and 100; it is 0
    when the total is not positive or nothing is done, 100 when everything
    (or more) of a positive total is done, never decreases when more is
    done, and otherwise is 100 * current / total rounded to the nearest
    integer, halves upwards (for totals below 2^45, where the float64
    division of the Go code is exact enough). *)
Theorem calcPercent_is_a_rounded_percentage (current total : Z) :
  0 <= calcPercent current total <= 100
  /\ (total <= 0 \/ current <= 0 -> calcPercent current total = 0)
  /\ (0 < total <= current -> calcPercent current total = 100)
  /\ (forall more, current <= more ->
        calcPercent current total <= calcPercent more total)
  /\ (0 < total < 2 ^ 45 -> 0 <= current <= total ->
      let p := calcPercent current total in
      2 * total * p - total <= 200 * current < 2 * total * p + total).
Proof.
  split; [|split; [|split; [|split]]].
  - destruct (calcPercent_cases current total) as [[_ ->]|[_ [-> H]]]; lia.
  - intros H. destruct (calcPercent_cases current total) as [[_ ->]|[Ht [-> _]]];
      [reflexivity|].
    destruct H as [H|H]; [lia|].
    replace (Z.max 0 (Z.min current total)) with 0 by lia.
    apply Z.div_small. lia.
  - intros H. destruct (calcPercent_cases current total) as [[Ht _]|[Ht [-> _]]];
      [lia|].
    replace (Z.max 0 (Z.min current total)) with total by lia.
    symmetry. apply Z.div_unique with (r := total); lia.
  - intros more Hm.
    destruct (calcPercent_cases current total) as [[Ht ->]|[Ht [-> _]]].
    + destruct (calcPercent_cases more total) as [[_ ->]|[Ht' _]]; lia.
    + destruct (calcPercent_cases more total) as [[Ht' _]|[_ [-> _]]]; [lia|].
      apply Z.div_le_mono; lia.
  - intros Ht Hc p. unfold p.
    destruct (calcPercent_cases current total) as [[Ht' _]|[_ [-> _]]]; [lia|].
    replace (Z.max 0 (Z.min current total)) with current by lia.
    pose proof (Z.div_mod (200 * current + total) (2 * total) ltac:(lia)) as D.
    pose proof (Z.mod_pos_bound (200 * current + total) (2 * total) ltac:(lia)) as B.
    lia.
Qed.

(** ** The shape of a plan hash *)

Lemma hexEncode_shape (bs : list Z) :
  Forall (fun b => 0 <= b < 256) bs ->
  allBytes isLowerHex (hexEncode bs) = true
  /\ String.length (hexEncode bs) = (2 * List.length bs)%nat.
Proof.
  induction 1 as [|b bs Hb _ [IH1 IH2]]; [split; reflexivity|].
  cbn [hexEncode allBytes String.length List.length].
  destruct (hexDigit_lower (b / 16)) as [H1 _].
  { split; [apply Z.div_pos; lia | apply Z.div_lt_upper_bound; lia]. }
  destruct (hexDigit_lower (b mod 16)) as [H3 _].
  { apply Z.mod_pos_bound. lia. }
  rewrite H1, H3, IH1, IH2. split; [reflexivity|lia].
Qed.

Lemma sha1_bytes (m : list Z) :
  Forall (fun b => 0 <= b < 256) (SHA1.digest m)
  /\ List.length (SHA1.digest m) = 20%nat.
Proof.
  unfold SHA1.digest. cbv zeta.
  destruct (SHA1.blocks _ SHA1.init (SHA1.pad m)) as [[[[h0 h1] h2] h3] h4].
  split.
  - repeat (apply Forall_app; split); apply be_bytes_range.
  - reflexivity.
Qed.

Lemma substring_prefix (n : nat) (s : string) :
  (n <= String.length s)%nat ->
  String.length (substring 0 n s) = n
  /\ (allBytes isLowerHex s = true -> allBytes isLowerHex (substring 0 n s) = true).
Proof.
  revert s. induction n as [|n IH]; intros s H.
  - destruct s; split; reflexivity.
  - destruct s as [|c s]; [cbn in H; lia|]. cbn [substring String.length allBytes].
    destruct (IH s ltac:(cbn in H; lia)) as [L A]. split; [now rewrite L|].
    intros Hb. apply andb_true_iff in Hb as [Hc Hs]. now rewrite Hc, A.
Qed.

(** X22. A plan hash is always 12 characters long, each of them a lowercase
    hexadecimal digit, whatever the plan (the empty plan included). *)
Theorem planHash_is_twelve_hex_digits (queue : list WorkItem) :
  String.length (planHash queue) = 12%nat
  /\ allBytes isLowerHex (planHash queue) = true.
Proof.
  unfold planHash, strPrefix, hashSum.
  destruct (sha1_bytes (bytes_of_string (planText queue))) as [R L].
  destruct (hexEncode_shape _ R) as [A Len].
  destruct (substring_prefix 12 (hexEncode (SHA1.digest (bytes_of_string
              (planText queue)))) ltac:(rewrite Len, L; lia)) as [L12 A12].
  split; [exact L12|exact (A12 A)].
Qed.

(** ** Restart of the control plane *)

Lemma restartedBy_app (a b : list Event) :
  restartedBy (a ++ b) = restartedBy a ++ restartedBy b.
Proof. apply flat_map_app. Qed.

Lemma restartedBy_patches (evs : list Event) :
  forallb isStatusPatch evs = true -> restartedBy evs = [].
Proof.
  induction evs as [|ev evs IH]; [reflexivity|]. cbn [forallb].
  intros H. apply andb_true_iff in H as [H1 H2].
  destruct ev; try discriminate. cbn. now apply IH.
Qed.

Lemma restartControlPlaneLoop_spec (lib : GoLib) (cl : Cluster) (h : Handlers)
    (deps : list Deployment) (w : World) :
  waiterOnlyReads h ->
  let '(r, w') := restartControlPlaneLoop lib cl h deps w in
  exists done rest evs,
    deps = done ++ rest
    /\ trace w' = trace w ++ evs
    /\ restartedBy evs = map deploymentKey done
    /\ (r = Ok tt -> rest = [])
    /\ (forall e, r = Err e -> done <> []).
Proof.
  intros Hw. revert w. induction deps as [|d deps IH]; intros w.
  - cbn. exists [], [], [].
    split; [reflexivity|]. split; [now rewrite app_nil_r|]. split; [reflexivity|].
    split; [reflexivity|]. intros e He. discriminate He.
  - cbn [restartControlPlaneLoop]. unfold bind at 1.
    unfold bumpRestartAnnotation, bumpAnnotationGeneric. cbn [workloadMeta].
    set (ev := EvPatchAnnotation "Deployment" (Namespace (depMeta d))
                 (Name (depMeta d)) restartedAtKey (formatRFC3339 lib (now w))).
    assert (Hev : restartedBy [ev] = [deploymentKey d]) by reflexivity.
    destruct (apiPatchAnnotation cl w "Deployment" _ _) as [e|].
    + exists [d], deps, [ev].
      split; [reflexivity|]. split; [reflexivity|]. split; [exact Hev|].
      split; [intros Habs; discriminate Habs|]. intros e' _. discriminate.
    + unfold bind at 1.
      pose proof (Hw (Namespace (depMeta d)) (Name (depMeta d)) rolloutPerLimit
                     (emit ev w)) as Ht.
      destruct (waitDeploymentRolledOut h _ _ rolloutPerLimit (emit ev w))
        as [[[]|e] w1]; cbn [snd] in Ht.
      * specialize (IH w1).
        destruct (restartControlPlaneLoop lib cl h deps w1) as [r w'].
        destruct IH as (done & rest & evs & Eq & T & R & HOk & HErr).
        exists (d :: done), rest, (ev :: evs). split; [now rewrite Eq|].
        split; [rewrite T, Ht; unfold emit; cbn [trace];
                now rewrite <- app_assoc|].
        split; [change (ev :: evs) with ([ev] ++ evs);
                rewrite restartedBy_app, Hev, R; reflexivity|].
        split; [exact HOk|]. intros e' _. discriminate.
      * exists [d], deps, [ev]. split; [reflexivity|].
        split; [rewrite Ht; reflexivity|]. split; [exact Hev|].
        split; [intros Habs; discriminate Habs|]. intros e' _. discriminate.
Qed.

Lemma descending_sorted (l : list Deployment) :
  StronglySorted (fun a b => nameDescending b a = false) l ->
  StronglySorted (fun a b => strLe (Name (depMeta b)) (Name (depMeta a))) l.
Proof.
  induction 1 as [|a l _ IHS Hall]; constructor; [exact IHS|].
  revert Hall. apply Forall_impl. intros b Hb. unfold nameDescending in Hb.
  now apply not_ltb_leb.
Qed.

(** X23. RestartLinkerdControlPlane, when the selector builds and the list
    of control-plane Deployments succeeds, restarts them in the order
    sort.Slice gives: a permutation of the listed Deployments with names
    from highest to lowest.  Provided the waiter only reads, the Deployments
    whose restart annotation it patches are a prefix of that order, each
    patched once, and all of them when it returns without error; in that
    case the status says phase RollingCP, reason ControlPlaneReady and
    controlPlaneReady true. *)
Theorem control_plane_restarted_by_descending_name (lib : GoLib) (cl : Cluster)
    (h : Handlers) (spec : LinkerdTrustRotationSpec) (s : RState)
    (deps : list Deployment) :
  GoLibOk lib ->
  waiterOnlyReads h ->
  labelsNewRequirement lib LabelCPNamespace (linkerdNamespace (Linkerd spec)) = None ->
  apiListControlPlane cl (world s) (linkerdNamespace (Linkerd spec)) = Ok deps ->
  let order := sortSlice lib Deployment nameDescending deps in
  let '(r, s') := RestartLinkerdControlPlane lib cl h spec s in
  Permutation deps order
  /\ StronglySorted (fun a b => strLe (Name (depMeta b)) (Name (depMeta a))) order
  /\ exists done rest evs,
       order = done ++ rest
       /\ trace (world s') = trace (world s) ++ evs
       /\ restartedBy evs = map deploymentKey done
       /\ (r = Ok tt ->
           rest = []
           /\ stPhase (status s') = Some PhaseRollingCP
           /\ stReason (status s') = Some ReasonCPReady
           /\ Progress (status s') = Some (mkProgress true 0)).
Proof.
  intros Hlib Hw Hreq Hlist order.
  assert (Hperm : Permutation deps order) by apply (sortSlice_perm lib Hlib).
  assert (Hsorted : StronglySorted
                      (fun a b => strLe (Name (depMeta b)) (Name (depMeta a))) order).
  { apply descending_sorted. apply (sortSlice_sorted lib Hlib).
    - intros a b. unfold nameDescending. apply ltb_asym.
    - intros a b c. unfold nameDescending. intros H1 H2.
      exact (ltb_negtrans _ _ _ H2 H1). }
  assert (G : let '(r, s') := RestartLinkerdControlPlane lib cl h spec s in
              exists done rest evs,
                order = done ++ rest
                /\ trace (world s') = trace (world s) ++ evs
                /\ restartedBy evs = map deploymentKey done
                /\ (r = Ok tt ->
                    rest = []
                    /\ stPhase (status s') = Some PhaseRollingCP
                    /\ stReason (status s') = Some ReasonCPReady
                    /\ Progress (status s') = Some (mkProgress true 0)));
    [|destruct (RestartLinkerdControlPlane lib cl h spec s) as [r s'];
      split; [exact Hperm|]; split; [exact Hsorted|exact G]].
  unfold RestartLinkerdControlPlane. cbv zeta. unfold bind at 1.
  rewrite Hreq, Hlist. fold nameDescending. fold order.
  (* SetPhase *)
  unfold bind at 1. unfold SetPhase at 1.
  set (m1 := mutPhase (Some PhaseRollingCP) (Some ReasonCPRestarting)
                      (Some "Starting rollout restart Linkerd control plane")).
  destruct (Patch_trace cl "SetPhase" m1 s) as (_ & e1 & T1 & [A1 _]).
  destruct (Patch cl "SetPhase" m1 s) as [[[]|x1] s1]; cbn [snd] in T1;
    [|exists [], order, e1; split; [reflexivity|]; split; [exact T1|];
      split; [now apply restartedBy_patches|intros Habs; discriminate Habs]].
  (* SetProgress *)
  unfold bind at 1. unfold SetProgress at 1.
  set (m2 := mutProgress (Some (mkProgress false 0))).
  destruct (Patch_trace cl "SetProgress" m2 s1) as (_ & e2 & T2 & [A2 _]).
  destruct (Patch cl "SetProgress" m2 s1) as [[[]|x2] s2]; cbn [snd] in T2;
    [|exists [], order, (e1 ++ e2); split; [reflexivity|];
      split; [rewrite T2, T1, app_assoc; reflexivity|];
      split; [rewrite restartedBy_app, !restartedBy_patches by assumption;
              reflexivity|intros Habs; discriminate Habs]].
  (* the loop *)
  unfold bind at 1. unfold inWorld.
  pose proof (restartControlPlaneLoop_spec lib cl h order (world s2) Hw) as L.
  destruct (restartControlPlaneLoop lib cl h order (world s2)) as [[[]|x3] w3].
  - destruct L as (done & rest & e3 & Eq & T3 & R3 & HOk & _).
    specialize (HOk eq_refl). subst rest.
    (* SetProgress, SetPhase *)
    unfold bind at 1. unfold SetProgress.
    set (s3 := mkRState (status s2) w3).
    set (m4 := mutProgress (Some (mkProgress true 0))).
    destruct (Patch_trace cl "SetProgress" m4 s3) as (_ & e4 & T4 & [A4 _]).
    pose proof (Patch_durable Progress cl "SetProgress" m4 s3 Durable_Progress) as P4.
    destruct (Patch cl "SetProgress" m4 s3) as [[[]|x4] s4]; cbn [snd] in T4, P4.
    + unfold SetPhase.
      set (m5 := mutPhase (Some PhaseRollingCP) (Some ReasonCPReady)
                          (Some "Finished restarted Linkerd control plane")).
      destruct (Patch_trace cl "SetPhase" m5 s4) as (_ & e5 & T5 & [A5 _]).
      pose proof (Patch_durable Progress cl "SetPhase" m5 s4 Durable_Progress) as P5.
      pose proof (Patch_durable stPhase cl "SetPhase" m5 s4 Durable_stPhase) as Q5.
      pose proof (Patch_durable stReason cl "SetPhase" m5 s4
                    (fun _ _ => eq_refl)) as R5.
      destruct (Patch cl "SetPhase" m5 s4) as [r5 s5]; cbn [snd] in T5, P5, Q5, R5.
      exists done, [], (e1 ++ e2 ++ e3 ++ e4 ++ e5). split; [exact Eq|].
      split; [rewrite T5, T4; unfold s3; cbn [world]; rewrite T3, T2, T1;
              rewrite <- !app_assoc; reflexivity|].
      split; [rewrite !restartedBy_app, R3, !restartedBy_patches by assumption;
              cbn; now rewrite app_nil_r|].
      intros _. split; [reflexivity|]. split; [exact Q5|]. split; [exact R5|].
      rewrite P5. exact P4.
    + exists done, [], (e1 ++ e2 ++ e3 ++ e4). split; [exact Eq|].
      split; [rewrite T4; unfold s3; cbn [world]; rewrite T3, T2, T1;
              rewrite <- !app_assoc; reflexivity|].
      split; [rewrite !restartedBy_app, R3, !restartedBy_patches by assumption;
              cbn; now rewrite app_nil_r|intros Habs; discriminate Habs].
  - destruct L as (done & rest & e3 & Eq & T3 & R3 & _ & _).
    exists done, rest, (e1 ++ e2 ++ e3). split; [exact Eq|]. cbn [world].
    split; [rewrite T3, T2, T1; rewrite <- !app_assoc; reflexivity|].
    split; [rewrite !restartedBy_app, R3, !restartedBy_patches by assumption;
            reflexivity|intros Habs; discriminate Habs].
Qed.

Lemma control_plane_restarted_by_descending_name_witness :
  let deps := [sampleDeployment "destination"; sampleDeployment "identity";
               sampleDeployment "proxy-injector"] in
  let cl := mkCluster (fun _ _ => None) (fun _ _ => Ok []) (fun _ _ => Ok [])
                      (fun _ _ => Ok []) (fun _ _ _ _ _ => Ok [])
                      (fun _ _ => Ok deps) (fun _ _ _ => noConfigMap)
                      (fun _ _ _ => Ok []) (fun _ _ _ => None)
                      (fun _ _ _ => Err (notFound "pod"))
                      (fun _ _ _ => None) (fun _ _ _ _ => None) (fun _ => false) in
  let out := RestartLinkerdControlPlane testLib cl (testHandlers None) (sampleSpec [])
                                        freshState in
  fst out = Ok tt
  /\ restartedBy (trace (world (snd out)))
     = map deploymentKey [sampleDeployment "proxy-injector"; sampleDeployment "identity";
                          sampleDeployment "destination"].
Proof.
  intros deps cl out.
  pose proof (control_plane_restarted_by_descending_name testLib cl (testHandlers None)
                (sampleSpec []) freshState deps testLib_ok
                ltac:(intros ns name t w; reflexivity) eq_refl eq_refl) as H.
  cbv zeta in H. fold out in H.
  assert (Hr : fst out = Ok tt) by (vm_compute; reflexivity).
  destruct out as [r s']. cbn [fst snd] in *.
  destruct H as (_ & _ & done & rest & evs & Eq & T & R & HOk).
  split; [exact Hr|]. destruct (HOk Hr) as (-> & _).
  rewrite app_nil_r in Eq. cbn [freshState world trace app] in T.
  rewrite T, R, <- Eq. vm_compute. reflexivity.
Defined.

(** ** Matching the selector annotation *)

Lemma stringValues_strings (ann : StrMap) :
  stringValues (map (fun kv => (fst kv, JString (snd kv))) ann) = ann.
Proof.
  induction ann as [|[k v] ann IH]; [reflexivity|]. cbn. now rewrite IH.
Qed.

Lemma annoHas_any (ann : option StrMap) (key val : string) :
  annoHas ann key val = true -> annoHas ann key EmptyString = true.
Proof.
  unfold annoHas. destruct ann as [a|]; [|trivial].
  destruct (mapGet key a); [reflexivity|trivial].
Qed.

Lemma crHasTemplateAnnotation_or (u : Unstructured) (key val : string) :
  crHasTemplateAnnotation u key val
  = annoHas (getAnno u ["spec"; "template"; "metadata"; "annotations"]) key val
    || annoHas (getAnno u ["spec"; "jobTemplate"; "spec"; "template";
                           "metadata"; "annotations"]) key val
    || annoHas (getAnno u ["spec"; "podTemplate"; "metadata"; "annotations"])
               key val
    || podsHave u key val.
Proof.
  unfold crHasTemplateAnnotation, podsHave.
  destruct (annoHas (getAnno u ["spec"; "template"; "metadata"; "annotations"])
                    key val); [reflexivity|].
  destruct (annoHas (getAnno u ["spec"; "jobTemplate"; "spec"; "template";
                                "metadata"; "annotations"]) key val);
    [reflexivity|].
  destruct (annoHas (getAnno u ["spec"; "podTemplate"; "metadata"; "annotations"])
                    key val); reflexivity.
Qed.

Lemma podsHave_any (u : Unstructured) (key val : string) :
  podsHave u key val = true -> podsHave u key EmptyString = true.
Proof.
  unfold podsHave.
  destruct (nestedField (Object u) ["spec"; "pods"]) as [[|b|n|s0|arr|m]|];
    trivial.
  induction arr as [|it arr IH]; [trivial|]. cbn [existsb].
  intros H. apply orb_true_iff in H as [H|H].
  - unfold podEntryHas in *. cbv zeta in *. now rewrite (annoHas_any _ _ _ H).
  - rewrite (IH H). apply orb_true_r.
Qed.

(** X24. How the selector annotation is matched.  A typed workload
    (Deployment, StatefulSet, DaemonSet) matches exactly when its template
    carries the key with exactly the value asked for.  For a custom resource
    an empty value is a wildcard: whatever matches some value also matches
    the empty value, and a resource whose template carries the key with a
    non-empty value matches the empty value, while a typed workload with
    the same annotations does not. *)
Theorem empty_value_is_a_wildcard_for_custom_resources_only :
  (forall ann key val,
     hasAnnotationOnTemplate ann key val = true <-> mapGet key ann = Some val)
  /\ (forall u key val,
        crHasTemplateAnnotation u key val = true ->
        crHasTemplateAnnotation u key EmptyString = true)
  /\ (forall ann key v,
        mapGet key ann = Some v -> v <> EmptyString ->
        crHasTemplateAnnotation (crWithTemplate ann) key EmptyString = true
        /\ crHasTemplateAnnotation (crWithTemplate ann) key v = true
        /\ hasAnnotationOnTemplate ann key EmptyString = false).
Proof.
  split; [|split].
  - intros ann key val. unfold hasAnnotationOnTemplate.
    destruct (mapGet key ann) as [v|]; split; intros H; try discriminate.
    + apply String.eqb_eq in H. now subst.
    + injection H as ->. apply String.eqb_refl.
  - intros u key val. rewrite !crHasTemplateAnnotation_or.
    intros H. repeat (apply orb_true_iff in H as [H|H]).
    + now rewrite (annoHas_any _ _ _ H).
    + rewrite (annoHas_any _ _ _ H). now rewrite !orb_true_r.
    + rewrite (annoHas_any _ _ _ H). now rewrite !orb_true_r.
    + rewrite (podsHave_any _ _ _ H). now rewrite !orb_true_r.
  - intros ann key v Hget Hne.
    assert (G : getAnno (crWithTemplate ann)
                  ["spec"; "template"; "metadata"; "annotations"] = Some ann).
    { unfold getAnno, crWithTemplate. cbn. now rewrite stringValues_strings. }
    split; [|split].
    + rewrite crHasTemplateAnnotation_or, G. unfold annoHas. now rewrite Hget.
    + rewrite crHasTemplateAnnotation_or, G. unfold annoHas. rewrite Hget.
      now rewrite String.eqb_refl, orb_true_r.
    + unfold hasAnnotationOnTemplate. rewrite Hget.
      apply String.eqb_neq. exact Hne.
Qed.

Lemma empty_value_is_a_wildcard_for_custom_resources_only_witness :
  crHasTemplateAnnotation (crWithTemplate injected) "linkerd.io/inject" EmptyString
  = true
  /\ hasAnnotationOnTemplate injected "linkerd.io/inject" EmptyString = false.
Proof.
  destruct (proj2 (proj2 empty_value_is_a_wildcard_for_custom_resources_only)
              injected "linkerd.io/inject" "enabled" eq_refl
              ltac:(discriminate)) as (A & _ & B).
  split; [exact A|exact B].
Defined.

(** ** What of an item steers its rollout *)

(** X25. The rollout of an item depends on the workload it carries, on its
    bump annotation and, for a StatefulSet only, on its strategy: two items
    that agree on these are rolled out alike, so the strategy of a
    Deployment, a DaemonSet or a custom resource changes nothing.  A
    StatefulSet whose strategy is neither rolloutRestart nor rolloutDelete
    is not restarted at all: its steps reduce to the proxy check (after
    which it is counted as finished). *)
Theorem strategy_only_steers_statefulsets (lib : GoLib) (cl : Cluster)
    (h : Handlers) (spec : LinkerdTrustRotationSpec) (hash : string)
    (total processed : Z) (w w' : WorkItem) :
  wObj w = wObj w' ->
  BumpAnnotationKey w = BumpAnnotationKey w' ->
  BumpAnnotationValue w = BumpAnnotationValue w' ->
  (wKind w = KindStatefulSet -> wStrategy w = wStrategy w') ->
  rolloutItem lib cl h spec hash total processed w
  = rolloutItem lib cl h spec hash total processed w'
  /\ (wKind w = KindStatefulSet ->
      wStrategy w <> Restart -> wStrategy w <> Delete ->
      itemSteps lib cl h spec w
      = runProxyCheckIfEnabled h spec (getNamespace w) (getName w) rolloutPerLimit).
Proof.
  destruct w as [d o k v], w' as [d' o' k' v']. cbn [wObj BumpAnnotationKey
    BumpAnnotationValue]. intros <- <- <- Hs. split.
  - destruct o as [x|x|x|x]; try reflexivity.
    specialize (Hs eq_refl). unfold wStrategy in Hs. cbn [wDryRun] in Hs.
    unfold rolloutItem, wStrategy. cbn [wDryRun wObj]. rewrite Hs. reflexivity.
  - intros Hk Hr Hd. destruct o as [x|x|x|x]; try discriminate Hk.
    unfold itemSteps. cbn [wObj].
    apply String.eqb_neq in Hr, Hd. rewrite Hr, Hd. reflexivity.
Qed.

Lemma strategy_only_steers_statefulsets_witness :
  rolloutItem testLib (sampleCluster [] [] [] noConfigMap) (testHandlers None)
              (sampleSpec []) "abc" 1 0 (sampleDepItem "a" Restart)
  = rolloutItem testLib (sampleCluster [] [] [] noConfigMap) (testHandlers None)
                (sampleSpec []) "abc" 1 0 (sampleDepItem "a" Delete).
Proof.
  exact (proj1 (strategy_only_steers_statefulsets testLib _ (testHandlers None)
                  (sampleSpec []) "abc" 1 0 (sampleDepItem "a" Restart)
                  (sampleDepItem "a" Delete) eq_refl eq_refl eq_refl
                  ltac:(discriminate))).
Defined.

(** ** Fingerprints of secrets *)

Lemma concatDERLoop_ok (lib : GoLib) (fuel : nat) (out : string) (s : string) :
  Forall (parses lib) (map blkBytes (filter isCertBlock (pemBlocks lib fuel s))) ->
  concatDERLoop lib fuel out s
  = Ok (out +++ concatLines (map blkBytes (filter isCertBlock (pemBlocks lib fuel s)))).
Proof.
  revert out s. induction fuel as [|fuel IH]; intros out s H; simpl in *.
  - now rewrite append_nil_r.
  - destruct (pemDecode lib s) as [[blk rest]|]; simpl in *.
    + unfold isCertBlock in *.
      destruct (String.eqb (blkType blk) "CERTIFICATE"); simpl in *.
      * inversion H as [|? ? Hp Hr]; subst. unfold parses in Hp. rewrite Hp.
        rewrite IH by exact Hr. now rewrite append_assoc.
      * now apply IH.
    + now rewrite append_nil_r.
Qed.

Lemma concatDERLoop_err (lib : GoLib) (fuel : nat) (out : string) (s : string) :
  Exists (fun der => ~ parses lib der)
         (map blkBytes (filter isCertBlock (pemBlocks lib fuel s))) ->
  exists e, concatDERLoop lib fuel out s = Err e.
Proof.
  revert out s. induction fuel as [|fuel IH]; intros out s H; simpl in *.
  - inversion H.
  - destruct (pemDecode lib s) as [[blk rest]|]; simpl in *.
    + unfold isCertBlock in *.
      destruct (String.eqb (blkType blk) "CERTIFICATE"); simpl in *.
      * destruct (x509ParseCertificate lib (blkBytes blk)) as [e|] eqn:E.
        -- eexists. reflexivity.
        -- inversion H as [? ? Hn|? ? Hr]; subst; [now elim Hn|]. now apply IH.
      * now apply IH.
    + inversion H.
Qed.

Lemma toLower_hexEncode (bs : list Z) :
  Forall (fun b => 0 <= b < 256) bs -> toLower (hexEncode bs) = hexEncode bs.
Proof.
  induction 1 as [|b bs Hb _ IH]; [reflexivity|].
  cbn [hexEncode toLower].
  destruct (hexDigit_lower (b / 16)) as [_ H2].
  { split; [apply Z.div_pos; lia | apply Z.div_lt_upper_bound; lia]. }
  destruct (hexDigit_lower (b mod 16)) as [_ H4].
  { apply Z.mod_pos_bound. lia. }
  now rewrite H2, H4, IH.
Qed.

Lemma sha256_round_length (s : list Z) (kw : Z * Z) :
  List.length (SHA256.round s kw) = List.length s.
Proof.
  unfold SHA256.round.
  destruct s as [|a [|b [|c [|d [|e [|f [|g [|h [|i s]]]]]]]]]; reflexivity.
Qed.

Lemma sha256_block_length (s blk : list Z) :
  List.length (SHA256.block s blk) = List.length s.
Proof.
  unfold SHA256.block. cbv zeta. rewrite length_map, length_combine.
  assert (L : forall kws st, List.length (fold_left SHA256.round kws st)
                             = List.length st).
  { induction kws as [|kw kws IH]; intros st; [reflexivity|].
    cbn [fold_left]. now rewrite IH, sha256_round_length. }
  rewrite L. apply Nat.min_id.
Qed.

Lemma sha256_length (m : list Z) : List.length (SHA256.digest m) = 32%nat.
Proof.
  unfold SHA256.digest. cbv zeta.
  assert (B : forall fuel s bs, List.length (SHA256.blocks fuel s bs) = List.length s).
  { induction fuel as [|fuel IH]; intros s bs; [reflexivity|].
    destruct bs as [|b bs]; [reflexivity|]. cbn [SHA256.blocks].
    now rewrite IH, sha256_block_length. }
  specialize (B (List.length (SHA1.pad m)) SHA256.init (SHA1.pad m)).
  change (List.length SHA256.init) with 8%nat in B.
  generalize dependent (SHA256.blocks (List.length (SHA1.pad m)) SHA256.init (SHA1.pad m)).
  intros l B.
  assert (F : forall l0 : list Z,
             List.length (flat_map (SHA1.be_bytes 4) l0) = (4 * List.length l0)%nat).
  { induction l0 as [|x l0 IH]; [reflexivity|].
    cbn [flat_map]. rewrite length_app, IH. cbn [SHA1.be_bytes List.length]. lia. }
  rewrite F, B. reflexivity.
Qed.

(** X26. fingerprintPEMCerts hashes the concatenated DER bytes of the
    CERTIFICATE blocks of a PEM text: it fails when one of them is no
    certificate and when there are no such bytes; otherwise it returns
    "sha256:" followed by the 64 lowercase hexadecimal digits of the
    SHA-256 of the concatenation.  For a text with a single certificate
    this is "sha256:" followed by the fingerprint the bundle inspector
    computes for that certificate, so both trigger paths record the same
    value. *)
Theorem secret_fingerprint (lib : GoLib) (raw : string) :
  let ders := certificateDERs lib raw in
  (Exists (fun der => ~ parses lib der) ders ->
   exists e, fingerprintPEMCerts lib raw = Err e)
  /\ (Forall (parses lib) ders -> concatLines ders = EmptyString ->
      fingerprintPEMCerts lib raw = Err (Errorf "no CERTIFICATE blocks found"))
  /\ (Forall (parses lib) ders -> concatLines ders <> EmptyString ->
      exists hex,
        fingerprintPEMCerts lib raw = Ok ("sha256:" +++ hex)
        /\ hex = hexEncode (SHA256.digest (bytes_of_string (concatLines ders)))
        /\ String.length hex = 64%nat
        /\ allBytes isLowerHex hex = true)
  /\ (forall der, ders = [der] -> parses lib der -> der <> EmptyString ->
      fingerprintPEMCerts lib raw
      = Ok (sha256Prefix (fingerprint (mkCertificate der)))).
Proof.
  intros ders.
  assert (Hok : Forall (parses lib) ders ->
                concatDERLoop lib (S (String.length raw)) EmptyString raw
                = Ok (concatLines ders)).
  { intros H. unfold ders, certificateDERs in *.
    now rewrite (concatDERLoop_ok lib _ EmptyString raw H). }
  assert (Hfp : Forall (parses lib) ders -> concatLines ders <> EmptyString ->
                fingerprintPEMCerts lib raw
                = Ok ("sha256:" +++ hexEncode (SHA256.digest
                        (bytes_of_string (concatLines ders))))).
  { intros H Hne. unfold fingerprintPEMCerts, concatDER. rewrite (Hok H).
    destruct (concatLines ders); [now elim Hne|reflexivity]. }
  split; [|split; [|split]].
  - intros H. unfold fingerprintPEMCerts, concatDER.
    destruct (concatDERLoop_err lib (S (String.length raw)) EmptyString raw H)
      as (e & ->). now exists e.
  - intros H He. unfold fingerprintPEMCerts, concatDER. rewrite (Hok H), He.
    reflexivity.
  - intros H Hne. eexists. split; [exact (Hfp H Hne)|]. split; [reflexivity|].
    destruct (hexEncode_shape _ (sha256_bytes
                (bytes_of_string (concatLines ders)))) as [A L].
    split; [rewrite L, sha256_length; reflexivity|exact A].
  - intros der Hd Hp Hne.
    rewrite Hfp.
    + rewrite Hd. cbn [concatLines]. rewrite append_nil_r.
      unfold sha256Prefix, fingerprint. cbn [Raw].
      now rewrite toLower_hexEncode by apply sha256_bytes.
    + rewrite Hd. now repeat constructor.
    + rewrite Hd. cbn [concatLines]. now rewrite append_nil_r.
Qed.

Lemma secret_fingerprint_witness :
  certificateDERs testLib "Kkey;C0a;" = ["0a"]
  /\ fingerprintPEMCerts testLib "Kkey;C0a;"
     = Ok (sha256Prefix (fingerprint (mkCertificate "0a"))).
Proof.
  assert (D : certificateDERs testLib "Kkey;C0a;" = ["0a"])
    by (vm_compute; reflexivity).
  split; [exact D|].
  apply (proj2 (proj2 (proj2 (secret_fingerprint testLib "Kkey;C0a;"))) "0a" D).
  - reflexivity.
  - discriminate.
Defined.

(** ** EnsureTrustSecrets *)

Lemma waitPrevious_facts (cl : Cluster) (api : SecretApi) (ns name : string)
    (start : Time) (fuel : nat) (w : World) (k : Z) :
  0 <= k -> now w = start + k * Second ->
  let '(r, w') := waitPrevious cl api ns name start fuel w in
  trace w' = trace w
  /\ (exists k', now w' = start + k' * Second /\ k <= k' /\ (k' = k \/ k' <= 3))
  /\ (forall p, r = Ok p -> apiGetSecret api w' ns name = Ok p).
Proof.
  revert w k. induction fuel as [|fuel IH]; intros w k Hk Hs; cbn [waitPrevious].
  - split; [reflexivity|]. split; [exists k; repeat split; auto; lia|discriminate].
  - assert (Here : exists k', now w = start + k' * Second /\ k <= k'
                               /\ (k' = k \/ k' <= 3))
      by (exists k; repeat split; auto; lia).
    destruct (ctxDone cl w); [split; [reflexivity|]; split; [exact Here|discriminate]|].
    destruct (apiGetSecret api w ns name) as [p|e] eqn:G.
    + split; [reflexivity|]. split; [exact Here|].
      intros p' E. injection E as <-. exact G.
    + destruct (negb (isNotFound e));
        [split; [reflexivity|]; split; [exact Here|discriminate]|].
      destruct (Z.geb_spec (now w - start) (3 * Second)) as [Hge|Hlt];
        [split; [reflexivity|]; split; [exact Here|discriminate]|].
      assert (Hk3 : k < 3) by (unfold Second in *; lia).
      specialize (IH (elapse (1 * Second) w) (k + 1) ltac:(lia)
                     ltac:(cbn [elapse now]; lia)).
      destruct (waitPrevious cl api ns name start fuel (elapse (1 * Second) w))
        as [r w'].
      destruct IH as (T & (k' & N & L & B) & O). cbn [elapse trace] in T.
      split; [exact T|]. split; [|exact O].
      exists k'. split; [exact N|]. split; [lia|]. right. lia.
Qed.

(** The wait is decided by the clock: four reads at most, more fuel
    changes nothing. *)
Lemma waitPrevious_fuel (cl : Cluster) (api : SecretApi) (ns name : string)
    (start : Time) (fuel fuel' : nat) (w : World) (k : Z) :
  now w = start + k * Second -> k <= 3 -> 3 - k < Z.of_nat fuel ->
  (fuel <= fuel')%nat ->
  waitPrevious cl api ns name start fuel' w
  = waitPrevious cl api ns name start fuel w.
Proof.
  revert fuel' w k. induction fuel as [|fuel IH]; intros fuel' w k Hs Hk Hf Hle.
  - cbn [Z.of_nat] in Hf. lia.
  - destruct fuel' as [|fuel']; [lia|]. cbn [waitPrevious].
    destruct (ctxDone cl w); [reflexivity|].
    destruct (apiGetSecret api w ns name) as [p|e]; [reflexivity|].
    destruct (negb (isNotFound e)); [reflexivity|].
    destruct (Z.geb_spec (now w - start) (3 * Second)) as [Hge|Hlt]; [reflexivity|].
    apply (IH fuel' (elapse (1 * Second) w) (k + 1));
      [cbn [elapse now]; lia|unfold Second in *; lia|lia|lia].
Qed.

Lemma optEqb_refl (x : option string) : optEqb String.eqb x x = true.
Proof. destruct x; [apply String.eqb_refl|reflexivity]. Qed.

Lemma dataEqual_refl (a : StrMap) : dataEqual a a = true.
Proof.
  unfold dataEqual. cbv zeta.
  assert (F : forall l : StrMap,
             forallb (fun kv => optEqb String.eqb (mapGet (fst kv) a)
                                       (mapGet (fst kv) a)) l = true).
  { induction l as [|kv l IH]; [reflexivity|]. cbn [forallb].
    now rewrite optEqb_refl, IH. }
  now rewrite F.
Qed.

(** X27. EnsureTrustSecrets never overwrites an existing previous secret,
    and writes at most once.  When the current secret cannot be read, or
    the previous one cannot and is not to be bootstrapped, the error of the
    read is returned and nothing happens.  When both secrets are read, it
    only computes: nothing is written, no time passes, and the result
    holds the two fingerprints, whether the previous secret carries the
    created annotation, and whether the data of the two secrets differ.
    The only write is the creation of the previous secret from the current
    one, issued when the previous secret was not found and bootstrapping
    is on; the wait that follows lasts 3 seconds at most. *)
Theorem previous_secret_is_never_overwritten (lib : GoLib) (cl : Cluster)
    (api : SecretApi) (spec : LinkerdTrustRotationSpec) (w : World) :
  let ns := linkerdNamespace (Linkerd spec) in
  let current := apiGetSecret api w ns (TrustAnchorSecret (Linkerd spec)) in
  let previous := apiGetSecret api w ns (PreviousTrustAnchorSecret (Linkerd spec)) in
  let '(r, w') := SecretManager.EnsureTrustSecrets lib cl api spec w in
  (forall e, current = Err e -> r = Err e /\ w' = w)
  /\ (forall c e, current = Ok c -> previous = Err e ->
        isNotFound e && BootstrapPreviousSecret (Linkerd spec) = false ->
        r = Err e /\ w' = w)
  /\ (forall c p, current = Ok c -> previous = Ok p ->
        w' = w
        /\ r = match fingerprintPEMCerts lib (certData c),
                     fingerprintPEMCerts lib (certData p) with
               | Ok fc, Ok fp =>
                   Ok (mkSecretResult
                         (match mapGet secretAnnotation (Annotations (secMeta p)) with
                          | Some v => String.eqb v "true"
                          | None => false
                          end)
                         fc fp (negb (dataEqual (secData c) (secData p))))
               | Err e, _ => Err e
               | Ok _, Err e => Err e
               end)
  /\ ((trace w' = trace w /\ now w' = now w)
      \/ (exists c e,
            current = Ok c /\ previous = Err e /\ isNotFound e = true
            /\ BootstrapPreviousSecret (Linkerd spec) = true
            /\ trace w' = trace w ++ [createEvent (previousSecretFrom spec c)]
            /\ now w <= now w' <= now w + 3 * Second)).
Proof.
  intros ns current previous. unfold SecretManager.EnsureTrustSecrets. cbv zeta.
  fold ns. fold current. fold previous.
  destruct current as [c|e0].
  - destruct previous as [p|e1].
    + unfold bind, ret, liftRes.
      destruct (fingerprintPEMCerts lib (certData c)) as [fc|ec] eqn:Fc;
        [destruct (fingerprintPEMCerts lib (certData p)) as [fp|ep] eqn:Fp|];
        (split; [discriminate|]); (split; [discriminate|]);
        (split; [intros c' p' E1 E2; injection E1 as <-; injection E2 as <-;
                 rewrite Fc, ?Fp; split; reflexivity|left; split; reflexivity]).
    + destruct (isNotFound e1 && BootstrapPreviousSecret (Linkerd spec)) eqn:B.
      * apply andb_true_iff in B as [B1 B2].
        unfold bind at 1. unfold bind at 1.
        unfold bootstrapPreviousSecrets. cbv zeta.
        set (w1 := emit (createEvent (previousSecretFrom spec c)) w).
        assert (R : forall (r : Res SecretResult) (w' : World),
                   trace w' = trace w1 -> now w <= now w' <= now w + 3 * Second ->
                   (forall e, @Ok Secret c = Err e -> r = Err e /\ w' = w)
                   /\ (forall c0 e, @Ok Secret c = Ok c0 -> @Err Secret e1 = Err e ->
                         isNotFound e && BootstrapPreviousSecret (Linkerd spec)
                         = false -> r = Err e /\ w' = w)
                   /\ (forall c0 p, @Ok Secret c = Ok c0 -> @Err Secret e1 = Ok p ->
                         w' = w /\ r = match fingerprintPEMCerts lib (certData c0),
                                             fingerprintPEMCerts lib (certData p) with
                                       | Ok fc, Ok fp =>
                                           Ok (mkSecretResult
                                                 (match mapGet secretAnnotation
                                                          (Annotations (secMeta p)) with
                                                  | Some v => String.eqb v "true"
                                                  | None => false
                                                  end)
                                                 fc fp
                                                 (negb (dataEqual (secData c0)
                                                                  (secData p))))
                                       | Err e, _ => Err e
                                       | Ok _, Err e => Err e
                                       end)
                   /\ ((trace w' = trace w /\ now w' = now w)
                       \/ (exists c0 e,
                             @Ok Secret c = Ok c0 /\ @Err Secret e1 = Err e
                             /\ isNotFound e = true
                             /\ BootstrapPreviousSecret (Linkerd spec) = true
                             /\ trace w' = trace w
                                           ++ [createEvent (previousSecretFrom spec c0)]
                             /\ now w <= now w' <= now w + 3 * Second))).
        { intros r w' T N. split; [discriminate|]. split.
          - intros c0 e _ E. injection E as <-. rewrite B1, B2. discriminate.
          - split; [discriminate|]. right. exists c, e1.
            repeat split; auto; lia. }
        destruct (apiCreateSecret api w (previousSecretFrom spec c)) as [ec|].
        -- apply R; [reflexivity|cbn [w1 emit now]; unfold Second; lia].
        -- pose proof (waitPrevious_facts cl api ns
                         (PreviousTrustAnchorSecret (Linkerd spec)) (now w1) 5 w1 0
                         ltac:(lia) ltac:(lia)) as F.
           destruct (waitPrevious cl api ns _ (now w1) 5 w1) as [[p|ew] w2];
             destruct F as (T & (k' & N & L & Bd) & _);
             assert (N2 : now w <= now w2 <= now w + 3 * Second)
               by (cbn [w1 emit now] in N; unfold Second in *; lia).
           ++ unfold liftRes, ret.
              destruct (fingerprintPEMCerts lib (certData c)) as [fc|ec];
                [destruct (fingerprintPEMCerts lib (certData p)) as [fp|ep]|];
                apply R; assumption.
           ++ apply R; assumption.
      * split; [discriminate|]. split.
        -- intros c0 e _ E _. injection E as <-. split; reflexivity.
        -- split; [discriminate|]. left. split; reflexivity.
  - split; [intros e E; injection E as <-; split; reflexivity|].
    split; [discriminate|]. split; [discriminate|]. left. split; reflexivity.
Qed.

Lemma waitPrevious_timeout (cl : Cluster) (api : SecretApi) (ns name : string)
    (e : error) (w : World) :
  isNotFound e = true ->
  (forall w2, ctxDone cl w2 = false /\ apiGetSecret api w2 ns name = Err e) ->
  waitPrevious cl api ns name (now w) 5 w
  = (Err (Errorf ("timeout waiting for " +++ ns +++ "/" +++ name)),
     elapse (1 * Second) (elapse (1 * Second) (elapse (1 * Second) w))).
Proof.
  intros Hnf Hall.
  assert (Step : forall fuel w2,
             waitPrevious cl api ns name (now w) (S fuel) w2
             = if now w2 - now w >=? 3 * Second
               then (Err (Errorf ("timeout waiting for " +++ ns +++ "/" +++ name)), w2)
               else waitPrevious cl api ns name (now w) fuel (elapse (1 * Second) w2)).
  { intros fuel w2. cbn [waitPrevious]. destruct (Hall w2) as [-> ->].
    now rewrite Hnf. }
  rewrite Step.
  destruct (Z.geb_spec (now w - now w) (3 * Second)); [unfold Second in *; lia|].
  rewrite Step. cbn [elapse now].
  destruct (Z.geb_spec (now w + 1 * Second - now w) (3 * Second));
    [unfold Second in *; lia|].
  rewrite Step. cbn [elapse now].
  destruct (Z.geb_spec (now w + 1 * Second + 1 * Second - now w) (3 * Second));
    [unfold Second in *; lia|].
  rewrite Step. cbn [elapse now].
  destruct (Z.geb_spec (now w + 1 * Second + 1 * Second + 1 * Second - now w)
                       (3 * Second)); [reflexivity|unfold Second in *; lia].
Qed.

(** X28. The bootstrap of the previous secret.  When the current secret is
    read, the previous one is not found, bootstrapping is on and the
    creation succeeds, EnsureTrustSecrets has created the previous secret
    as a copy of the data of the current one, of type kubernetes.io/tls,
    carrying the created annotation.  If the cluster then returns that
    secret, the result reports the secret as created, gives the same
    fingerprint twice and no divergence, and no time has passed.  If the
    secret never shows up, the call ends after exactly 3 seconds with the
    error "timeout waiting for namespace/name". *)
Theorem bootstrap_copies_the_current_secret (lib : GoLib) (cl : Cluster)
    (api : SecretApi) (spec : LinkerdTrustRotationSpec) (w : World)
    (c : Secret) (e : error) (fp : string) :
  let ns := linkerdNamespace (Linkerd spec) in
  let previous := PreviousTrustAnchorSecret (Linkerd spec) in
  let created := previousSecretFrom spec c in
  let w1 := emit (createEvent created) w in
  apiGetSecret api w ns (TrustAnchorSecret (Linkerd spec)) = Ok c ->
  apiGetSecret api w ns previous = Err e ->
  isNotFound e = true ->
  BootstrapPreviousSecret (Linkerd spec) = true ->
  apiCreateSecret api w created = None ->
  fingerprintPEMCerts lib (certData c) = Ok fp ->
  (secData created = secData c /\ secType created = SecretTypeTLS
   /\ mapGet secretAnnotation (Annotations (secMeta created)) = Some "true")
  /\ (ctxDone cl w1 = false -> apiGetSecret api w1 ns previous = Ok created ->
      SecretManager.EnsureTrustSecrets lib cl api spec w
      = (Ok (mkSecretResult true fp fp false), w1))
  /\ ((forall w2, ctxDone cl w2 = false /\ apiGetSecret api w2 ns previous = Err e) ->
      exists w',
        SecretManager.EnsureTrustSecrets lib cl api spec w
        = (Err (Errorf ("timeout waiting for " +++ ns +++ "/" +++ previous)), w')
        /\ now w' = now w + 3 * Second
        /\ trace w' = trace w ++ [createEvent created]).
Proof.
  intros ns previous created w1 Hc Hp Hnf Hb Hcreate Hfp.
  split; [repeat split|split].
  - intros Hctx Hget. unfold SecretManager.EnsureTrustSecrets. cbv zeta.
    fold ns. fold previous. rewrite Hc, Hp, Hnf, Hb. cbn [andb].
    unfold bind at 1. unfold bind at 1. unfold bootstrapPreviousSecrets. cbv zeta.
    fold created. fold w1. rewrite Hcreate.
    cbn [waitPrevious]. rewrite Hctx, Hget.
    unfold bind, liftRes, ret.
    change (certData created) with (certData c). rewrite Hfp.
    change (secData created) with (secData c). rewrite dataEqual_refl.
    reflexivity.
  - intros Hall. unfold SecretManager.EnsureTrustSecrets. cbv zeta.
    fold ns. fold previous. rewrite Hc, Hp, Hnf, Hb. cbn [andb].
    unfold bind at 1. unfold bind at 1. unfold bootstrapPreviousSecrets. cbv zeta.
    fold created. fold w1. rewrite Hcreate.
    rewrite (waitPrevious_timeout cl api ns previous e w1 Hnf Hall).
    eexists. split; [reflexivity|]. split; [|reflexivity].
    cbn [elapse now w1 emit]. unfold Second. lia.
Qed.

Lemma bootstrap_copies_the_current_secret_witness :
  let spec := sampleSpec [] in
  let cl := sampleCluster [] [] [] noConfigMap in
  let out := SecretManager.EnsureTrustSecrets testLib cl (sampleSecretApi sampleSecret spec) spec
                                (mkWorld 0 []) in
  exists fp,
    fingerprintPEMCerts testLib (certData sampleSecret) = Ok fp
    /\ fst out = Ok (mkSecretResult true fp fp false)
    /\ trace (snd out) = [createEvent (previousSecretFrom spec sampleSecret)].
Proof.
  intros spec cl out.
  set (fp := "sha256:" +++ hexEncode (SHA256.digest (bytes_of_string "0a"))).
  assert (Hfp : fingerprintPEMCerts testLib (certData sampleSecret) = Ok fp)
    by (vm_compute; reflexivity).
  exists fp. split; [exact Hfp|].
  destruct (bootstrap_copies_the_current_secret testLib cl
              (sampleSecretApi sampleSecret spec) spec (mkWorld 0 []) sampleSecret
              (notFound "secret") fp eq_refl eq_refl eq_refl eq_refl eq_refl Hfp)
    as (_ & H & _).
  specialize (H eq_refl eq_refl). unfold out. rewrite H. split; reflexivity.
Defined.

Lemma previous_secret_is_never_overwritten_witness :
  let spec := sampleSpec [] in
  let cl := sampleCluster [] [] [] noConfigMap in
  let api := mkSecretApi (fun _ _ _ => Ok sampleSecret) (fun _ _ => None) in
  let out := SecretManager.EnsureTrustSecrets testLib cl api spec (mkWorld 0 []) in
  snd out = mkWorld 0 [] /\ option_map Diverged
                              match fst out with Ok r => Some r | Err _ => None end
                            = Some false.
Proof.
  intros spec cl api out.
  pose proof (previous_secret_is_never_overwritten testLib cl api spec (mkWorld 0 []))
    as H.
  cbv zeta in H. fold out in H.
  assert (D : option_map Diverged match fst out with Ok r => Some r | Err _ => None end
              = Some false) by (vm_compute; reflexivity).
  destruct out as [r w']. destruct H as (_ & _ & H & _).
  destruct (H sampleSecret sampleSecret eq_refl eq_refl) as [-> _].
  split; [reflexivity|exact D].
Defined.

(** ** The waiters *)

Lemma pollLoop_spec {A : Type} (cl : Cluster) (expired : World -> bool)
    (get : World -> Res A) (decide : A -> option (Res unit)) (timedOut : error)
    (fuel : nat) (w : World) :
  let '(r, w') := pollLoop cl expired get decide timedOut fuel w in
  trace w' = trace w
  /\ now w <= now w'
  /\ (r = Ok tt -> SeenReady expired get decide w w').
Proof.
  revert w. induction fuel as [|fuel IH]; intros w; cbn [pollLoop].
  - split; [reflexivity|]. split; [lia|discriminate].
  - destruct (expired w) eqn:Ex; [split; [reflexivity|]; split; [lia|discriminate]|].
    destruct (ctxDone cl w); [split; [reflexivity|]; split; [lia|discriminate]|].
    cbv zeta.
    assert (Hrec : let '(r, w') := pollLoop cl expired get decide timedOut fuel
                                     (elapse rolloutPollInterval w) in
                   trace w' = trace w /\ now w <= now w'
                   /\ (r = Ok tt -> SeenReady expired get decide w w')).
    { specialize (IH (elapse rolloutPollInterval w)).
      destruct (pollLoop cl expired get decide timedOut fuel
                         (elapse rolloutPollInterval w)) as [r w'].
      destruct IH as (T & N & S). cbn [elapse trace now] in T, N.
      unfold rolloutPollInterval, Second in *.
      split; [exact T|]. split; [lia|].
      intros Hr. destruct (S Hr) as (w0 & cur & E0 & N0 & Ew & G & D).
      exists w0, cur. cbn [elapse now] in N0. repeat split; auto; lia. }
    destruct (get (elapse rolloutPollInterval w)) as [cur|e] eqn:G.
    + destruct (decide cur) as [r|] eqn:D; [|exact Hrec].
      split; [reflexivity|].
      split; [cbn [elapse now]; unfold rolloutPollInterval, Second; lia|].
      intros ->. exists w, cur. repeat split; auto; lia.
    + destruct (isNotFound e); [exact Hrec|].
      split; [reflexivity|].
      split; [cbn [elapse now]; unfold rolloutPollInterval, Second; lia|discriminate].
Qed.

(** The loop is decided by the clock: more fuel changes nothing. *)
Lemma pollLoop_fuel {A : Type} (cl : Cluster) (expired : World -> bool)
    (get : World -> Res A) (decide : A -> option (Res unit)) (timedOut : error)
    (deadline : Time) (fuel fuel' : nat) (w : World) :
  (forall w0, deadline < now w0 -> expired w0 = true) ->
  deadline - now w < rolloutPollInterval * Z.of_nat fuel -> (fuel <= fuel')%nat ->
  pollLoop cl expired get decide timedOut fuel' w
  = pollLoop cl expired get decide timedOut fuel w.
Proof.
  intros Hex. revert fuel' w. induction fuel as [|fuel IH]; intros fuel' w Hf Hle.
  - destruct fuel' as [|fuel']; [reflexivity|]. cbn [pollLoop].
    rewrite Hex; [reflexivity|]. cbn [Z.of_nat] in Hf. lia.
  - destruct fuel' as [|fuel']; [lia|]. cbn [pollLoop].
    destruct (expired w); [reflexivity|]. destruct (ctxDone cl w); [reflexivity|].
    cbv zeta.
    assert (E : pollLoop cl expired get decide timedOut fuel'
                         (elapse rolloutPollInterval w)
                = pollLoop cl expired get decide timedOut fuel
                           (elapse rolloutPollInterval w)).
    { apply IH; [cbn [elapse now]; unfold rolloutPollInterval, Second in *; lia|lia]. }
    now rewrite E.
Qed.

Lemma pollFuel_covers (timeout : Duration) (start : Time) :
  (start + timeout) - start < rolloutPollInterval * Z.of_nat (pollFuel timeout).
Proof.
  unfold pollFuel, rolloutPollInterval. rewrite Nat2Z.inj_succ.
  assert (Hs : 0 < 2 * Second) by (unfold Second; lia).
  set (q := timeout / (2 * Second)).
  destruct (Z_lt_le_dec timeout 0) as [Hn|Hp].
  - assert (0 <= Z.of_nat (Z.to_nat (q + 1))) by lia. nia.
  - assert (Hq : 0 <= q) by (apply Z.div_pos; lia).
    rewrite Z2Nat.id by lia.
    pose proof (Z.mul_succ_div_gt timeout (2 * Second) Hs) as G. fold q in G. lia.
Qed.

Lemma whenReady_Ok (b : bool) : whenReady b = Some (Ok tt) -> b = true.
Proof. now destruct b. Qed.

(** X29. The waiters of Deployments, StatefulSets and DaemonSets only read:
    they leave the trace as it is.  One that returns without error fetched,
    at the moment it returned, an object that was rolled out (for a
    Deployment: updated and ready replicas equal to the replicas asked
    for, 1 when not set, none unavailable, the generation observed; for a
    StatefulSet: ready replicas, current revision equal to the update
    revision, the generation observed; for a DaemonSet: not the OnDelete
    strategy, updated and available equal to desired, none misscheduled,
    the generation observed), after at least one tick and at most the
    timeout plus one tick. *)
Theorem waiters_only_read_and_report_rollout (cl : Cluster) (api : ReadApi)
    (ns name : string) (timeout : Duration) (w : World) :
  (let '(r, w') := Rollout.waitDeploymentRolledOut cl api ns name timeout w in
   trace w' = trace w
   /\ (r = Ok tt ->
       now w < now w' <= now w + timeout + rolloutPollInterval
       /\ exists cur, apiGetDeployment api w' ns name = Ok cur
                      /\ deploymentReady cur = true))
  /\ (let '(r, w') := Rollout.waitStatefulSetRolledOut cl api ns name timeout w in
      trace w' = trace w
      /\ (r = Ok tt ->
          now w < now w' <= now w + timeout + rolloutPollInterval
          /\ exists cur, apiGetStatefulSet api w' ns name = Ok cur
                         /\ statefulSetReady cur = true))
  /\ (let '(r, w') := Rollout.waitDaemonSetRolledOut cl api ns name timeout w in
      trace w' = trace w
      /\ (r = Ok tt ->
          now w < now w' <= now w + timeout + rolloutPollInterval
          /\ exists cur, apiGetDaemonSet api w' ns name = Ok cur
                         /\ dsUpdateStrategy cur <> OnDeleteDaemonSetStrategyType
                         /\ daemonSetReady cur = true)).
Proof.
  assert (Time : forall (w0 w' : World),
             afterDeadline (now w + timeout) w0 = false -> now w <= now w0 ->
             w' = elapse rolloutPollInterval w0 ->
             now w < now w' <= now w + timeout + rolloutPollInterval).
  { intros w0 w' E N ->. unfold afterDeadline in E. rewrite Z.gtb_ltb in E.
    apply Z.ltb_ge in E. cbn [elapse now].
    unfold rolloutPollInterval, Second in *. lia. }
  split; [|split].
  - unfold Rollout.waitDeploymentRolledOut.
    pose proof (pollLoop_spec cl (afterDeadline (now w + timeout))
                  (fun w' => apiGetDeployment api w' ns name)
                  (fun cur => whenReady (deploymentReady cur))
                  (Errorf "timeout waiting for Deployment rollout")
                  (pollFuel timeout) w) as H.
    destruct (pollLoop cl _ _ _ _ (pollFuel timeout) w) as [r w'].
    destruct H as (T & _ & S). split; [exact T|].
    intros Hr. destruct (S Hr) as (w0 & cur & E0 & N0 & Ew & G & D).
    split; [exact (Time w0 w' E0 N0 Ew)|]. exists cur. split; [exact G|].
    now apply whenReady_Ok.
  - unfold Rollout.waitStatefulSetRolledOut.
    pose proof (pollLoop_spec cl (afterDeadline (now w + timeout))
                  (fun w' => apiGetStatefulSet api w' ns name)
                  (fun cur => whenReady (statefulSetReady cur))
                  (Errorf "timeout waiting for StatefulSet rollout")
                  (pollFuel timeout) w) as H.
    destruct (pollLoop cl _ _ _ _ (pollFuel timeout) w) as [r w'].
    destruct H as (T & _ & S). split; [exact T|].
    intros Hr. destruct (S Hr) as (w0 & cur & E0 & N0 & Ew & G & D).
    split; [exact (Time w0 w' E0 N0 Ew)|]. exists cur. split; [exact G|].
    now apply whenReady_Ok.
  - unfold Rollout.waitDaemonSetRolledOut.
    set (decide := fun cur : DaemonSet =>
           if String.eqb (dsUpdateStrategy cur) OnDeleteDaemonSetStrategyType
           then Some (Err (Errorf ("Daemonset " +++ ns +++ "/" +++ name
                  +++ " uses OnDelete strategy: template bump won't roll pods")))
           else whenReady (daemonSetReady cur)).
    pose proof (pollLoop_spec cl (afterDeadline (now w + timeout))
                  (fun w' => apiGetDaemonSet api w' ns name) decide
                  (Errorf "timeout waiting for Daemonset rollout")
                  (pollFuel timeout) w) as H.
    destruct (pollLoop cl _ _ decide _ (pollFuel timeout) w) as [r w'].
    destruct H as (T & _ & S). split; [exact T|].
    intros Hr. destruct (S Hr) as (w0 & cur & E0 & N0 & Ew & G & D).
    split; [exact (Time w0 w' E0 N0 Ew)|]. exists cur. split; [exact G|].
    unfold decide in D.
    destruct (String.eqb_spec (dsUpdateStrategy cur) OnDeleteDaemonSetStrategyType)
      as [E|N]; [discriminate|].
    split; [exact N|]. now apply whenReady_Ok.
Qed.

Lemma real_waiter_only_reads (cl : Cluster) (api : ReadApi) (h : Handlers) :
  waitDeploymentRolledOut h = Rollout.waitDeploymentRolledOut cl api ->
  waiterOnlyReads h.
Proof.
  intros E ns name t w. rewrite E.
  pose proof (waiters_only_read_and_report_rollout cl api ns name t w) as [H _].
  destruct (Rollout.waitDeploymentRolledOut cl api ns name t w) as [r w'].
  apply H.
Qed.

(** ** The proxy check *)

Lemma jobVerdict_Ok (conds : list JobCondition) :
  jobVerdict conds = Some (Ok tt) ->
  exists pre c post,
    conds = pre ++ c :: post /\ saysComplete c
    /\ Forall (fun x => ~ saysFailed x) (pre ++ [c]).
Proof.
  induction conds as [|x conds IH]; [discriminate|]. cbn [jobVerdict].
  destruct (String.eqb (jcType x) JobFailed && String.eqb (jcStatus x) ConditionTrue)
    eqn:F; [discriminate|].
  assert (NF : ~ saysFailed x).
  { intros [A B]. rewrite A, B in F. discriminate. }
  destruct (String.eqb (jcType x) JobComplete
            && String.eqb (jcStatus x) ConditionTrue) eqn:C.
  - intros _. apply andb_true_iff in C as [C1 C2].
    apply String.eqb_eq in C1, C2.
    exists [], x, conds. split; [reflexivity|]. split; [split; assumption|].
    cbn [app]. constructor; [exact NF|constructor].
  - intros H. destruct (IH H) as (pre & c & post & -> & Hc & Hall).
    exists (x :: pre), c, post. split; [reflexivity|]. split; [exact Hc|].
    cbn [app]. now constructor.
Qed.

(** X30. runLinkerdCheckJob replaces the check job and waits for it.  The
    job is named linkerd-proxy-check-NAMESPACE- followed by 7 lowercase
    hexadecimal digits (of the SHA-1 of the workload name) and runs the
    image given, or the default image when none is given.  Whatever
    happens, exactly one deletion and then one creation of that job are
    issued; the outcome of the deletion is ignored; a failed creation is
    returned at once.  The call returns without error only when the job
    was fetched, within the timeout rounded up to the next tick, with a
    condition Complete=True that no condition Failed=True precedes. *)
Theorem proxy_check_job_is_replaced_and_awaited (cl : Cluster) (api : ReadApi)
    (cliImage targetNs jobNs jobNameSuffix : string) (timeout : Duration)
    (w : World) :
  let job := checkJob cliImage targetNs jobNs jobNameSuffix in
  let '(r, w') := Rollout.runLinkerdCheckJob cl api cliImage targetNs jobNs
                                             jobNameSuffix timeout w in
  (exists h, Name (jobMeta job) = "linkerd-proxy-check-" +++ targetNs +++ "-" +++ h
             /\ String.length h = 7%nat /\ allBytes isLowerHex h = true)
  /\ jobImage job = (if strEmpty cliImage then defaultLinkerdCLIImage else cliImage)
  /\ trace w' = trace w ++ [deleteJobEvent job; createJobEvent job]
  /\ (forall e, apiCreateJob api (emit (deleteJobEvent job) w) job = Some e ->
        r = Err e /\ now w' = now w)
  /\ (r = Ok tt ->
      now w < now w' < now w + timeout + rolloutPollInterval
      /\ exists cur pre c post,
           apiGetJob api w' jobNs (Name (jobMeta job)) = Ok cur
           /\ jobConditions cur = pre ++ c :: post
           /\ saysComplete c
           /\ Forall (fun x => ~ saysFailed x) (pre ++ [c])).
Proof.
  intros job.
  assert (Hname : exists h,
             Name (jobMeta job) = "linkerd-proxy-check-" +++ targetNs +++ "-" +++ h
             /\ String.length h = 7%nat /\ allBytes isLowerHex h = true).
  { destruct (sha1_bytes (bytes_of_string jobNameSuffix)) as [R L].
    destruct (hexEncode_shape _ R) as [A Len].
    destruct (substring_prefix 7 (hexEncode (SHA1.digest
                (bytes_of_string jobNameSuffix))) ltac:(rewrite Len, L; lia))
      as [L7 A7].
    exists (strPrefix 7 (hexEncode (SHA1.digest (bytes_of_string jobNameSuffix)))).
    split; [reflexivity|]. split; [exact L7|exact (A7 A)]. }
  unfold Rollout.runLinkerdCheckJob. cbv zeta. fold job.
  set (w1 := emit (deleteJobEvent job) w).
  set (w2 := emit (createJobEvent job) w1).
  assert (T2 : trace w2 = trace w ++ [deleteJobEvent job; createJobEvent job]).
  { unfold w2, w1, emit. cbn [trace]. now rewrite <- app_assoc. }
  destruct (apiCreateJob api w1 job) as [e|] eqn:Cr.
  - split; [exact Hname|]. split; [reflexivity|]. split; [exact T2|].
    split; [intros e' E; injection E as <-; split; reflexivity|discriminate].
  - unfold Rollout.waitJobSucceeded.
    change (Namespace (jobMeta job)) with jobNs.
    set (name := Name (jobMeta job)) in *.
    pose proof (pollLoop_spec cl (notBefore (now w2 + timeout))
                  (fun w' => apiGetJob api w' jobNs name)
                  (fun cur => jobVerdict (jobConditions cur))
                  (Errorf ("timeout waiting for linkerd check job " +++ jobNs
                           +++ "/" +++ name))
                  (pollFuel timeout) w2) as H.
    destruct (pollLoop cl _ _ _ _ (pollFuel timeout) w2) as [r w'].
    destruct H as (T & _ & S).
    split; [exact Hname|]. split; [reflexivity|].
    split; [rewrite T; exact T2|]. split; [discriminate|].
    intros Hr. destruct (S Hr) as (w0 & cur & E0 & N0 & Ew & G & D).
    split.
    + subst w'. unfold notBefore in E0. apply negb_false_iff, Z.ltb_lt in E0.
      cbn [elapse now w2 w1 emit] in *. unfold rolloutPollInterval, Second in *. lia.
    + destruct (jobVerdict_Ok _ D) as (pre & c & post & Eq & Hc & Hall).
      now exists cur, pre, c, post.
Qed.

Lemma proxy_check_job_is_replaced_and_awaited_witness :
  let out := Rollout.runLinkerdCheckJob (sampleCluster [] [] [] noConfigMap)
               sampleReadApi EmptyString "ns1" "linkerd" "web" (5 * Minute)
               (mkWorld 0 []) in
  fst out = Ok tt /\ now (snd out) = 2 * Second
  /\ List.length (trace (snd out)) = 2%nat.
Proof.
  intros out.
  pose proof (proxy_check_job_is_replaced_and_awaited
                (sampleCluster [] [] [] noConfigMap) sampleReadApi EmptyString
                "ns1" "linkerd" "web" (5 * Minute) (mkWorld 0 [])) as H.
  cbv zeta in H. fold out in H.
  assert (Hr : fst out = Ok tt) by (vm_compute; reflexivity).
  assert (Hn : now (snd out) = 2 * Second) by (vm_compute; reflexivity).
  destruct out as [r w']. destruct H as (_ & _ & T & _).
  cbn [fst snd] in *. split; [exact Hr|]. split; [exact Hn|]. now rewrite T.
Defined.

Lemma waiters_only_read_and_report_rollout_witness :
  let out := Rollout.waitDeploymentRolledOut (sampleCluster [] [] [] noConfigMap)
               sampleReadApi "ns1" "web" (5 * Minute) (mkWorld 0 []) in
  fst out = Ok tt /\ trace (snd out) = [].
Proof.
  intros out.
  pose proof (proj1 (waiters_only_read_and_report_rollout
                       (sampleCluster [] [] [] noConfigMap) sampleReadApi
                       "ns1" "web" (5 * Minute) (mkWorld 0 []))) as H.
  assert (Hr : fst out = Ok tt) by (vm_compute; reflexivity).
  split; [exact Hr|exact (proj1 H)].
Defined.
